(** * SPINS / WGS pPXF orchestration: a shallow embedding

    The development follows [SPINS/run_ppxf.py] (class [pPXF], [run_ppxf],
    [make_table], [run_stellar_populations]), [WGS/pipeline.py]
    ([select_templates]), [WGS/stdphot.py] ([rebinstd]) and
    [stpop/run_paintbox_elliot.py] (class [CvDCaller]).

    Conventions.
    - numpy [float64] values are IEEE-754 binary64 numbers, represented by
      [spec_float] with precision 53 and maximal exponent 1024; comparisons
      and arithmetic are the ones of [SpecFloat].
    - Python exceptions are values of [exn]; a computation that may raise
      returns a [result].
    - The file system, the working directory and the log of invocations of
      the external fitter are threaded explicitly through [world].
    - Third-party collaborators (ppxf, log_rebin, astropy, numpy reductions
      whose summation order is unspecified) are fields of the class
      [External]. *)

From Stdlib Require Import ZArith List Bool Lia Permutation.
From Stdlib Require Import Floats.SpecFloat.
From stdpp Require Import base option list strings gmap pretty sorting.

Local Open Scope Z_scope.

(* ===================================================================== *)
(** ** Exceptions and fallible computations *)
(* ===================================================================== *)

(** The Python exceptions that the modelled code can raise.  [FitError]
    stands for whatever the external fitter raises. *)
Inductive exn : Set :=
| IOError | ValueError | IndexError | KeyError | TypeError
| UnboundLocalError | FitError.

(** The error kinds named by the specification. *)
Inductive error_kind : Set :=
| DataError | IOErrorKind | FitNonConvergence | ConfigError.

Definition kind_of (e : exn) : error_kind :=
  match e with
  | IOError => IOErrorKind
  | ValueError | IndexError | KeyError => DataError
  | TypeError | UnboundLocalError => ConfigError
  | FitError => FitNonConvergence
  end.

Inductive result (A : Type) : Type :=
| Ok (a : A)
| Raise (e : exn).
Arguments Ok {A} a.
Arguments Raise {A} e.

Definition rbind {A B} (r : result A) (k : A -> result B) : result B :=
  match r with
  | Ok a => k a
  | Raise e => Raise e
  end.

#[global] Instance result_ret : MRet result := fun A a => Ok a.
#[global] Instance result_bind : MBind result := fun A B k r => rbind r k.

Definition of_option {A} (e : exn) (o : option A) : result A :=
  match o with
  | Some a => Ok a
  | None => Raise e
  end.

(* ===================================================================== *)
(** ** binary64 numbers *)
(* ===================================================================== *)

Module F64.

Definition prec : Z := 53.
Definition emax : Z := 1024.

Definition float : Set := spec_float.

Definition zero : float := S754_zero false.
Definition one : float := S754_finite false 4503599627370496 (-52).
Definition nan : float := S754_nan.
Definition infinity : float := S754_infinity false.

(** An integer converted to binary64, as numpy does when an [int64] meets
    a [float64] operand. *)
Definition of_Z (z : Z) : float := binary_normalize prec emax z 0 false.

Definition eqb (x y : float) : bool := SFeqb x y.
Definition ltb (x y : float) : bool := SFltb x y.
Definition leb (x y : float) : bool := SFleb x y.
Definition gtb (x y : float) : bool := SFltb y x.

Definition add : float -> float -> float := SFadd prec emax.
Definition sub : float -> float -> float := SFsub prec emax.
Definition mul : float -> float -> float := SFmul prec emax.
Definition div : float -> float -> float := SFdiv prec emax.

Definition is_nan (x : float) : bool :=
  match x with S754_nan => true | _ => false end.

Definition is_inf (x : float) : bool :=
  match x with S754_infinity _ => true | _ => false end.

(** [x != 0] and [x == 0] as numpy evaluates them ([nan != 0] holds). *)
Definition ne0 (x : float) : bool := negb (eqb x zero).
Definition eq0 (x : float) : bool := eqb x zero.

(** [np.maximum]: the larger operand, a NaN operand wins. *)
Definition max2 (a b : float) : float :=
  if is_nan a then a
  else if is_nan b then b
  else if ltb a b then b else a.

End F64.

Abbreviation float := F64.float.

(* ===================================================================== *)
(** ** numpy arrays as lists *)
(* ===================================================================== *)

(** [np.where(mask)[0]] / [np.argwhere(mask).ravel()]: the positions of the
    true entries, ascending. *)
Fixpoint np_where_from (i : nat) (mask : list bool) : list nat :=
  match mask with
  | [] => []
  | b :: mask' =>
      if b then i :: np_where_from (S i) mask' else np_where_from (S i) mask'
  end.

Definition np_where (mask : list bool) : list nat := np_where_from 0 mask.

(** [a[idx]] for an array of non-negative positions; a position past the end
    raises [IndexError]. *)
Fixpoint take_idx {A} (a : list A) (idx : list nat) : result (list A) :=
  match idx with
  | [] => Ok []
  | i :: idx' =>
      match a !! i with
      | None => Raise IndexError
      | Some x =>
          match take_idx a idx' with
          | Ok xs => Ok (x :: xs)
          | Raise e => Raise e
          end
      end
  end.

(** [a.max()]: raises [ValueError] on an empty array. *)
Definition np_max (a : list float) : result float :=
  match a with
  | [] => Raise ValueError
  | x :: a' => Ok (fold_left F64.max2 a' x)
  end.

(** [a[a == 0] = v] *)
Definition set_where_zero (v : float) (a : list float) : list float :=
  map (fun x => if F64.eq0 x then v else x) a.

(** [a[0]] and [a[-1]] *)
Definition first {A} (a : list A) : result A := of_option IndexError (head a).
Definition last_elem {A} (a : list A) : result A := of_option IndexError (last a).

(* ===================================================================== *)
(** ** Spectrum loader ([run_ppxf], lines 205-224) *)
(* ===================================================================== *)

(** The three columns read from a per-spectrum table, already in angstrom. *)
Record spectrum : Type := Spectrum {
  WAVE : list float;
  FLUX : list float;
  FLUX_ERR : list float
}.

(** Lines 211-215: [idx = np.where(flux != 0)] and the three selections. *)
Definition remove_zeros (s : spectrum) : result spectrum :=
  let idx := np_where (map F64.ne0 (FLUX s)) in
  (w ← take_idx (WAVE s) idx;
   f ← take_idx (FLUX s) idx;
   e ← take_idx (FLUX_ERR s) idx;
   Ok (Spectrum w f e)).

(** [col.max()] of a table column as astropy reads it: the NaN entries of a
    column are masked when the table is read and the maximum is taken over
    the other entries.  An empty column raises [ValueError]; in a column of
    NaN only the result is the masked constant, which is assigned to no
    entry by line 216 (no entry is zero) and is represented by NaN. *)
Definition column_max (a : list float) : result float :=
  match a with
  | [] => Raise ValueError
  | _ =>
      match List.filter (fun x => negb (F64.is_nan x)) a with
      | [] => Ok F64.nan
      | x :: a' => Ok (fold_left F64.max2 a' x)
      end
  end.

(** Line 216: [fluxerr[fluxerr==0] = fluxerr.max()]. *)
Definition fix_zero_errors (e : list float) : result (list float) :=
  (m ← column_max e;
   Ok (set_where_zero m e)).

(** Lines 219-224: keep the samples strictly inside the template range. *)
Definition trim_to_templates (wave_temp : list float) (s : spectrum)
  : result spectrum :=
  (lo ← first wave_temp;
   hi ← last_elem wave_temp;
   let idx := np_where (map (fun w => F64.gtb w lo && F64.ltb w hi) (WAVE s)) in
   w ← take_idx (WAVE s) idx;
   f ← take_idx (FLUX s) idx;
   e ← take_idx (FLUX_ERR s) idx;
   Ok (Spectrum w f e)).

(** Lines 211-216 together: what is handed to the trimming step. *)
Definition load_spectrum (s : spectrum) : result spectrum :=
  (s1 ← remove_zeros s;
   e ← fix_zero_errors (FLUX_ERR s1);
   Ok (Spectrum (WAVE s1) (FLUX s1) e)).

(* ===================================================================== *)
(** ** Bad-pixel mask ([run_ppxf], lines 234-244) *)
(* ===================================================================== *)

(** [np.arange(n)] *)
Definition arange (n : nat) : list nat := seq 0 n.

(** Insertion into a strictly ascending list, keeping it duplicate free. *)
Fixpoint insert_unique (x : nat) (l : list nat) : list nat :=
  match l with
  | [] => [x]
  | y :: l' =>
      if (x <? y)%nat then x :: l
      else if (x =? y)%nat then l
      else y :: insert_unique x l'
  end.

(** [np.unique]: the sorted distinct values. *)
Definition np_unique (l : list nat) : list nat := foldr insert_unique [] l.

(** [np.intersect1d(a, b)]: the sorted distinct values present in both. *)
Definition intersect1d (a b : list nat) : list nat :=
  filter (fun i => i ∈ b) (np_unique a).

Definition skylines : list Z := [4785; 5577; 5889; 6300; 6863].

(** The test of line 238 on one wavelength:
    [(lam < line - 15) | (lam > line + 15)]. *)
Definition off_line (line : Z) (x : float) : bool :=
  F64.ltb x (F64.of_Z (line - 15)) || F64.gtb x (F64.of_Z (line + 15)).

(** [np.argwhere(...).ravel()] of line 238. *)
Definition skyline (lam : list float) (line : Z) : list nat :=
  np_where (map (off_line line) lam).

(** [np.where(~np.isnan(galaxy))[0]] of line 242. *)
Definition nans (galaxy : list float) : list nat :=
  np_where (map (fun x => negb (F64.is_nan x)) galaxy).

Definition mask_bad_pixels (lam galaxy : list float) : list nat :=
  let goodpixels :=
    fold_left (fun gp line => intersect1d gp (skyline lam line))
              skylines (arange (length lam)) in
  intersect1d goodpixels (nans galaxy).

(** The same intersections taken in an arbitrary order: [steps] lists the
    index sets that are intersected, one after the other. *)
Definition mask_steps (lam galaxy : list float) : list (list nat) :=
  map (skyline lam) skylines ++ [nans galaxy].

Definition intersect_all (n : nat) (steps : list (list nat)) : list nat :=
  fold_left intersect1d steps (arange n).

(* ===================================================================== *)
(** ** Python slices *)
(* ===================================================================== *)

(** The position a slice bound [k] denotes in a sequence of length [n]: a
    negative bound counts from the end, and bounds are clipped to [0, n]. *)
Definition slice_bound (n : nat) (k : Z) : nat :=
  if k <? 0 then Z.to_nat (Z.max 0 (Z.of_nat n + k))
  else Nat.min n (Z.to_nat k).

(** [l[:k]] and [l[k:]] *)
Definition slice_to {A} (k : Z) (l : list A) : list A :=
  take (slice_bound (length l) k) l.
Definition slice_from {A} (k : Z) (l : list A) : list A :=
  drop (slice_bound (length l) k) l.

(** [m[:, :k]] and [m[:, k:]] on a matrix given by its rows. *)
Definition cols_to (k : Z) (m : list (list float)) : list (list float) :=
  map (slice_to k) m.
Definition cols_from (k : Z) (m : list (list float)) : list (list float) :=
  map (slice_from k) m.

Definition zeros_like (a : list float) : list float := map (fun _ => F64.zero) a.
Definition ones_like (a : list float) : list float := map (fun _ => F64.one) a.

(* ===================================================================== *)
(** ** Values exchanged with the external fitter *)
(* ===================================================================== *)

(** Values stored in the keyword dictionary handed to ppxf. *)
Inductive pyval : Type :=
| VNone
| VBool (b : bool)
| VInt (z : Z)
| VFloat (x : float)
| VInts (a : list Z)
| VIndices (a : list nat)
| VFloats (a : list float)
| VFloats2 (a : list (list float))
| VFloats3 (a : list (list (list float))).

(** One invocation [ppxf(templates, galaxy, noise, velscale, **kwargs)].
    The template matrix is given by its columns, one template each. *)
Record fit_call : Type := FitCall {
  fc_templates : list (list float);
  fc_galaxy : list float;
  fc_noise : list float;
  fc_velscale : Z;
  fc_kwargs : gmap string pyval
}.

(** The attributes of the object returned by ppxf that this code reads.
    [pp_matrix] is the design matrix by rows (one row per pixel); [pp_sol]
    and [pp_error] hold one vector per kinematic component. *)
Record ppxf_obj : Type := PpxfObj {
  pp_matrix : list (list float);
  pp_degree : Z;
  pp_mdegree : Z;
  pp_weights : list float;
  pp_polyweights : option (list float);
  pp_mpolyweights : option (list float);
  pp_reddening : option float;
  pp_galaxy : list float;
  pp_lam : list float;
  pp_bestfit : list float;
  pp_noise : list float;
  pp_goodpixels : list nat;
  pp_ncomp : Z;
  pp_sol : list (list float);
  pp_error : list (list float);
  pp_chi2 : float
}.

(** Third-party collaborators and the constants of the [context] module. *)
Class External : Type := {
  (** astropy: [(x * u.micrometer).to(u.angstrom).value] *)
  to_angstrom : float -> float;
  (** astropy: [constants.c.to("km/s").value] *)
  c_kms : float;
  np_exp : float -> float;
  (** [util.log_rebin([w0, w1], spec, velscale=velscale)] returns the
      rebinned spectrum, the log-wavelength grid and the velocity scale *)
  log_rebin : float -> float -> list float -> Z
              -> result (list float * list float * float);
  ppxf : fit_call -> result ppxf_obj;
  (** inner product of two vectors of equal length *)
  np_dot : list float -> list float -> float;
  (** [np.polynomial.legendre.legval(x, c)] *)
  legval : list float -> list float -> list float;
  (** [np.linspace(a, b, n)] *)
  linspace : float -> float -> nat -> list float;
  reddening_cal00 : list float -> float -> list float;
  nanmedian : list float -> float;
  (** [sigma_clip(a, sigma=s)] *)
  sigma_clip : Z -> list float -> list float;
  nanstd : list float -> float;
  (** [context.home], [context.data_dir], [context.vsyst.value] *)
  context_home : string;
  context_data_dir : string;
  context_vsyst : float
}.

(* ===================================================================== *)
(** ** Result decomposer (class [pPXF]) *)
(* ===================================================================== *)

Section Decomposer.
Context `{External}.

(** [m.dot(v)] for a matrix given by its rows: every row must be as long
    as [v], otherwise numpy raises [ValueError]. *)
Definition matvec (m : list (list float)) (v : list float)
  : result (list float) :=
  if forallb (fun row => (length row =? length v)%nat) m
  then Ok (map (fun row => np_dot row v) m)
  else Raise ValueError.

(** What [calc_arrays] adds to the object. *)
Record arrays : Type := Arrays {
  apoly : list float;
  mpoly : list float;
  extinction : list float;
  star_weights : list float;
  gas_weights : list float;
  sky_weights : list float;
  ssps : list float;
  gas : list float;
  bestsky : list float
}.

Definition calc_arrays (pp : ppxf_obj) (ntemplates ngas : nat)
  : result arrays :=
  (* Slice matrix into components *)
  let matrix := pp_matrix pp in
  let mpoly_basis := cols_to (pp_degree pp + 1) matrix in
  let matrix := cols_from (pp_degree pp + 1) matrix in
  let ssps_cols := cols_to (Z.of_nat ntemplates) matrix in
  let matrix := cols_from (Z.of_nat ntemplates) matrix in
  let gas_cols := cols_to (Z.of_nat ngas) matrix in
  let matrix := cols_from (Z.of_nat ngas) matrix in
  let sky := matrix in
  (* Making arrays *)
  apoly ← match pp_polyweights pp with
          | Some pw => matvec mpoly_basis pw
          | None => Ok (zeros_like (pp_galaxy pp))
          end;
  let mpoly :=
    match pp_mpolyweights pp with
    | Some mw =>
        let x := linspace (F64.of_Z (-1)) (F64.of_Z 1)
                          (length (pp_galaxy pp)) in
        legval x (F64.of_Z 1 :: mw)
    | None => ones_like (pp_galaxy pp)
    end in
  let extinction :=
    match pp_reddening pp with
    | Some r => reddening_cal00 (pp_lam pp) r
    | None => ones_like (pp_galaxy pp)
    end in
  let weights := pp_weights pp in
  let star_weights := slice_to (Z.of_nat ntemplates) weights in
  let weights := slice_from (Z.of_nat ntemplates) weights in
  let gas_weights := slice_to (Z.of_nat ngas) weights in
  let weights := slice_from (Z.of_nat ngas) weights in
  let sky_weights := weights in
  (* Calculating components *)
  ssps ← matvec ssps_cols star_weights;
  gas ← matvec gas_cols gas_weights;
  bestsky ← matvec sky sky_weights;
  Ok (Arrays apoly mpoly extinction star_weights gas_weights sky_weights
             ssps gas bestsky).

(** What [calc_sn] adds to the object. *)
Record sn_info : Type := SnInfo {
  signal : float;
  meannoise : float;
  sn : float
}.

(** [a - b] on arrays of equal length. *)
Definition np_sub (a b : list float) : list float :=
  zip_with F64.sub a b.

Definition calc_sn (pp : ppxf_obj) : result sn_info :=
  g ← take_idx (pp_galaxy pp) (pp_goodpixels pp);
  let signal := nanmedian g in
  b ← take_idx (pp_bestfit pp) (pp_goodpixels pp);
  let meannoise := nanstd (sigma_clip 5 (np_sub g b)) in
  let sn := F64.div signal meannoise in
  Ok (SnInfo signal meannoise sn).

End Decomposer.


(* ===================================================================== *)
(** ** Strings and paths *)
(* ===================================================================== *)

Local Open Scope string_scope.

(** [s.endswith(suffix)] *)
Definition endswith (s suffix : string) : bool :=
  let n := String.length s in
  let k := String.length suffix in
  (k <=? n)%nat && String.eqb (String.substring (n - k) k s) suffix.

(** [s.replace(old, new)] for a non-empty [old]: the occurrences are replaced
    from left to right without overlap.  [skip] counts the characters of the
    occurrence being replaced that are still to be dropped. *)
Fixpoint replace_from (old new : string) (skip : nat) (s : string) : string :=
  match s with
  | EmptyString => EmptyString
  | String c s' =>
      match skip with
      | S k => replace_from old new k s'
      | O =>
          if String.prefix old s
          then new ++ replace_from old new (String.length old - 1) s'
          else String c (replace_from old new 0 s')
      end
  end.

Definition replace (s old new : string) : string := replace_from old new 0 s.

(** [os.path.join(a, b)] for a relative [b]. *)
Definition join (a b : string) : string := a ++ "/" ++ b.

(** Insertion sort by code point order: [sorted] on a list of strings. *)
Fixpoint insert_sorted (x : string) (l : list string) : list string :=
  match l with
  | [] => [x]
  | y :: l' => if String.leb x y then x :: l else y :: insert_sorted x l'
  end.

Definition sorted (l : list string) : list string := foldr insert_sorted [] l.

(* ===================================================================== *)
(** ** The world: file system, working directory, fitter log *)
(* ===================================================================== *)

(** The template file read by [run_ppxf]: HDU 0, HDU 1 and the [loglam]
    column of HDU 3. *)
Record template_bank : Type := TemplateBank {
  tb_stars : list (list float);
  tb_emission : list (list float);
  tb_loglam : list float
}.

(** The template file read by [select_templates]: the [SSPS] image, the
    parameter table of HDU 1 (one row per template) and the wavelength table
    of HDU 2, with the [NAXIS2] card of the image header. *)
Record ssp_bank : Type := SspBank {
  sb_ssps : list (list float);
  sb_params : list (list float);
  sb_logwave : list float;
  sb_naxis2 : nat
}.

(** The pickled [pPXF] object: the table built by [save] and the attributes
    that stay on the object. *)
Record saved_fit : Type := SavedFit {
  sf_name : string;
  sf_title : string;
  sf_table : list (string * pyval);
  sf_ncomp : Z;
  sf_sol : list (list float);
  sf_error : list (list float);
  sf_chi2 : float;
  sf_sn : float;
  sf_signal : float;
  sf_meannoise : float;
  sf_degree : Z;
  sf_mdegree : Z;
  sf_dv : float;
  sf_velscale : Z;
  sf_ngas : nat;
  sf_ntemplates : nat;
  sf_weights : list float
}.

(** One row of the summary table written by [make_table]. *)
Record summary_row : Type := SummaryRow {
  sr_spec : string;
  sr_v : float; sr_verr : float;
  sr_sigma : float; sr_sigmaerr : float;
  sr_h3 : float; sr_h3err : float;
  sr_h4 : float; sr_h4err : float;
  sr_chi2 : float; sr_snr : float;
  sr_adegree : Z; sr_mdegree : Z
}.

Inductive file : Type :=
| FitsTable (t : spectrum)        (* WAVE (micrometer), FLUX, FLUX_ERR *)
| Templates (b : template_bank)
| SspTemplates (b : ssp_bank)
| Weights (idx : list nat)        (* a weights table, its [idx] column *)
| Pickle (p : saved_fit)
| Image (title : string)
| Summary (rows : list summary_row)
| Unreadable.

(** A file is addressed by its directory and its name in it; [fs] maps each
    existing directory to its files. *)
Record world : Type := World {
  fs : gmap string (gmap string file);
  cwd : string;
  fitlog : list fit_call
}.

(** Computations that read and change the world and may raise. *)
Definition M (A : Type) : Type := world -> world * result A.

Definition ret {A} (a : A) : M A := fun w => (w, Ok a).

Definition bind {A B} (m : M A) (k : A -> M B) : M B :=
  fun w =>
    match m w with
    | (w', Ok a) => k a w'
    | (w', Raise e) => (w', Raise e)
    end.

Definition lift {A} (r : result A) : M A := fun w => (w, r).

Notation "'let*' x ':=' m 'in' k" := (bind m (fun x => k))
  (at level 10, x pattern, m at level 200, k at level 200,
   only parsing).

Definition getcwd : M string := fun w => (w, Ok (cwd w)).

(** [os.chdir(d)] *)
Definition chdir (d : string) : M unit :=
  fun w =>
    match fs w !! d with
    | Some _ => (World (fs w) d (fitlog w), Ok tt)
    | None => (w, Raise IOError)
    end.

(** [os.path.exists(d)] for a directory *)
Definition dir_exists (d : string) : M bool :=
  fun w => (w, Ok (bool_decide (is_Some (fs w !! d)))).

(** [os.mkdir(d)] *)
Definition mkdir (d : string) : M unit :=
  fun w =>
    match fs w !! d with
    | Some _ => (w, Raise IOError)
    | None => (World (<[d := ∅]> (fs w)) (cwd w) (fitlog w), Ok tt)
    end.

Definition lookup_file (w : world) (d n : string) : option file :=
  fs w !! d ≫= fun files => files !! n.

(** [os.path.exists(os.path.join(d, n))] *)
Definition file_exists (d n : string) : M bool :=
  fun w => (w, Ok (bool_decide (is_Some (lookup_file w d n)))).

(** [os.listdir(d)] *)
Definition listdir (d : string) : M (list string) :=
  fun w =>
    match fs w !! d with
    | Some files => (w, Ok ((map_to_list files).*1))
    | None => (w, Raise IOError)
    end.

Definition read_file (d n : string) : M file :=
  fun w => (w, of_option IOError (lookup_file w d n)).

Definition write_file (d n : string) (f : file) : M unit :=
  fun w =>
    match fs w !! d with
    | Some files =>
        (World (<[d := <[n := f]> files]> (fs w)) (cwd w) (fitlog w), Ok tt)
    | None => (w, Raise IOError)
    end.

(* ===================================================================== *)
(** ** Fit orchestrator ([run_ppxf]) *)
(* ===================================================================== *)

Section Orchestrator.
Context `{External}.

(** The call of the external fitter; the invocation is recorded in the log. *)
Definition call_ppxf (c : fit_call) : M ppxf_obj :=
  fun w => (World (fs w) (cwd w) (fitlog w ++ [c])%list, ppxf c).

(** What lines 206-243 compute for one spectrum. *)
Record prepared : Type := Prepared {
  p_galaxy : list float;
  p_noise : list float;
  p_logLam : list float;
  p_dv : float;
  p_lam : list float;
  p_goodpixels : list nat
}.

Definition prepare (logwave_temp wave_temp : list float) (velscale : Z)
  (data : spectrum) : result prepared :=
  let wave := map to_angstrom (WAVE data) in
  (* Remove zeros in the borders *)
  s ← load_spectrum (Spectrum wave (FLUX data) (FLUX_ERR data));
  (* Trim spectrum according to templates *)
  s ← trim_to_templates wave_temp s;
  w0 ← first (WAVE s);
  w1 ← last_elem (WAVE s);
  '(galaxy, logLam, _) ← log_rebin w0 w1 (FLUX s) velscale;
  '(noise, _, _) ← log_rebin w0 w1 (FLUX_ERR s) velscale;
  lt0 ← first logwave_temp;
  ll0 ← first logLam;
  let dv := F64.mul (F64.sub lt0 ll0) c_kms in
  let lam := map np_exp logLam in
  (* Masking bad pixels *)
  let goodpixels := mask_bad_pixels lam galaxy in
  Ok (Prepared galaxy noise logLam dv lam goodpixels).

(** [pPXF.plot], what can raise in it: the solutions of two components, the
    selections by [goodpixels] and the accesses to their ends. *)
Definition plot_checks (pp : ppxf_obj) (a : arrays) (w : list float)
  : result unit :=
  let gp := pp_goodpixels pp in
  _ ← (if (1 <? pp_ncomp pp)%Z
       then _ ← of_option IndexError (pp_sol pp !! 0%nat);
            _ ← of_option IndexError (pp_error pp !! 0%nat);
            _ ← of_option IndexError (pp_sol pp !! 1%nat);
            _ ← of_option IndexError (pp_error pp !! 1%nat);
            Ok tt
       else Ok tt);
  wg ← take_idx w gp;
  _ ← take_idx (pp_galaxy pp) gp;
  _ ← take_idx (bestsky a) gp;
  bf ← take_idx (pp_bestfit pp) gp;
  _ ← (if (pp_ncomp pp =? 2)%Z then take_idx (gas a) gp else Ok []);
  _ ← first wg;
  _ ← last_elem wg;
  _ ← np_max bf;
  _ ← take_idx (pp_noise pp) gp;
  Ok tt.

(** [pPXF.plot]: the figure is drawn, then written. *)
Definition plot (pp : ppxf_obj) (a : arrays) (w : list float)
  (title dir name : string) : M unit :=
  let* _ := lift (plot_checks pp a w) in
  write_file dir name (Image title).

(** [pPXF.save]: the table, then the pickle. *)
Definition save (pp : ppxf_obj) (a : arrays) (s : sn_info) (w : list float)
  (name title : string) (dv : float) (velscale : Z) (ngas ntemplates : nat)
  (logdir : string) : M unit :=
  let goodpixels :=
    map (fun i => if bool_decide (i ∈ pp_goodpixels pp) then 1%Z else 0%Z)
        (arange (length w)) in
  let table :=
    [("wave", VFloats w); ("flux", VFloats (pp_galaxy pp));
     ("bestfit", VFloats (pp_bestfit pp)); ("ssps", VFloats (ssps a));
     ("emission", VFloats (gas a)); ("apoly", VFloats (apoly a));
     ("mpoly", VFloats (mpoly a)); ("goodpixels", VInts goodpixels);
     ("reddening", VFloats (extinction a)); ("sky", VFloats (bestsky a));
     ("noise", VFloats (pp_noise pp))] in
  write_file logdir (name ++ ".pkl")
    (Pickle (SavedFit name title table (pp_ncomp pp) (pp_sol pp)
               (pp_error pp) (pp_chi2 pp) (sn s) (signal s) (meannoise s)
               (pp_degree pp) (pp_mdegree pp) dv velscale ngas ntemplates
               (pp_weights pp))).

(** [name.upper().replace("_", " ")] *)
Definition upper_char (c : Ascii.ascii) : Ascii.ascii :=
  let n := Ascii.nat_of_ascii c in
  if ((97 <=? n) && (n <=? 122))%nat then Ascii.ascii_of_nat (n - 32) else c.

Fixpoint upper (s : string) : string :=
  match s with
  | EmptyString => EmptyString
  | String c s' => String (upper_char c) (upper s')
  end.

(** What does not change from one spectrum of the batch to the next. *)
Record batch : Type := Batch {
  b_logwave_temp : list float;
  b_wave_temp : list float;
  b_templates : option (list (list float));  (* unbound unless ncomp is 1 or 2 *)
  b_nstars : nat;
  b_ngas : nat;
  b_velscale : Z;
  b_logdir : string
}.

(** Lines 202-263: one spectrum is read, fitted, plotted and saved.  The
    keyword dictionary is updated in place and handed back. *)
Definition fit_spectrum (b : batch) (fname name : string)
  (kwargs : gmap string pyval) : M (gmap string pyval) :=
  let* d := getcwd in
  let* f := read_file d fname in
  let* data := lift (match f with
                     | FitsTable t => Ok t
                     | _ => Raise IOError
                     end) in
  let* p := lift (prepare (b_logwave_temp b) (b_wave_temp b)
                          (b_velscale b) data) in
  let kwargs := <["lam" := VFloats (p_lam p)]> kwargs in
  let kwargs := <["goodpixels" := VIndices (p_goodpixels p)]> kwargs in
  let kwargs := <["vsyst" := VFloat (p_dv p)]> kwargs in
  let* templates := lift (of_option UnboundLocalError (b_templates b)) in
  let* pp := call_ppxf (FitCall templates (p_galaxy p) (p_noise p)
                                (b_velscale b) kwargs) in
  let title := replace (upper name) "_" " " in
  let* a := lift (calc_arrays pp (b_nstars b) (b_ngas b)) in
  let* s := lift (calc_sn pp) in
  let* _ := plot pp a (p_lam p) title (b_logdir b) (name ++ ".png") in
  let* _ := save pp a s (p_lam p) name title (p_dv p) (b_velscale b)
                 (b_ngas b) (b_nstars b) (b_logdir b) in
  ret kwargs.

(** The loop of lines 197-263; the keyword dictionary as the last processed
    spectrum left it is handed back. *)
Fixpoint fit_all (b : batch) (redo : bool) (filenames : list string)
  (kwargs : gmap string pyval) : M (gmap string pyval) :=
  match filenames with
  | [] => ret kwargs
  | fname :: rest =>
      let name := replace fname ".fits" "" in
      let* done := file_exists (b_logdir b) (name ++ ".pkl") in
      if done && negb redo then fit_all b redo rest kwargs
      else
        let* kwargs := fit_spectrum b fname name kwargs in
        fit_all b redo rest kwargs
  end.

Definition read_templates (tempfile : string * string) : M template_bank :=
  let* f := read_file tempfile.1 tempfile.2 in
  lift (match f with
        | Templates b => Ok b
        | _ => Raise IOError
        end).

Definition data_dir_of (galaxy_dir : string) (targetSN : Z) : string :=
  join galaxy_dir ("molecfited_sn" ++ pretty targetSN).

Definition logdir_of (data_dir : string) (velscale w1 w2 targetSN : Z)
  : string :=
  join data_dir ("ppxf_vel" ++ pretty velscale ++ "_w" ++ pretty w1 ++ "_"
                 ++ pretty w2 ++ "_sn" ++ pretty targetSN).

(** Lines 180-187: the template matrix (by columns) and the component
    vector, for one or two kinematic components. *)
Definition set_components (ncomp : Z) (stars emission : list (list float))
  (kwargs : gmap string pyval)
  : option (list (list float)) * gmap string pyval :=
  let nstars := length stars in
  let ngas := length emission in
  if (ncomp =? 1)%Z then
    (Some stars, <["component" := VInts (replicate nstars 0%Z)]> kwargs)
  else if (ncomp =? 2)%Z then
    (Some (stars ++ emission)%list,
     <["component" := VInts (replicate nstars 0%Z ++ replicate ngas 1%Z)%list]> kwargs)
  else (None, kwargs).

(** Lines 169-196: what [run_ppxf] does before its loop.  It hands over the
    directory to return to, the data of the batch, the sorted input files
    and the keyword dictionary. *)
Definition batch_setup (galaxy_dir : string) (w1 w2 targetSN : Z)
  (tempfile : string * string) (velscale : option Z) (ncomp : Z)
  (test : bool) (kwargs : gmap string pyval)
  : M (string * batch * list string * gmap string pyval) :=
  let* cwd0 := getcwd in
  let* bank := read_templates tempfile in
  let logwave_temp := tb_loglam bank in
  let wave_temp := map np_exp logwave_temp in
  let stars := if test then take 5 (tb_stars bank) else tb_stars bank in
  let emission := tb_emission bank in
  let ngas := length emission in
  let nstars := length stars in
  (* Set components *)
  let '(templates, kwargs) := set_components ncomp stars emission kwargs in
  let data_dir := data_dir_of galaxy_dir targetSN in
  let* _ := chdir data_dir in
  let* vs := lift (of_option TypeError velscale) in
  let logdir := logdir_of data_dir vs w1 w2 targetSN in
  let* present := dir_exists logdir in
  let* _ := (if present then ret tt else mkdir logdir) in
  (* Processing the spectra of a field *)
  let* here := getcwd in
  let* entries := listdir here in
  let filenames := filter (fun n => Is_true (endswith n ".fits"))
                          (sorted entries) in
  ret (cwd0,
       Batch logwave_temp wave_temp templates nstars ngas vs logdir,
       filenames, kwargs).

Definition run_ppxf (galaxy_dir : string) (w1 w2 targetSN : Z)
  (tempfile : string * string) (velscale : option Z) (redo : bool)
  (ncomp : Z) (test : bool) (kwargs : gmap string pyval) : M unit :=
  let* (cwd0, b, filenames, kwargs) :=
    batch_setup galaxy_dir w1 w2 targetSN tempfile velscale ncomp test
                kwargs in
  let* _ := fit_all b redo filenames kwargs in
  chdir cwd0.

End Orchestrator.

(* ===================================================================== *)
(** ** Batch aggregator ([make_table]) *)
(* ===================================================================== *)

Section Aggregator.
Context `{External}.

Definition summary_name (velscale w1 w2 targetSN : Z) : string :=
  "ppxf_vel" ++ pretty velscale ++ "_sn" ++ pretty targetSN ++ "_w"
  ++ pretty w1 ++ "_" ++ pretty w2 ++ ".fits".

(** The quantities taken from one pickled fit: the solution of the first
    kinematic component and its errors, chi2, S/N, degrees and name. *)
Definition summary_row_of (p : saved_fit) : result summary_row :=
  sol ← of_option IndexError (sf_sol p !! 0%nat);
  error ← of_option IndexError (sf_error p !! 0%nat);
  v ← of_option IndexError (sol !! 0%nat);
  verr ← of_option IndexError (error !! 0%nat);
  sigma ← of_option IndexError (sol !! 1%nat);
  sigmaerr ← of_option IndexError (error !! 1%nat);
  h3 ← of_option IndexError (sol !! 2%nat);
  h3err ← of_option IndexError (error !! 2%nat);
  h4 ← of_option IndexError (sol !! 3%nat);
  h4err ← of_option IndexError (error !! 3%nat);
  Ok (SummaryRow (sf_name p) v verr sigma sigmaerr h3 h3err h4 h4err
                 (sf_chi2 p) (sf_sn p) (sf_degree p) (sf_mdegree p)).

(** The loop of lines 285-297. *)
Fixpoint load_rows (pkls : list string) : M (list summary_row) :=
  match pkls with
  | [] => ret []
  | fname :: rest =>
      let* d := getcwd in
      let* f := read_file d fname in
      let* p := lift (match f with
                      | Pickle p => Ok p
                      | _ => Raise IOError
                      end) in
      let* row := lift (summary_row_of p) in
      let* rows := load_rows rest in
      ret (row :: rows)
  end.

Definition make_table (galaxy_dir : string) (w1 w2 targetSN : Z)
  (velscale : option Z) (redo : bool) : M unit :=
  let* cwd0 := getcwd in
  let velscale := default 20%Z velscale in
  let data_dir := data_dir_of galaxy_dir targetSN in
  let logdir := logdir_of data_dir velscale w1 w2 targetSN in
  let output := summary_name velscale w1 w2 targetSN in
  let* present := file_exists galaxy_dir output in
  if present && negb redo then ret tt
  else
    let* _ := chdir logdir in
    let* here := getcwd in
    let* entries := listdir here in
    let pkls := sorted (filter (fun n => Is_true (endswith n "pkl")) entries) in
    let* rows := load_rows pkls in
    (* [sols[0]] of an empty array *)
    let* _ := lift (match rows with
                    | [] => Raise IndexError
                    | _ => Ok tt
                    end) in
    let* _ := write_file galaxy_dir output (Summary rows) in
    chdir cwd0.

End Aggregator.

(* ===================================================================== *)
(** ** Entry point ([run_stellar_populations]) *)
(* ===================================================================== *)

Section StellarPopulations.
Context `{External}.

Definition c0_3 : float := S754_finite false 5404319552844595 (-54).
Definition m0_3 : float := S754_finite true 5404319552844595 (-54).

(** Lines 322-340: the keyword dictionary of each branch; no dictionary is
    bound when [ncomp] is neither 1 nor 2. *)
Definition stellar_kwargs (ncomp : Z) (velscale : Z)
  : option (gmap string pyval) :=
  let v0 := context_vsyst in
  let lo := F64.sub v0 (F64.of_Z 2000) in
  let hi := F64.add v0 (F64.of_Z 2000) in
  if (ncomp =? 1)%Z then
    let bounds := [[lo; hi]; [F64.of_Z 3; F64.of_Z 800]; [m0_3; c0_3];
                   [m0_3; c0_3]] in
    let start := [v0; F64.of_Z 50; F64.zero; F64.zero] in
    Some (<["start" := VFloats start]>
          (<["plot" := VBool false]>
          (<["moments" := VInts [4%Z]]>
          (<["degree" := VInt 20]>
          (<["mdegree" := VInt 5]>
          (<["reddening" := VNone]>
          (<["clean" := VBool true]>
          (<["bounds" := VFloats2 bounds]>
          (<["velscale" := VInt velscale]> ∅)))))))))
  else if (ncomp =? 2)%Z then
    let bounds := [[[lo; hi]; [F64.of_Z 3; F64.of_Z 800]; [m0_3; c0_3];
                    [m0_3; c0_3]];
                   [[lo; hi]; [F64.of_Z 3; F64.of_Z 80]; [m0_3; c0_3];
                    [m0_3; c0_3]]] in
    let start := [[v0; F64.of_Z 50; F64.zero; F64.zero];
                  [v0; F64.of_Z 50; F64.zero; F64.zero]] in
    Some (<["start" := VFloats2 start]>
          (<["plot" := VBool false]>
          (<["moments" := VInts [4%Z]]>
          (<["degree" := VInt 12]>
          (<["mdegree" := VInt 0]>
          (<["reddening" := VNone]>
          (<["clean" := VBool false]>
          (<["bounds" := VFloats3 bounds]>
          (<["velscale" := VInt velscale]> ∅)))))))))
  else None.

(** The [velscale] entry of [**kwargs] binds the parameter of that name. *)
Definition kw_velscale (kwargs : gmap string pyval) : option Z :=
  match kwargs !! "velscale" with
  | Some (VInt z) => Some z
  | _ => None
  end.

Definition templates_path (velscale w1 w2 : Z) (sampling : string)
  : string * string :=
  (join context_home "templates",
   "emiles_wifis_vel" ++ pretty velscale ++ "_w" ++ pretty w1 ++ "_"
   ++ pretty w2 ++ "_" ++ sampling ++ ".fits").

Definition run_stellar_populations (targetSN w1 w2 : Z) (sampling : string)
  (velscale : option Z) (redo : bool) (ncomp : Z) : M unit :=
  let* vs := lift (of_option TypeError velscale) in
  let tempfile := templates_path vs w1 w2 sampling in
  let kwargs := stellar_kwargs ncomp vs in
  let galaxy_dir := context_data_dir in
  let* kwargs := lift (of_option UnboundLocalError kwargs) in
  let* _ := run_ppxf galaxy_dir w1 w2 targetSN tempfile (kw_velscale kwargs)
                     redo 1 false (delete "velscale" kwargs) in
  make_table galaxy_dir w1 w2 targetSN velscale true.

End StellarPopulations.

(* ===================================================================== *)
(** ** Template subsampling ([select_templates], WGS/pipeline.py) *)
(* ===================================================================== *)

(** [np.hstack] of a list of arrays: at least one array is needed. *)
Definition hstack (arrays : list (list nat)) : result (list nat) :=
  match arrays with
  | [] => Raise ValueError
  | _ => Ok (concat arrays)
  end.

(** The loop of lines 45-47: the [idx] column of each weights table. *)
Fixpoint read_indices (ppdir : string) (wfiles : list string)
  : M (list (list nat)) :=
  match wfiles with
  | [] => ret []
  | fname :: rest =>
      let* f := read_file ppdir fname in
      let* idx := lift (match f with
                        | Weights idx => Ok idx
                        | _ => Raise IOError
                        end) in
      let* more := read_indices ppdir rest in
      ret (idx :: more)
  end.

(** A file path [dir/name]; [".fits"] is replaced in the whole path. *)
Definition subsample_path (templates_file : string * string)
  : string * string :=
  (replace templates_file.1 ".fits" "_subsample.fits",
   replace templates_file.2 ".fits" "_subsample.fits").

Definition select_templates (templates_file : string * string)
  (ppdir : string) (redo : bool) : M (string * string) :=
  let outfile := subsample_path templates_file in
  let* present := file_exists outfile.1 outfile.2 in
  if present && negb redo then ret outfile
  else
    let* entries := listdir ppdir in
    let wfiles := filter (fun n => Is_true (endswith n "weights.fits"))
                         entries in
    let* idx := read_indices ppdir wfiles in
    let* idx := lift (hstack idx) in
    let idx := np_unique idx in
    let* f := read_file templates_file.1 templates_file.2 in
    let* bank := lift (match f with
                       | SspTemplates b => Ok b
                       | _ => Raise IOError
                       end) in
    let* new_templates := lift (take_idx (sb_ssps bank) idx) in
    let* newparams := lift (take_idx (sb_params bank) idx) in
    let* _ := write_file outfile.1 outfile.2
                (SspTemplates (SspBank new_templates newparams
                                       (sb_logwave bank) (length idx))) in
    ret outfile.

(* ===================================================================== *)
(** ** Reference collaborators *)
(* ===================================================================== *)

(** Straightforward executable stand-ins for the third-party functions, used
    to run the code above on concrete inputs. *)
Module Reference.

Definition dot (a b : list float) : float :=
  fold_left F64.add (zip_with F64.mul a b) F64.zero.

Fixpoint insert_float (x : float) (l : list float) : list float :=
  match l with
  | [] => [x]
  | y :: l' => if F64.leb x y then x :: l else y :: insert_float x l'
  end.

Definition not_nan (x : float) : bool := negb (F64.is_nan x).

Definition sort_floats (l : list float) : list float :=
  foldr insert_float [] l.

Definition two : float := F64.of_Z 2.

(** The median of the values that are not NaN. *)
Definition median (l : list float) : float :=
  let s := sort_floats (List.filter not_nan l) in
  let n := length s in
  if (n =? 0)%nat then F64.nan
  else if Nat.even n
       then F64.div (F64.add (nth (n / 2 - 1) s F64.nan) (nth (n / 2) s F64.nan))
                    two
       else nth (n / 2) s F64.nan.

Definition mean (l : list float) : float :=
  F64.div (fold_left F64.add l F64.zero) (F64.of_Z (Z.of_nat (length l))).

(** The standard deviation of the values that are not NaN. *)
Definition std (l : list float) : float :=
  let l := List.filter not_nan l in
  let m := mean l in
  SFsqrt F64.prec F64.emax
         (mean (map (fun x => F64.mul (F64.sub x m) (F64.sub x m)) l)).

Definition clip_once (sigma : Z) (l : list float) : list float :=
  let m := median l in
  let s := std l in
  List.filter (fun x => F64.leb (SFabs (F64.sub x m))
                                (F64.mul (F64.of_Z sigma) s)) l.

Definition clip (sigma : Z) (l : list float) : list float :=
  Nat.iter 5 (clip_once sigma) l.

(** A grid of as many points as the spectrum, starting at [w0], one unit
    apart. *)
Definition rebin (w0 w1 : float) (spec : list float) (velscale : Z)
  : result (list float * list float * float) :=
  Ok (spec,
      map (fun i => F64.add w0 (F64.of_Z (Z.of_nat i))) (seq 0 (length spec)),
      F64.of_Z velscale).

Definition kw_indices (kwargs : gmap string pyval) : list nat :=
  match kwargs !! "goodpixels" with
  | Some (VIndices a) => a
  | _ => []
  end.

Definition kw_floats (key : string) (kwargs : gmap string pyval)
  : list float :=
  match kwargs !! key with
  | Some (VFloats a) => a
  | _ => []
  end.

(** A fitter that gives every template the weight one half and no
    polynomial; it fails on an empty spectrum. *)
Definition fit (c : fit_call) : result ppxf_obj :=
  match fc_galaxy c with
  | [] => Raise FitError
  | _ =>
      let npix := length (fc_galaxy c) in
      let row i := map (fun t => nth i t F64.zero) (fc_templates c) in
      let matrix := map row (seq 0 npix) in
      let weights := map (fun _ => F64.div F64.one two) (fc_templates c) in
      let bestfit := map (fun r => dot r weights) matrix in
      let kin := [F64.zero; F64.one; F64.zero; F64.zero] in
      Ok (PpxfObj matrix (-1) 0 weights None None None (fc_galaxy c)
                  (kw_floats "lam" (fc_kwargs c)) bestfit (fc_noise c)
                  (kw_indices (fc_kwargs c)) 1 [kin] [kin] F64.one)
  end.

Definition light_speed : float := S754_finite false 5150395210789814 (-34).

#[export] Instance external : External := {|
  to_angstrom := fun x => F64.mul x (F64.of_Z 10000);
  c_kms := light_speed;
  np_exp := fun x => x;
  log_rebin := rebin;
  ppxf := fit;
  np_dot := dot;
  legval := fun x c => map (fun _ => F64.one) x;
  linspace := fun a b n => replicate n a;
  reddening_cal00 := fun lam r => map (fun _ => F64.one) lam;
  nanmedian := median;
  sigma_clip := clip;
  nanstd := std;
  context_home := "/home";
  context_data_dir := "/data";
  context_vsyst := F64.zero
|}.

End Reference.

(* ===================================================================== *)
(** ** Vocabulary of the statements *)
(* ===================================================================== *)

(** Selection by a boolean mask: [a[mask]]. *)
Fixpoint keep {A} (mask : list bool) (a : list A) : list A :=
  match mask, a with
  | b :: mask', x :: a' => if b then x :: keep mask' a' else keep mask' a'
  | _, _ => []
  end.

(** A non-negative number (in particular, not a NaN). *)
Definition nonneg (x : float) : Prop := F64.leb F64.zero x = true.

Definition nonzero (x : float) : Prop := F64.eq0 x = false.

(** [m] is the largest of the non-zero entries of [a]. *)
Definition max_nonzero (m : float) (a : list float) : Prop :=
  In m a /\ nonzero m /\ forall x, In x a -> F64.leb x m = true.

(** The closed exclusion window [line - 15, line + 15]. *)
Definition in_window (line : Z) (x : float) : bool :=
  F64.leb (F64.of_Z (line - 15)) x && F64.leb x (F64.of_Z (line + 15)).

(** One row of the design matrix, cut into its four column groups. *)
Record row_blocks : Type := RowBlocks {
  rb_poly : list float;
  rb_stars : list float;
  rb_gas : list float;
  rb_sky : list float
}.

Definition row_of (r : row_blocks) : list float :=
  (rb_poly r ++ rb_stars r ++ rb_gas r ++ rb_sky r)%list.

(** The fit result has the fixed column order: [degree + 1] polynomial
    columns, [ntemplates] stellar columns, [ngas] gas columns, then the sky
    columns, with one weight for each template column in the same order and
    one polynomial weight for each polynomial column. *)
Definition fixed_column_order (pp : ppxf_obj) (ntemplates ngas : nat)
  (rows : list row_blocks) (ws wg wk : list float) : Prop :=
  pp_matrix pp = map row_of rows
  /\ Forall (fun r => Z.of_nat (length (rb_poly r)) = pp_degree pp + 1
                      /\ length (rb_stars r) = ntemplates
                      /\ length (rb_gas r) = ngas
                      /\ length (rb_sky r) = length wk) rows
  /\ pp_weights pp = (ws ++ wg ++ wk)%list
  /\ length ws = ntemplates /\ length wg = ngas
  /\ (forall pw, pp_polyweights pp = Some pw ->
                 Z.of_nat (length pw) = pp_degree pp + 1).

(** A number other than zero: finite and non-zero, or infinite. *)
Definition nonzero_number (x : float) : bool :=
  match x with
  | S754_finite _ _ _ | S754_infinity _ => true
  | _ => false
  end.

Definition sign_bit (x : float) : bool :=
  match x with
  | S754_zero s | S754_infinity s | S754_finite s _ _ => s
  | S754_nan => false
  end.

Section OrchestratorVocabulary.
Context `{External}.

(** The keyword dictionary after lines 232, 244 and 246. *)
Definition fit_kwargs (p : prepared) (kwargs : gmap string pyval)
  : gmap string pyval :=
  <["vsyst" := VFloat (p_dv p)]>
    (<["goodpixels" := VIndices (p_goodpixels p)]>
       (<["lam" := VFloats (p_lam p)]> kwargs)).

(** The invocations of the fitter that processing [fname] leads to: one when
    the table is read, prepared and the template matrix is bound, none
    otherwise. *)
Definition fitter_calls (b : batch) (fname : string)
  (kwargs : gmap string pyval) (w : world) : list fit_call :=
  match lookup_file w (cwd w) fname with
  | Some (FitsTable data) =>
      match prepare (b_logwave_temp b) (b_wave_temp b) (b_velscale b) data,
            b_templates b with
      | Ok p, Some t =>
          [FitCall t (p_galaxy p) (p_noise p) (b_velscale b)
                   (fit_kwargs p kwargs)]
      | _, _ => []
      end
  | _ => []
  end.

End OrchestratorVocabulary.

(* ===================================================================== *)
(** ** A small batch *)
(* ===================================================================== *)

(** A template file of two stellar and one gas template, a spectrum that
    fits, and a spectrum whose flux is zero throughout. *)
Module Scenario.

Definition z (n : Z) : float := F64.of_Z n.

(** [n * 1e-4]: a wavelength of [n] angstrom, in micrometer. *)
Definition um (n : Z) : float := F64.div (z n) (z 10000).

Definition bank : template_bank :=
  TemplateBank [[z 1; z 1; z 1; z 1]; [z 2; z 2; z 2; z 2]]
               [[z 3; z 3; z 3; z 3]]
               [z 0; z 1; z 2; z 3; z 4; z 5; z 6; z 7; z 8; z 9].

Definition good : spectrum :=
  Spectrum [um 1; um 2; um 3; um 4; um 5; um 6]
           [z 0; z 1; z 4; z 2; z 3; z 0]
           [z 1; z 0; z 3; z 4; z 5; z 6].

Definition dark : spectrum :=
  Spectrum [um 1; um 2; um 3] [z 0; z 0; z 0] [z 1; z 1; z 1].

Definition tempfile : string * string := ("/templates", "bank.fits").
Definition data_dir : string := "/data/molecfited_sn40".
Definition logdir : string := "/data/molecfited_sn40/ppxf_vel20_w8500_13500_sn40".

Definition world_of (spectra : gmap string file) : world :=
  World (<[data_dir := spectra]>
         (<["/templates" := {["bank.fits" := Templates bank]}]>
         (<["/data" := ∅]> {["/" := ∅]})))
        "/" [].

(** The batch [a.fits] (dark), [b.fits] (good). *)
Definition dark_then_good : world :=
  world_of (<["a.fits" := FitsTable dark]> {["b.fits" := FitsTable good]}).

(** The batch [b.fits] alone. *)
Definition good_alone : world := world_of {["b.fits" := FitsTable good]}.

(** [run_ppxf] on this batch with one component. *)
Definition run (redo : bool) : M unit :=
  @run_ppxf Reference.external "/data" 8500 13500 40 tempfile (Some 20%Z)
            redo 1 false ∅.

(** The batch data and the world that [run_ppxf] reaches before its loop:
    the output directory is created and entered is the data directory. *)
Definition batch_data : batch :=
  Batch (tb_loglam bank) (tb_loglam bank) (Some (tb_stars bank)) 2 1 20 logdir.

Definition kwargs0 : gmap string pyval :=
  {["component" := VInts [0%Z; 0%Z]]}.

Definition entered (w : world) : world :=
  World (<[logdir := ∅]> (fs w)) data_dir [].

(** The same spectrum, with the template file where
    [run_stellar_populations] looks for it. *)
Definition survey : world :=
  World (<[data_dir := {["b.fits" := FitsTable good]}]>
         (<["/home/templates" :=
              {["emiles_wifis_vel20_w8500_13500_kinematics.fits"
                := Templates bank]}]>
         (<["/data" := ∅]> {["/" := ∅]})))
        "/" [].

Definition populations (ncomp : Z) : M unit :=
  @run_stellar_populations Reference.external 40 8500 13500 "kinematics"
                           (Some 20%Z) false ncomp.

End Scenario.

(** A bank of fifty templates, and a directory of two fits that used the
    templates 7 and 3, and 12 and 3. *)
Module Subsample.

Definition row (offset : Z) (i : nat) : list float :=
  [F64.of_Z (offset + Z.of_nat i)].

Definition bank : ssp_bank :=
  SspBank (map (row 0) (seq 0 50)) (map (row 100) (seq 0 50))
          [F64.of_Z 1; F64.of_Z 2] 50.

Definition fits : gmap string file :=
  <["spec_0001_weights.fits" := Weights [7; 3]%nat]>
    (<["spec_0002_weights.fits" := Weights [12; 3]%nat]>
       {["spec_0001.png" := Image "SPEC 0001"]}).

Definition start : world :=
  World (<["/out" := {["emiles.fits" := SspTemplates bank]}]>
         {["/out/ppxf_sn40" := fits]})
        "/" [].

Definition select : M (string * string) :=
  select_templates ("/out", "emiles.fits") "/out/ppxf_sn40" false.

(** The same directory when an earlier run, whose fits used only the
    template 1, has left its reduced bank behind. *)
Definition earlier : ssp_bank :=
  SspBank [row 0 1] [row 100 1] [F64.of_Z 1; F64.of_Z 2] 1.

Definition rerun : world :=
  World (<["/out" := <["emiles_subsample.fits" := SspTemplates earlier]>
                       {["emiles.fits" := SspTemplates bank]}]>
         {["/out/ppxf_sn40" := fits]})
        "/" [].

(** A directory in which no fit has been saved yet. *)
Definition unfitted : world :=
  World (<["/out" := {["emiles.fits" := SspTemplates bank]}]>
         {["/out/ppxf_sn40" := {["spec_0001.png" := Image "SPEC 0001"]}]})
        "/" [].

End Subsample.

(* ===================================================================== *)
(** ** Parameter caller ([CvDCaller], stpop/run_paintbox_elliot.py) *)
(* ===================================================================== *)

Module Paintbox.

(** [list(dict.fromkeys(names))]: the distinct names, in the order in which
    each occurs first. *)
Definition fromkeys (names : list string) : list string :=
  fold_left (fun keys n => if bool_decide (n ∈ keys) then keys
                           else (keys ++ [n])%list) names [].

(** [np.where(np.array(names) == param)[0]] *)
Definition where_name (names : list string) (param : string) : list nat :=
  np_where (map (fun n => String.eqb n param) names).

(** The attributes set by [__init__]. *)
Record caller : Type := Caller {
  sed_parnames : list string;
  parnames : list string;
  nparams : nat;
  shape : nat;
  idxs : gmap string (list nat)
}.

(** [CvDCaller.__init__], lines 36-44. *)
Definition init (names : list string) : caller :=
  let parnames := fromkeys names in
  Caller names parnames (length parnames) (length names)
         (fold_left (fun idxs param => <[param := where_name names param]> idxs)
                    parnames ∅).

(** [t[idx] = val] for an array [idx] of positions; a position past the end
    raises [IndexError]. *)
Definition set_at (idx : list nat) (val : float) (t : list float)
  : result (list float) :=
  if forallb (fun i => (i <? length t)%nat) idx
  then Ok (fold_left (fun t i => <[i := val]> t) idx t)
  else Raise IndexError.

(** The loop of lines 48-49 over the pairs of [zip(self.parnames, theta)]. *)
Fixpoint fill (c : caller) (pairs : list (string * float)) (t : list float)
  : result (list float) :=
  match pairs with
  | [] => Ok t
  | (param, val) :: rest =>
      idx ← of_option KeyError (idxs c !! param);
      t ← set_at idx val t;
      fill c rest t
  end.

(** Lines 47-49: the vector handed to the wrapped model. *)
Definition expand (c : caller) (theta : list float) : result (list float) :=
  fill c (zip (parnames c) theta) (replicate (shape c) F64.zero).

(** [CvDCaller.__call__]: the wrapped model [sed] on the expanded vector. *)
Definition call {A} (sed : list float -> A) (c : caller) (theta : list float)
  : result A :=
  t ← expand c theta;
  Ok (sed t).

End Paintbox.

(* ===================================================================== *)
(** ** Rebinning of the standard star ([rebinstd], WGS/stdphot.py) *)
(* ===================================================================== *)

Module Stdphot.

(** The exceptions of [rebinstd]: those of [exn], and [OverflowError], which
    [int] raises on an infinite float. *)
Inductive error : Set :=
| Exn (e : exn)
| OverflowError.

Inductive res (A : Type) : Type :=
| Done (a : A)
| Fail (e : error).
Arguments Done {A} a.
Arguments Fail {A} e.

#[global] Instance res_ret : MRet res := fun A a => Done a.
#[global] Instance res_bind : MBind res :=
  fun A B k r => match r with Done a => k a | Fail e => Fail e end.

Definition of_result {A} (r : result A) : res A :=
  match r with
  | Ok a => Done a
  | Raise e => Fail (Exn e)
  end.

(** [int(x)] of a float: the integer part, towards zero. *)
Definition int (x : float) : res Z :=
  match x with
  | S754_zero _ => Done 0%Z
  | S754_finite s m e =>
      let v := Z.shiftl (Z.pos m) e in
      Done (if s then (- v)%Z else v)
  | S754_infinity _ => Fail OverflowError
  | S754_nan => Fail (Exn ValueError)
  end.

(** [np.diff(wave)[0]] *)
Definition np_diff_first (wave : list float) : res float :=
  match wave with
  | w0 :: w1 :: _ => Done (F64.sub w1 w0)
  | _ => Fail (Exn IndexError)
  end.

(** [np.arange(1, n)] *)
Definition arange1 (n : Z) : list Z :=
  map Z.of_nat (seq 1 (Z.to_nat (n - 1)%Z)).

(** [np.zeros(n)]: a negative dimension raises [ValueError]. *)
Definition np_zeros (n : Z) : res (list float) :=
  if (n <? 0)%Z then Fail (Exn ValueError)
  else Done (replicate (Z.to_nat n) F64.zero).

(** The three arrays handed from one step to the next: wavelength, flux
    and uncertainty. *)
Definition arrays3 : Type := list float * list float * list float.

(** Lines 79-84: the grid is extended to the left when it starts at or
    after the reference. *)
Definition pad_before (refwave : list float) (dw : float) (a : arrays3)
  : res arrays3 :=
  let '(wave, flux, fluxerr) := a in
  w0 ← of_result (first wave);
  r0 ← of_result (first refwave);
  if F64.leb r0 w0 then
    k ← int (F64.div (F64.sub w0 r0) dw);
    let nbins := (k + 5)%Z in
    let extrawave :=
      map (fun i => F64.sub w0 (F64.mul (F64.of_Z i) dw))
          (rev (arange1 nbins)) in
    z ← np_zeros nbins;
    Done ((extrawave ++ wave)%list, (z ++ flux)%list, (z ++ fluxerr)%list)
  else Done a.

(** Lines 85-90: the grid is extended to the right when it starts at or
    before the reference. *)
Definition pad_after (refwave : list float) (dw : float) (a : arrays3)
  : res arrays3 :=
  let '(wave, flux, fluxerr) := a in
  w0 ← of_result (first wave);
  r0 ← of_result (first refwave);
  if F64.leb w0 r0 then
    rl ← of_result (last_elem refwave);
    wl ← of_result (last_elem wave);
    k ← int (F64.div (F64.sub rl wl) dw);
    let nbins := (k + 5)%Z in
    let extrawave :=
      map (fun i => F64.add wl (F64.mul (F64.of_Z i) dw)) (arange1 nbins) in
    z ← np_zeros nbins;
    Done ((wave ++ extrawave)%list, (flux ++ z)%list, (fluxerr ++ z)%list)
  else Done a.

(** Lines 71-90 of [rebinstd]: from the columns of the two tables to the
    arrays that are resampled onto the reference wavelengths. *)
Definition rebin_arrays (refwave wave flux fluxerr : list float)
  : res arrays3 :=
  let flux := map (fun x => if F64.is_nan x then F64.zero else x) flux in
  dw ← np_diff_first wave;
  a ← pad_before refwave dw (wave, flux, fluxerr);
  pad_after refwave dw a.

(** By how many samples the flux is longer than the wavelengths. *)
Definition excess (a : arrays3) : Z :=
  (Z.of_nat (length a.1.2) - Z.of_nat (length a.1.1))%Z.

Definition nan_free (a : arrays3) : Prop :=
  Forall (fun x => F64.is_nan x = false) a.1.2.

End Stdphot.

(** A spectrum whose only non-zero uncertainties sit on its two samples of
    zero flux. *)
Module Noise.

Definition faint : spectrum :=
  Spectrum [Scenario.um 1; Scenario.um 2; Scenario.um 3; Scenario.um 4;
            Scenario.um 5; Scenario.um 6]
           [Scenario.z 0; Scenario.z 1; Scenario.z 4; Scenario.z 2;
            Scenario.z 3; Scenario.z 0]
           [Scenario.z 7; Scenario.z 0; Scenario.z 0; Scenario.z 0;
            Scenario.z 0; Scenario.z 6].

Definition batch : world :=
  Scenario.world_of {["b.fits" := FitsTable faint]}.

End Noise.

(* ===================================================================== *)
(** ** Vocabulary of the further statements *)
(* ===================================================================== *)

(** The character [.] (code 46). *)
Definition dot : Ascii.ascii :=
  Ascii.Ascii false true true true false true false false.

(** The character [c] occurs in [s]. *)
Fixpoint has_char (c : Ascii.ascii) (s : string) : bool :=
  match s with
  | EmptyString => false
  | String d s' => Ascii.eqb c d || has_char c s'
  end.

(* ===================================================================== *)
(** * Properties *)
(* ===================================================================== *)

(** ** Order of binary64 numbers *)

Lemma SFcompare_antisym (a b : float) :
  SFcompare a b = option_map CompOpp (SFcompare b a).
Proof.
  destruct a as [sa|sa| |sa ma ea], b as [sb|sb| |sb mb eb]; simpl;
    try destruct sa; try destruct sb; try reflexivity.
  - rewrite (Z.compare_antisym ea eb).
    destruct (ea ?= eb)%Z; simpl; try reflexivity.
    change (Pcompare ma mb Eq) with (ma ?= mb)%positive.
    change (Pcompare mb ma Eq) with (mb ?= ma)%positive.
    rewrite (Pos.compare_antisym ma mb). now destruct (ma ?= mb)%positive.
  - rewrite (Z.compare_antisym ea eb).
    destruct (ea ?= eb)%Z; simpl; try reflexivity.
    change (Pcompare ma mb Eq) with (ma ?= mb)%positive.
    change (Pcompare mb ma Eq) with (mb ?= ma)%positive.
    rewrite (Pos.compare_antisym ma mb). now destruct (ma ?= mb)%positive.
Qed.

Lemma SFcompare_not_nan (a b : float) :
  F64.is_nan a = false -> F64.is_nan b = false ->
  exists c, SFcompare a b = Some c.
Proof.
  destruct a as [sa|sa| |sa ma ea], b as [sb|sb| |sb mb eb]; simpl;
    intros; try discriminate; eauto.
Qed.

Lemma ltb_negb_leb (a b : float) :
  F64.is_nan a = false -> F64.is_nan b = false ->
  F64.ltb a b = negb (F64.leb b a).
Proof.
  intros Ha Hb. unfold F64.ltb, F64.leb, SFltb, SFleb.
  rewrite (SFcompare_antisym b a).
  destruct (SFcompare_not_nan a b Ha Hb) as [c ->]. now destruct c.
Qed.

Lemma leb_not_nan (a b : float) :
  F64.leb a b = true -> F64.is_nan a = false /\ F64.is_nan b = false.
Proof.
  unfold F64.leb, SFleb.
  destruct a as [sa|sa| |sa ma ea], b as [sb|sb| |sb mb eb]; simpl;
    intros; try discriminate; auto.
Qed.

(** The comparison as an order on keys: sign class, then magnitude. *)
Lemma leb_trans (a b c : float) :
  F64.leb a b = true -> F64.leb b c = true -> F64.leb a c = true.
Proof.
  unfold F64.leb, SFleb.
  destruct a as [sa|sa| |sa ma ea], b as [sb|sb| |sb mb eb],
           c as [sc|sc| |sc mc ec]; simpl;
    try destruct sa; try destruct sb; try destruct sc; simpl;
    try reflexivity; try discriminate; intros Hab Hbc.
  - destruct (Z.compare_spec ea eb), (Z.compare_spec eb ec);
      try discriminate; subst.
    + rewrite Z.compare_refl.
      change (Pcompare ma mc Eq) with (ma ?= mc)%positive.
      change (Pcompare ma mb Eq) with (ma ?= mb)%positive in Hab.
      change (Pcompare mb mc Eq) with (mb ?= mc)%positive in Hbc.
      destruct (Pos.compare_spec ma mb), (Pos.compare_spec mb mc),
        (Pos.compare_spec ma mc); simpl in *; try discriminate;
        try reflexivity; lia.
    + destruct (Z.compare_spec eb ec); try reflexivity; lia.
    + destruct (Z.compare_spec ea ec); try reflexivity; lia.
    + destruct (Z.compare_spec ea ec); try reflexivity; lia.
  - destruct (Z.compare_spec ea eb), (Z.compare_spec eb ec);
      try discriminate; subst.
    + rewrite Z.compare_refl.
      change (Pcompare ma mc Eq) with (ma ?= mc)%positive.
      change (Pcompare ma mb Eq) with (ma ?= mb)%positive in Hab.
      change (Pcompare mb mc Eq) with (mb ?= mc)%positive in Hbc.
      destruct (Pos.compare_spec ma mb), (Pos.compare_spec mb mc),
        (Pos.compare_spec ma mc); simpl in *; try discriminate;
        try reflexivity; lia.
    + destruct (Z.compare_spec eb ec); try reflexivity; lia.
    + destruct (Z.compare_spec ea ec); try reflexivity; lia.
    + destruct (Z.compare_spec ea ec); try reflexivity; lia.
Qed.

Lemma leb_refl (a : float) : F64.is_nan a = false -> F64.leb a a = true.
Proof.
  unfold F64.leb, SFleb.
  destruct a as [sa|sa| |sa ma ea]; simpl; try destruct sa; try reflexivity;
    try discriminate; intros _; rewrite Z.compare_refl;
    change (Pcompare ma ma Eq) with (ma ?= ma)%positive;
    now rewrite Pos.compare_refl.
Qed.

Lemma ltb_leb (a b : float) : F64.ltb a b = true -> F64.leb a b = true.
Proof.
  unfold F64.ltb, F64.leb, SFltb, SFleb.
  destruct (SFcompare a b) as [[]|]; auto.
Qed.

Lemma eq0_zero (x : float) : F64.eq0 x = true <-> exists s, x = S754_zero s.
Proof.
  unfold F64.eq0, F64.eqb, SFeqb, F64.zero.
  destruct x as [s|s| |s m e]; simpl; try destruct s; split;
    try discriminate; eauto; intros [? ?]; discriminate.
Qed.

Lemma nonneg_not_nan (x : float) : nonneg x -> F64.is_nan x = false.
Proof. intros Hx. now apply leb_not_nan in Hx. Qed.

(** Between zero and a zero there are only zeros. *)
Lemma squeezed_zero (x m : float) :
  nonneg x -> F64.leb x m = true -> F64.eq0 m = true -> F64.eq0 x = true.
Proof.
  intros Hx Hxm Hm. apply eq0_zero in Hm as [s ->]. revert Hx Hxm.
  unfold nonneg, F64.leb, SFleb, F64.zero, F64.eq0, F64.eqb, SFeqb.
  destruct x as [sx|sx| |sx mx ex]; simpl; try destruct sx; auto.
Qed.

(** ** Arrays *)

Lemma take_idx_where_from {A} (mask : list bool) :
  forall (pre a : list A),
    (length mask <= length a)%nat ->
    take_idx (pre ++ a)%list (np_where_from (length pre) mask)
    = Ok (keep mask a).
Proof.
  induction mask as [|b mask IH]; intros pre a Hlen; [reflexivity|].
  destruct a as [|x a]; simpl in Hlen; [lia|].
  assert (Hnext : take_idx (pre ++ x :: a)%list
                    (np_where_from (S (length pre)) mask) = Ok (keep mask a)).
  { replace (pre ++ x :: a)%list with ((pre ++ [x]) ++ a)%list
      by now rewrite <- app_assoc.
    replace (S (length pre)) with (length (pre ++ [x])%list)
      by (rewrite length_app; simpl; lia).
    apply IH. lia. }
  simpl. destruct b; [|exact Hnext].
  simpl. rewrite lookup_app_r by lia.
  replace (length pre - length pre)%nat with 0%nat by lia. simpl.
  now rewrite Hnext.
Qed.

Lemma take_idx_where {A} (mask : list bool) (a : list A) :
  (length mask <= length a)%nat ->
  take_idx a (np_where mask) = Ok (keep mask a).
Proof. intros Hlen. exact (take_idx_where_from mask [] a Hlen). Qed.

Lemma keep_map_filter {A} (f : A -> bool) (a : list A) :
  keep (map f a) a = List.filter f a.
Proof.
  induction a as [|x a IH]; [reflexivity|]. simpl.
  destruct (f x); now rewrite IH.
Qed.

Lemma keep_In {A} (mask : list bool) (a : list A) (x : A) :
  In x (keep mask a) -> In x a.
Proof.
  revert a. induction mask as [|b mask IH]; intros [|y a]; simpl; try tauto.
  destruct b; simpl; intros; intuition.
Qed.

(** ** The loader *)

Lemma remove_zeros_keep (s : spectrum) :
  length (WAVE s) = length (FLUX s) ->
  length (FLUX_ERR s) = length (FLUX s) ->
  remove_zeros s
  = Ok (Spectrum (keep (map F64.ne0 (FLUX s)) (WAVE s))
                 (List.filter F64.ne0 (FLUX s))
                 (keep (map F64.ne0 (FLUX s)) (FLUX_ERR s))).
Proof.
  intros Hw He. unfold remove_zeros.
  rewrite !take_idx_where by (rewrite length_map; lia).
  now rewrite keep_map_filter.
Qed.

(** No sample with zero flux survives lines 211-215, wherever it lies. *)
Lemma remove_zeros_filters (s : spectrum) :
  length (WAVE s) = length (FLUX s) ->
  length (FLUX_ERR s) = length (FLUX s) ->
  exists s', remove_zeros s = Ok s'
             /\ FLUX s' = List.filter F64.ne0 (FLUX s)
             /\ Forall (fun x => F64.ne0 x = true) (FLUX s').
Proof.
  intros Hw He. eexists. split; [now apply remove_zeros_keep|].
  simpl. split; [reflexivity|].
  apply List.Forall_forall. intros x Hx. now apply List.filter_In in Hx.
Qed.

(** C2 (the code at the failing input): a spectrum whose flux is
    [0, 1, 0, 2, 0] has one interior sample of zero flux, at wavelength 3.
    Lines 211-215 keep the samples at wavelengths 2 and 4 only: the interior
    zero is removed together with the two border zeros, where the claim has
    every interior sample retained. *)
Theorem interior_zero_flux_is_dropped :
  let z := F64.of_Z in
  remove_zeros (Spectrum [z 1; z 2; z 3; z 4; z 5] [z 0; z 1; z 0; z 2; z 0]
                         [z 1; z 1; z 1; z 1; z 1])
  = Ok (Spectrum [z 2; z 4] [z 1; z 2] [z 1; z 1]).
Proof. vm_compute. reflexivity. Qed.

(** ** Zero uncertainties *)

Lemma max2_spec (x y : float) :
  F64.is_nan x = false -> F64.is_nan y = false ->
  (F64.max2 x y = x \/ F64.max2 x y = y)
  /\ F64.leb x (F64.max2 x y) = true /\ F64.leb y (F64.max2 x y) = true.
Proof.
  intros Hx Hy. unfold F64.max2. rewrite Hx, Hy.
  destruct (F64.ltb x y) eqn:Hlt.
  - split; [now right|]. split; [now apply ltb_leb | now apply leb_refl].
  - split; [now left|]. split; [now apply leb_refl|].
    rewrite (ltb_negb_leb x y Hx Hy) in Hlt.
    now destruct (F64.leb y x).
Qed.

Lemma fold_max2_spec (a : list float) :
  forall x,
    F64.is_nan x = false -> Forall (fun y => F64.is_nan y = false) a ->
    let m := fold_left F64.max2 a x in
    In m (x :: a) /\ forall y, In y (x :: a) -> F64.leb y m = true.
Proof.
  induction a as [|y a IH]; intros x Hx Ha; simpl.
  - split; [now left|]. intros y [<-|[]]. now apply leb_refl.
  - apply Forall_cons in Ha as [Hy Ha].
    destruct (max2_spec x y Hx Hy) as (Hsel & Hxm & Hym).
    assert (Hm : F64.is_nan (F64.max2 x y) = false)
      by (destruct Hsel as [-> | ->]; assumption).
    destruct (IH (F64.max2 x y) Hm Ha) as (Hin & Hub). simpl in Hin, Hub.
    split.
    + destruct Hin as [Hin|Hin]; [|now right; right].
      rewrite <- Hin. destruct Hsel as [-> | ->]; [now left | now right; left].
    + intros t [<-|[<-|Ht]].
      * eapply leb_trans; [exact Hxm|]. apply Hub. now left.
      * eapply leb_trans; [exact Hym|]. apply Hub. now left.
      * apply Hub. now right.
Qed.

Lemma np_max_spec (a : list float) :
  Forall nonneg a -> Exists nonzero a ->
  exists m, np_max a = Ok m /\ max_nonzero m a.
Proof.
  intros Hnn Hnz.
  assert (Hnan : Forall (fun y => F64.is_nan y = false) a).
  { eapply Forall_impl; [exact Hnn|]. intros x. apply nonneg_not_nan. }
  destruct a as [|x a]; [now apply Exists_nil in Hnz|].
  apply Forall_cons in Hnan as [Hx Ha].
  destruct (fold_max2_spec a x Hx Ha) as (Hin & Hub).
  exists (fold_left F64.max2 a x). split; [reflexivity|].
  split; [exact Hin|]. split; [|exact Hub].
  apply List.Exists_exists in Hnz as (y & Hy & Hynz).
  unfold nonzero in *. destruct (F64.eq0 (fold_left F64.max2 a x)) eqn:Hm;
    [|reflexivity].
  rewrite <- Hynz. symmetry.
  apply (squeezed_zero y (fold_left F64.max2 a x)); [|now apply Hub|exact Hm].
  rewrite List.Forall_forall in Hnn. now apply Hnn.
Qed.

Lemma filter_all {A} (f : A -> bool) (a : list A) :
  Forall (fun x => f x = true) a -> List.filter f a = a.
Proof.
  induction 1 as [|x a Hx _ IH]; simpl; [reflexivity|].
  now rewrite Hx, IH.
Qed.

(** On a column without NaN nothing is masked. *)
Lemma column_max_no_nan (a : list float) :
  Forall (fun y => F64.is_nan y = false) a -> column_max a = np_max a.
Proof.
  intros Hnan. unfold column_max, np_max.
  rewrite filter_all; [now destruct a|].
  eapply Forall_impl; [exact Hnan|]. intros x Hx. now rewrite Hx.
Qed.

Lemma fix_zero_errors_spec (e : list float) :
  Forall nonneg e -> Exists nonzero e ->
  exists m e',
    fix_zero_errors e = Ok e' /\ max_nonzero m e
    /\ length e' = length e
    /\ (forall i x, e !! i = Some x ->
                    e' !! i = Some (if F64.eq0 x then m else x))
    /\ Forall nonzero e'.
Proof.
  intros Hnn Hnz. destruct (np_max_spec e Hnn Hnz) as (m & Hmax & Hm).
  exists m, (set_where_zero m e). unfold fix_zero_errors.
  rewrite column_max_no_nan, Hmax
    by (eapply Forall_impl; [exact Hnn|]; intros x; apply nonneg_not_nan).
  split; [reflexivity|]. split; [exact Hm|]. unfold set_where_zero.
  split; [now rewrite length_map|]. split.
  - intros i x Hi. now rewrite list_lookup_fmap, Hi.
  - apply List.Forall_forall. intros y Hy. apply List.in_map_iff in Hy as (x & <- & _).
    destruct (F64.eq0 x) eqn:Hx; [apply Hm | exact Hx].
Qed.

Lemma trim_keeps_errors (wave_temp : list float) (s s2 : spectrum) :
  trim_to_templates wave_temp s = Ok s2 ->
  forall x, In x (FLUX_ERR s2) -> In x (FLUX_ERR s).
Proof.
  unfold trim_to_templates.
  destruct (first wave_temp) as [lo|]; [|discriminate].
  destruct (last_elem wave_temp) as [hi|]; [|discriminate]. simpl.
  set (idx := np_where _).
  destruct (take_idx (WAVE s) idx) as [w|]; [|discriminate].
  destruct (take_idx (FLUX s) idx) as [f|]; [|discriminate]. simpl.
  destruct (take_idx (FLUX_ERR s) idx) as [e|] eqn:He; [|discriminate].
  simpl. intros [= <-]. simpl. clear -He. revert e He.
  induction idx as [|i idx IH]; simpl; intros e.
  - intros [= <-] x [].
  - destruct (FLUX_ERR s !! i) as [y|] eqn:Hy; [|discriminate].
    destruct (take_idx (FLUX_ERR s) idx) as [ys|]; [|discriminate].
    intros [= <-] x [<-|Hx].
    + apply list_elem_of_In. eapply list_elem_of_lookup_2; eauto.
    + now apply (IH ys).
Qed.

(** When the uncertainties of the samples kept by the loader are
    non-negative and not all zero, [load_spectrum] returns; each entry that
    was zero now holds the largest non-zero uncertainty [m], each other entry
    is unchanged, wavelengths and fluxes are untouched, and no zero is left
    in the uncertainties, neither here nor after trimming to the template
    range. *)
Theorem zero_errors_become_max (s s1 : spectrum) :
  remove_zeros s = Ok s1 ->
  Forall nonneg (FLUX_ERR s1) ->
  Exists nonzero (FLUX_ERR s1) ->
  exists m s',
    load_spectrum s = Ok s'
    /\ WAVE s' = WAVE s1 /\ FLUX s' = FLUX s1
    /\ max_nonzero m (FLUX_ERR s1)
    /\ length (FLUX_ERR s') = length (FLUX_ERR s1)
    /\ (forall i x, FLUX_ERR s1 !! i = Some x ->
                    FLUX_ERR s' !! i = Some (if F64.eq0 x then m else x))
    /\ Forall nonzero (FLUX_ERR s')
    /\ (forall wave_temp s2, trim_to_templates wave_temp s' = Ok s2 ->
                             Forall nonzero (FLUX_ERR s2)).
Proof.
  intros Hrz Hnn Hnz.
  destruct (fix_zero_errors_spec _ Hnn Hnz) as (m & e' & Hfix & Hm & Hlen & Hupd & Hall).
  exists m, (Spectrum (WAVE s1) (FLUX s1) e').
  unfold load_spectrum. rewrite Hrz. simpl. rewrite Hfix. simpl.
  repeat split; try assumption; try apply Hm.
  intros wave_temp s2 Htrim. apply List.Forall_forall. intros x Hx.
  apply (trim_keeps_errors _ _ _ Htrim) in Hx. simpl in Hx.
  rewrite List.Forall_forall in Hall. now apply Hall.
Qed.

Lemma zero_errors_become_max_witness :
  let z := F64.of_Z in
  let s := Spectrum [z 1; z 2; z 3; z 4] [z 0; z 5; z 6; z 7]
                    [z 9; z 0; z 3; z 2] in
  let s1 := Spectrum [z 2; z 3; z 4] [z 5; z 6; z 7] [z 0; z 3; z 2] in
  exists m s',
    load_spectrum s = Ok s'
    /\ WAVE s' = WAVE s1 /\ FLUX s' = FLUX s1
    /\ max_nonzero m (FLUX_ERR s1)
    /\ length (FLUX_ERR s') = length (FLUX_ERR s1)
    /\ (forall i x, FLUX_ERR s1 !! i = Some x ->
                    FLUX_ERR s' !! i = Some (if F64.eq0 x then m else x))
    /\ Forall nonzero (FLUX_ERR s')
    /\ (forall wave_temp s2, trim_to_templates wave_temp s' = Ok s2 ->
                             Forall nonzero (FLUX_ERR s2)).
Proof.
  intros z s s1. apply (zero_errors_become_max s s1).
  - vm_compute. reflexivity.
  - repeat constructor.
  - right. left. vm_compute. reflexivity.
Defined.

(** ** Index sets: ascending lists without repetition *)

Lemma elem_of_np_where_from (mask : list bool) :
  forall k i, i ∈ np_where_from k mask
              <-> (k <= i)%nat /\ mask !! (i - k)%nat = Some true.
Proof.
  induction mask as [|b mask IH]; intros k i; simpl.
  - split; [intros Hi; inversion Hi | intros [_ Hi]; discriminate].
  - assert (Hrec : i ∈ np_where_from (S k) mask
                   <-> (k <= i)%nat /\ i <> k
                       /\ (b :: mask) !! (i - k)%nat = Some true).
    { rewrite IH. split.
      - intros [Hle Hi]. split; [lia|]. split; [lia|].
        replace (i - k)%nat with (S (i - S k)) by lia. exact Hi.
      - intros (Hle & Hne & Hi). split; [lia|].
        replace (i - k)%nat with (S (i - S k)) in Hi by lia. exact Hi. }
    destruct b.
    + rewrite elem_of_cons, Hrec. split.
      * intros [-> | (? & ? & ?)]; [|auto].
        split; [lia|]. now replace (k - k)%nat with 0%nat by lia.
      * intros [Hle Hi]. destruct (decide (i = k)) as [->|Hne]; auto.
    + rewrite Hrec. split; [intros (? & ? & ?); auto|].
      intros [Hle Hi]. split; [exact Hle|]. split; [|exact Hi].
      intros ->. replace (k - k)%nat with 0%nat in Hi by lia. discriminate.
Qed.

Lemma elem_of_np_where (mask : list bool) (i : nat) :
  i ∈ np_where mask <-> mask !! i = Some true.
Proof.
  unfold np_where. rewrite elem_of_np_where_from.
  replace (i - 0)%nat with i by lia. split; [now intros [_ ?] | split; [lia|auto]].
Qed.

Lemma np_where_from_sorted (mask : list bool) :
  forall k, StronglySorted lt (np_where_from k mask).
Proof.
  induction mask as [|b mask IH]; intros k; simpl; [constructor|].
  destruct b; [|apply IH]. constructor; [apply IH|].
  apply Forall_forall. intros i Hi.
  apply elem_of_np_where_from in Hi. lia.
Qed.

Lemma elem_of_insert_unique (x : nat) (l : list nat) (i : nat) :
  i ∈ insert_unique x l <-> i = x \/ i ∈ l.
Proof.
  induction l as [|y l IH]; simpl.
  - rewrite list_elem_of_singleton. split; [auto | intros [?|H]; [auto | inversion H]].
  - destruct (Nat.ltb_spec x y); [now rewrite elem_of_cons|].
    destruct (Nat.eqb_spec x y) as [->|Hne].
    + rewrite elem_of_cons. tauto.
    + rewrite !elem_of_cons, IH. tauto.
Qed.

Lemma insert_unique_sorted (x : nat) (l : list nat) :
  StronglySorted lt l -> StronglySorted lt (insert_unique x l).
Proof.
  induction l as [|y l IH]; simpl; intros Hl.
  - repeat constructor.
  - apply StronglySorted_inv in Hl as [Hl Hy].
    destruct (Nat.ltb_spec x y).
    + constructor; [now constructor|]. constructor; [exact H|].
      eapply Forall_impl; [exact Hy|]. simpl. intros. lia.
    + destruct (Nat.eqb_spec x y) as [->|Hne]; [now constructor|].
      constructor; [now apply IH|]. apply Forall_forall. intros i Hi.
      apply elem_of_insert_unique in Hi as [->|Hi]; [lia|].
      rewrite Forall_forall in Hy. now apply Hy.
Qed.

Lemma elem_of_np_unique (l : list nat) (i : nat) : i ∈ np_unique l <-> i ∈ l.
Proof.
  induction l as [|x l IH]; simpl; [reflexivity|].
  now rewrite elem_of_insert_unique, IH, elem_of_cons.
Qed.

Lemma np_unique_sorted (l : list nat) : StronglySorted lt (np_unique l).
Proof.
  induction l as [|x l IH]; simpl; [constructor|].
  now apply insert_unique_sorted.
Qed.

Lemma filter_sorted (P : nat -> Prop) `{!forall x, Decision (P x)}
  (l : list nat) :
  StronglySorted lt l -> StronglySorted lt (filter P l).
Proof.
  induction l as [|x l IH]; intros Hl; [constructor|].
  apply StronglySorted_inv in Hl as [Hl Hx].
  rewrite filter_cons. destruct (decide (P x)); [|now apply IH].
  constructor; [now apply IH|]. apply Forall_forall. intros i Hi.
  apply list_elem_of_filter in Hi as [_ Hi].
  rewrite Forall_forall in Hx. now apply Hx.
Qed.

Lemma elem_of_intersect1d (a b : list nat) (i : nat) :
  i ∈ intersect1d a b <-> i ∈ a /\ i ∈ b.
Proof.
  unfold intersect1d. rewrite list_elem_of_filter, elem_of_np_unique. tauto.
Qed.

Lemma intersect1d_sorted (a b : list nat) : StronglySorted lt (intersect1d a b).
Proof. apply filter_sorted, np_unique_sorted. Qed.

(** An ascending list without repetition is determined by its elements. *)
Lemma sorted_ext (l1 : list nat) :
  forall l2, StronglySorted lt l1 -> StronglySorted lt l2 ->
             (forall i, i ∈ l1 <-> i ∈ l2) -> l1 = l2.
Proof.
  induction l1 as [|x l1 IH]; intros [|y l2] H1 H2 Hext.
  - reflexivity.
  - exfalso. apply (not_elem_of_nil y), Hext. now left.
  - exfalso. apply (not_elem_of_nil x), Hext. now left.
  - apply StronglySorted_inv in H1 as [H1 Hx], H2 as [H2 Hy].
    rewrite Forall_forall in Hx, Hy.
    assert (x = y) as ->.
    { pose proof (proj1 (Hext x) ltac:(now left)) as Hxy.
      pose proof (proj2 (Hext y) ltac:(now left)) as Hyx.
      apply elem_of_cons in Hxy as [?|Hxy]; [assumption|].
      apply elem_of_cons in Hyx as [?|Hyx]; [congruence|].
      specialize (Hx _ Hyx). specialize (Hy _ Hxy). lia. }
    f_equal. apply IH; try assumption. intros i. split; intros Hi.
    + pose proof (proj1 (Hext i) ltac:(now right)) as Hi'.
      apply elem_of_cons in Hi' as [->|]; [|assumption].
      specialize (Hx _ Hi). lia.
    + pose proof (proj2 (Hext i) ltac:(now right)) as Hi'.
      apply elem_of_cons in Hi' as [->|]; [|assumption].
      specialize (Hy _ Hi). lia.
Qed.

Lemma elem_of_arange (n i : nat) : i ∈ arange n <-> (i < n)%nat.
Proof. unfold arange. rewrite list_elem_of_In, in_seq. lia. Qed.

Lemma seq_sorted (n : nat) : forall k, StronglySorted lt (seq k n).
Proof.
  induction n as [|n IH]; intros k; simpl; constructor; [apply IH|].
  apply Forall_forall. intros i Hi. apply list_elem_of_In, in_seq in Hi. lia.
Qed.

Lemma elem_of_fold_intersect (steps : list (list nat)) :
  forall init i,
    i ∈ fold_left intersect1d steps init
    <-> i ∈ init /\ forall s, s ∈ steps -> i ∈ s.
Proof.
  induction steps as [|s steps IH]; intros init i; simpl.
  - split; [intros Hi; split; [exact Hi|] | tauto].
    intros s Hs. inversion Hs.
  - rewrite IH, elem_of_intersect1d. split.
    + intros [[Hi Hs] Hall]. split; [exact Hi|].
      intros t Ht. apply elem_of_cons in Ht as [->|Ht]; auto.
    + intros [Hi Hall]. split; [split; [exact Hi|]|].
      * apply Hall. now left.
      * intros t Ht. apply Hall. now right.
Qed.

Lemma fold_intersect_sorted (steps : list (list nat)) :
  forall init, StronglySorted lt init ->
               StronglySorted lt (fold_left intersect1d steps init).
Proof.
  induction steps as [|s steps IH]; intros init Hinit; simpl; [exact Hinit|].
  apply IH, intersect1d_sorted.
Qed.

(** ** The bad-pixel mask *)

Lemma mask_bad_pixels_steps (lam galaxy : list float) :
  mask_bad_pixels lam galaxy
  = intersect_all (length lam) (mask_steps lam galaxy).
Proof. reflexivity. Qed.

Lemma skyline_bounds_not_nan (line : Z) :
  line ∈ skylines ->
  F64.is_nan (F64.of_Z (line - 15)) = false
  /\ F64.is_nan (F64.of_Z (line + 15)) = false.
Proof.
  unfold skylines. rewrite !elem_of_cons.
  intros [->|[->|[->|[->|[->|H]]]]]; [| | | | |inversion H];
    split; vm_compute; reflexivity.
Qed.

(** Off the line, as line 238 tests it, is outside the closed window. *)
Lemma off_line_window (line : Z) (x : float) :
  line ∈ skylines -> F64.is_nan x = false ->
  off_line line x = negb (in_window line x).
Proof.
  intros Hline Hx. destruct (skyline_bounds_not_nan line Hline) as [Hlo Hhi].
  unfold off_line, in_window.
  change (F64.gtb x (F64.of_Z (line + 15)))
    with (F64.ltb (F64.of_Z (line + 15)) x).
  rewrite (ltb_negb_leb x _ Hx Hlo), (ltb_negb_leb _ x Hhi Hx).
  now rewrite negb_andb.
Qed.

Lemma elem_of_skyline (lam : list float) (line : Z) (i : nat) :
  i ∈ skyline lam line
  <-> exists x, lam !! i = Some x /\ off_line line x = true.
Proof.
  unfold skyline. rewrite elem_of_np_where, list_lookup_fmap.
  destruct (lam !! i) as [x|]; simpl.
  - split; [intros [= Hx]; eauto | intros (y & [= <-] & ->); reflexivity].
  - split; [discriminate | intros (y & Hy & _); discriminate].
Qed.

Lemma elem_of_nans (galaxy : list float) (i : nat) :
  i ∈ nans galaxy
  <-> exists g, galaxy !! i = Some g /\ F64.is_nan g = false.
Proof.
  unfold nans. rewrite elem_of_np_where, list_lookup_fmap.
  destruct (galaxy !! i) as [g|]; simpl.
  - split.
    + intros [= Hg]. exists g. split; [reflexivity|]. now destruct (F64.is_nan g).
    + intros (y & [= <-] & ->). reflexivity.
  - split; [discriminate | intros (y & Hy & _); discriminate].
Qed.

(** C4: on a wavelength grid without NaN, the mask holds exactly the
    positions whose wavelength is outside every closed window
    [line - 15, line + 15] of the five sky lines and whose flux is not NaN;
    it is ascending without repetition, and intersecting the six index sets
    in any order gives the same array. *)
Theorem mask_is_exact_and_order_free (lam galaxy : list float) :
  Forall (fun x => F64.is_nan x = false) lam ->
  let goodpixels := mask_bad_pixels lam galaxy in
  (forall i, i ∈ goodpixels
             <-> exists x g, lam !! i = Some x /\ galaxy !! i = Some g
                             /\ (forall line, line ∈ skylines ->
                                              in_window line x = false)
                             /\ F64.is_nan g = false)
  /\ StronglySorted lt goodpixels
  /\ (forall steps, steps ≡ₚ mask_steps lam galaxy ->
                    intersect_all (length lam) steps = goodpixels).
Proof.
  intros Hlam goodpixels. subst goodpixels. rewrite mask_bad_pixels_steps.
  assert (Hsorted : forall steps,
             StronglySorted lt (intersect_all (length lam) steps)).
  { intros steps. apply fold_intersect_sorted, seq_sorted. }
  split; [|split; [apply Hsorted|]].
  - intros i. unfold intersect_all.
    rewrite elem_of_fold_intersect, elem_of_arange. unfold mask_steps. split.
    + intros [Hi Hall].
      destruct (lookup_lt_is_Some_2 lam i Hi) as [x Hx].
      assert (Hg : i ∈ nans galaxy).
      { apply Hall. apply elem_of_app. right. now left. }
      apply elem_of_nans in Hg as (g & Hg & Hnan).
      exists x, g. repeat split; try assumption.
      intros line Hline.
      assert (Hs : i ∈ skyline lam line).
      { apply Hall. apply elem_of_app. left.
        apply list_elem_of_fmap. now exists line. }
      apply elem_of_skyline in Hs as (y & Hy & Hoff).
      assert (y = x) as -> by congruence.
      rewrite off_line_window in Hoff; [now destruct (in_window line x)|exact Hline|].
      rewrite Forall_forall in Hlam. apply Hlam.
      eapply list_elem_of_lookup_2; eauto.
    + intros (x & g & Hx & Hg & Hwin & Hnan). split.
      * eapply lookup_lt_Some; eauto.
      * intros s Hs. apply elem_of_app in Hs as [Hs|Hs].
        -- apply list_elem_of_fmap in Hs as (line & -> & Hline).
           apply elem_of_skyline. exists x. split; [exact Hx|].
           rewrite off_line_window; [now rewrite Hwin; auto|exact Hline|].
           rewrite Forall_forall in Hlam. apply Hlam.
           eapply list_elem_of_lookup_2; eauto.
        -- apply list_elem_of_singleton in Hs as ->.
           apply elem_of_nans. eauto.
  - intros steps Hperm. apply sorted_ext; try apply Hsorted.
    intros i. unfold intersect_all. rewrite !elem_of_fold_intersect.
    split; intros [Hi Hall]; (split; [exact Hi|]); intros s Hs; apply Hall.
    + now rewrite Hperm.
    + now rewrite <- Hperm.
Qed.

Lemma mask_is_exact_and_order_free_witness :
  let z := F64.of_Z in
  let lam := [z 5500; z 5562; z 5577; z 5592; z 5593; z 6000] in
  let galaxy := [z 1; z 1; z 1; z 1; z 1; F64.nan] in
  mask_bad_pixels lam galaxy = [0; 4]%nat
  /\ (forall steps, steps ≡ₚ mask_steps lam galaxy ->
                    intersect_all (length lam) steps = [0; 4]%nat).
Proof.
  intros z lam galaxy.
  assert (Hlam : Forall (fun x => F64.is_nan x = false) lam)
    by (repeat constructor).
  split; [vm_compute; reflexivity|].
  exact (proj2 (proj2 (mask_is_exact_and_order_free lam galaxy Hlam))).
Defined.

(** ** Slices and the result decomposer *)

Lemma slice_to_app {A} (a b : list A) (k : Z) :
  Z.of_nat (length a) = k -> slice_to k (a ++ b)%list = a.
Proof.
  intros <-. unfold slice_to, slice_bound.
  destruct (Z.ltb_spec (Z.of_nat (length a)) 0); [lia|].
  rewrite Nat2Z.id, length_app, Nat.min_r by lia.
  now rewrite take_app_length.
Qed.

Lemma slice_from_app {A} (a b : list A) (k : Z) :
  Z.of_nat (length a) = k -> slice_from k (a ++ b)%list = b.
Proof.
  intros <-. unfold slice_from, slice_bound.
  destruct (Z.ltb_spec (Z.of_nat (length a)) 0); [lia|].
  rewrite Nat2Z.id, length_app, Nat.min_r by lia.
  now rewrite drop_app_length.
Qed.

Lemma cols_split {R} (f g : R -> list float) (k : Z) (rows : list R) :
  Forall (fun r => Z.of_nat (length (f r)) = k) rows ->
  cols_to k (map (fun r => f r ++ g r)%list rows) = map f rows
  /\ cols_from k (map (fun r => f r ++ g r)%list rows) = map g rows.
Proof.
  unfold cols_to, cols_from. induction 1 as [|r rows Hr _ [IH1 IH2]]; simpl.
  - split; reflexivity.
  - rewrite IH1, IH2, slice_to_app, slice_from_app by exact Hr. now split.
Qed.

Section DecomposerFacts.
Context `{External}.

Lemma matvec_rows {R} (f : R -> list float) (v : list float) (rows : list R) :
  Forall (fun r => length (f r) = length v) rows ->
  matvec (map f rows) v = Ok (map (fun r => np_dot (f r) v) rows).
Proof.
  intros Hrows. unfold matvec.
  replace (forallb _ (map f rows)) with true; [now rewrite map_map|].
  symmetry. apply forallb_forall. intros row Hrow.
  apply in_map_iff in Hrow as (r & <- & Hr).
  rewrite Forall_forall in Hrows. apply Nat.eqb_eq, Hrows.
  now apply list_elem_of_In.
Qed.

(** C3: under the fixed column order, [calc_arrays] returns, and the stellar,
    gas and sky spectra are the products of their column groups with their
    weight groups, the additive continuum is the product of the polynomial
    columns with [polyweights] (zeros when absent), the multiplicative
    polynomial is the Legendre series with coefficients [1 :: mpolyweights]
    on [linspace(-1, 1, n)] (ones when absent) and the extinction is
    [reddening_cal00] of the wavelengths when [reddening] is set (ones
    otherwise). *)
Theorem decomposer_splits_by_column_groups (pp : ppxf_obj)
  (ntemplates ngas : nat) (rows : list row_blocks) (ws wg wk : list float) :
  fixed_column_order pp ntemplates ngas rows ws wg wk ->
  exists a,
    calc_arrays pp ntemplates ngas = Ok a
    /\ star_weights a = ws /\ gas_weights a = wg /\ sky_weights a = wk
    /\ ssps a = map (fun r => np_dot (rb_stars r) ws) rows
    /\ gas a = map (fun r => np_dot (rb_gas r) wg) rows
    /\ bestsky a = map (fun r => np_dot (rb_sky r) wk) rows
    /\ apoly a = match pp_polyweights pp with
                 | Some pw => map (fun r => np_dot (rb_poly r) pw) rows
                 | None => map (fun _ => F64.zero) (pp_galaxy pp)
                 end
    /\ mpoly a = match pp_mpolyweights pp with
                 | Some mw =>
                     legval (linspace (F64.of_Z (-1)) (F64.of_Z 1)
                                      (length (pp_galaxy pp)))
                            (F64.one :: mw)
                 | None => map (fun _ => F64.one) (pp_galaxy pp)
                 end
    /\ extinction a = match pp_reddening pp with
                      | Some r => reddening_cal00 (pp_lam pp) r
                      | None => map (fun _ => F64.one) (pp_galaxy pp)
                      end.
Proof.
  intros (Hm & Hrows & Hw & Hws & Hwg & Hpw).
  unfold calc_arrays. rewrite Hm, Hw. unfold row_of.
  destruct (cols_split rb_poly
              (fun r => rb_stars r ++ rb_gas r ++ rb_sky r)%list
              (pp_degree pp + 1) rows) as [-> ->].
  { eapply Forall_impl; [exact Hrows|]. simpl. tauto. }
  destruct (cols_split rb_stars (fun r => rb_gas r ++ rb_sky r)%list
              (Z.of_nat ntemplates) rows) as [-> ->].
  { eapply Forall_impl; [exact Hrows|]. simpl. intros r (_ & -> & _). reflexivity. }
  destruct (cols_split rb_gas rb_sky (Z.of_nat ngas) rows) as [-> ->].
  { eapply Forall_impl; [exact Hrows|]. simpl. intros r (_ & _ & -> & _). reflexivity. }
  rewrite (slice_to_app ws), (slice_from_app ws) by (now rewrite Hws).
  rewrite (slice_to_app wg), (slice_from_app wg) by (now rewrite Hwg).
  assert (Hpoly : exists ap,
             match pp_polyweights pp with
             | Some pw => matvec (map rb_poly rows) pw
             | None => Ok (zeros_like (pp_galaxy pp))
             end = Ok ap
             /\ ap = match pp_polyweights pp with
                     | Some pw => map (fun r => np_dot (rb_poly r) pw) rows
                     | None => map (fun _ => F64.zero) (pp_galaxy pp)
                     end).
  { destruct (pp_polyweights pp) as [pw|]; [|eexists; split; reflexivity].
    eexists. split; [|reflexivity]. apply matvec_rows.
    eapply Forall_impl; [exact Hrows|]. simpl. intros r (Hr & _).
    specialize (Hpw pw eq_refl). lia. }
  destruct Hpoly as (ap & -> & Hap). simpl.
  rewrite (matvec_rows rb_stars ws), (matvec_rows rb_gas wg),
    (matvec_rows rb_sky wk); simpl.
  - eexists. split; [reflexivity|]. simpl. repeat split; try reflexivity.
    exact Hap.
  - eapply Forall_impl; [exact Hrows|]. simpl. tauto.
  - eapply Forall_impl; [exact Hrows|]. simpl. intros r (_ & _ & -> & _). now rewrite Hwg.
  - eapply Forall_impl; [exact Hrows|]. simpl. intros r (_ & -> & _). now rewrite Hws.
Qed.

End DecomposerFacts.

Lemma decomposer_splits_by_column_groups_witness :
  let z := F64.of_Z in
  let rows := [RowBlocks [z 1] [z 2; z 3] [z 4] [z 5];
               RowBlocks [z 1] [z 6; z 7] [z 8] [z 9]] in
  let pp := PpxfObj (map row_of rows) 0 0 [z 1; z 2; z 3; z 4] (Some [z 2])
                    None None [z 10; z 20] [z 5000; z 5001] [z 10; z 20]
                    [z 1; z 1] [0; 1]%nat 1 [] [] (z 1) in
  exists a,
    @calc_arrays Reference.external pp 2 1 = Ok a
    /\ ssps a = [z 8; z 20] /\ gas a = [z 12; z 24] /\ bestsky a = [z 20; z 36]
    /\ apoly a = [z 2; z 2] /\ mpoly a = [z 1; z 1]
    /\ extinction a = [z 1; z 1].
Proof.
  intros z rows pp.
  destruct (@decomposer_splits_by_column_groups Reference.external pp 2 1 rows
              [z 1; z 2] [z 3] [z 4])
    as (a & Ha & _ & _ & _ & Hs & Hg & Hk & Hp & Hm & He).
  - repeat split; try reflexivity.
    + repeat constructor.
    + intros pw [= <-]. reflexivity.
  - exists a. split; [exact Ha|].
    rewrite Hs, Hg, Hk, Hp, Hm, He. repeat split; vm_compute; reflexivity.
Defined.

(** ** Signal to noise *)

Lemma take_idx_in_range {A} (a : list A) (idx : list nat) :
  Forall (fun i => (i < length a)%nat) idx ->
  exists l, take_idx a idx = Ok l /\ length l = length idx.
Proof.
  induction 1 as [|i idx Hi _ (l & IH & Hlen)]; simpl; [now exists []|].
  destruct (lookup_lt_is_Some_2 a i Hi) as [x ->]. rewrite IH.
  exists (x :: l). simpl. now rewrite Hlen.
Qed.

(** Division by a zero in binary64: an infinity for a non-zero dividend, with
    the sign of the quotient, and a NaN for a zero or NaN dividend. *)
Lemma div_by_zero (x y : float) :
  F64.eq0 y = true ->
  F64.div x y = if nonzero_number x
                then S754_infinity (xorb (sign_bit x) (sign_bit y))
                else S754_nan.
Proof.
  intros Hy. apply eq0_zero in Hy as [s ->].
  now destruct x as [sx|sx| |sx mx ex].
Qed.

Section SignalToNoise.
Context `{External}.

(** C6 (as amended): when the fit mask lies within the spectrum, [calc_sn]
    returns; the signal is the median of the flux over the mask, the noise
    the standard deviation of the 5-sigma clipped residual over the mask, and
    S/N their binary64 quotient.  With a zero noise the quotient is an
    infinity (of the sign of the quotient) when the signal is a non-zero
    number, and a NaN when the signal is zero or NaN. *)
Theorem sn_is_unguarded_quotient (pp : ppxf_obj) :
  Forall (fun i => (i < length (pp_galaxy pp))%nat
                   /\ (i < length (pp_bestfit pp))%nat) (pp_goodpixels pp) ->
  exists s g b,
    calc_sn pp = Ok s
    /\ take_idx (pp_galaxy pp) (pp_goodpixels pp) = Ok g
    /\ take_idx (pp_bestfit pp) (pp_goodpixels pp) = Ok b
    /\ signal s = nanmedian g
    /\ meannoise s = nanstd (sigma_clip 5 (zip_with F64.sub g b))
    /\ sn s = F64.div (signal s) (meannoise s)
    /\ (F64.eq0 (meannoise s) = true ->
        sn s = if nonzero_number (signal s)
               then S754_infinity (xorb (sign_bit (signal s))
                                        (sign_bit (meannoise s)))
               else S754_nan).
Proof.
  intros Hgp.
  destruct (take_idx_in_range (pp_galaxy pp) (pp_goodpixels pp)) as (g & Hg & _).
  { eapply Forall_impl; [exact Hgp|]. simpl. tauto. }
  destruct (take_idx_in_range (pp_bestfit pp) (pp_goodpixels pp)) as (b & Hb & _).
  { eapply Forall_impl; [exact Hgp|]. simpl. tauto. }
  unfold calc_sn. rewrite Hg. simpl. rewrite Hb. simpl.
  eexists. exists g, b. split; [reflexivity|]. simpl.
  repeat split; try reflexivity. apply div_by_zero.
Qed.

End SignalToNoise.

Lemma sn_is_unguarded_quotient_witness :
  let z := F64.of_Z in
  let pp := PpxfObj [] 0 0 [] None None None [z 3; z 3; z 3] [] [z 3; z 3; z 3]
                    [] [0; 1; 2]%nat 1 [] [] (z 1) in
  exists s, @calc_sn Reference.external pp = Ok s
            /\ F64.eq0 (meannoise s) = true /\ sn s = F64.infinity.
Proof.
  intros z pp.
  destruct (@sn_is_unguarded_quotient Reference.external pp)
    as (s & g & b & Hs & _ & _ & _ & _ & _ & Hzero).
  - repeat constructor.
  - exists s. split; [exact Hs|].
    vm_compute in Hs. injection Hs as <-. split; reflexivity.
Defined.

(** C6 (counterexample): a fit that reproduces the flux [-1, 0, 1] exactly
    has a zero median signal and a zero noise, and its S/N is a NaN. *)
Lemma zero_signal_over_zero_noise_is_nan :
  let z := F64.of_Z in
  let pp := PpxfObj [] 0 0 [] None None None [z (-1); z 0; z 1] []
                    [z (-1); z 0; z 1] [] [0; 1; 2]%nat 1 [] [] (z 1) in
  exists s, @calc_sn Reference.external pp = Ok s
            /\ F64.eq0 (meannoise s) = true
            /\ F64.is_nan (sn s) = true.
Proof. eexists. split; [vm_compute; reflexivity|]. split; reflexivity. Qed.

(** ** The world *)

Lemma bind_ok {A B} (m : M A) (k : A -> M B) (w w' : world) (a : A) :
  m w = (w', Ok a) -> bind m k w = k a w'.
Proof. intros Hm. unfold bind. now rewrite Hm. Qed.

Lemma bind_raise {A B} (m : M A) (k : A -> M B) (w w' : world) (e : exn) :
  m w = (w', Raise e) -> bind m k w = (w', Raise e).
Proof. intros Hm. unfold bind. now rewrite Hm. Qed.

Lemma world_eta (w : world) : World (fs w) (cwd w) (fitlog w) = w.
Proof. now destruct w. Qed.

Section OrchestratorFacts.
Context `{External}.

Lemma plot_effect (pp : ppxf_obj) (a : arrays) (lam : list float)
  (title dir name : string) (w : world) :
  (exists e, plot pp a lam title dir name w = (w, Raise e))
  \/ (exists files, fs w !! dir = Some files
        /\ plot pp a lam title dir name w
           = (World (<[dir := <[name := Image title]> files]> (fs w))
                    (cwd w) (fitlog w), Ok tt)).
Proof.
  unfold plot, bind, lift.
  destruct (plot_checks pp a lam) as [[]|e]; [|left; eauto].
  unfold write_file. destruct (fs w !! dir) as [files|]; [right|left]; eauto.
Qed.

(** What processing one spectrum does to the world: the working directory is
    kept, the fitter is invoked at most once, and the file system changes
    only when the spectrum succeeds, by its figure and its pickle. *)
Lemma fit_spectrum_effect (b : batch) (fname name : string)
  (kwargs : gmap string pyval) (w : world) :
  exists w' r,
    fit_spectrum b fname name kwargs w = (w', r)
    /\ cwd w' = cwd w
    /\ fitlog w' = (fitlog w ++ fitter_calls b fname kwargs w)%list
    /\ match r with
       | Raise _ => fs w' = fs w
       | Ok kwargs' =>
           exists files p title saved,
             fs w !! b_logdir b = Some files
             /\ fs w' = <[b_logdir b :=
                            <[name ++ ".pkl" := Pickle saved]>
                              (<[name ++ ".png" := Image title]> files)]> (fs w)
             /\ sf_name saved = name
             /\ kwargs' = fit_kwargs p kwargs
       end.
Proof.
  unfold fit_spectrum, fitter_calls, bind, getcwd, read_file, lift.
  destruct (lookup_file w (cwd w) fname) as [f|]; simpl;
    [|eexists _, _; repeat split; now rewrite ?app_nil_r].
  destruct f as [data| | | | | | |]; simpl;
    try (eexists _, _; repeat split; now rewrite ?app_nil_r).
  destruct (prepare _ _ _ data) as [p|e]; simpl;
    [|eexists _, _; repeat split; now rewrite ?app_nil_r].
  destruct (b_templates b) as [t|]; simpl;
    [|eexists _, _; repeat split; now rewrite ?app_nil_r].
  unfold call_ppxf. simpl.
  destruct (ppxf _) as [pp|e]; simpl; [|eexists _, _; repeat split].
  destruct (calc_arrays pp _ _) as [a|e]; simpl; [|eexists _, _; repeat split].
  destruct (calc_sn pp) as [s|e]; simpl; [|eexists _, _; repeat split].
  match goal with |- context [plot ?pp ?a ?l ?t ?d ?n ?w0] =>
    destruct (plot_effect pp a l t d n w0) as [[e ->]|(files & Hfiles & ->)]
  end; simpl; [eexists _, _; repeat split|].
  unfold save, write_file, ret. simpl. rewrite lookup_insert_eq.
  eexists _, _. split; [reflexivity|]. simpl. repeat split.
  eexists files, p, _, _. split; [exact Hfiles|].
  split; [now rewrite insert_insert_eq|]. split; reflexivity.
Qed.

(** ** The loop over the spectra *)

Lemma fit_all_app (b : batch) (redo : bool) (pre post : list string) :
  forall kwargs w,
    fit_all b redo (pre ++ post)%list kwargs w
    = bind (fit_all b redo pre kwargs)
           (fun kwargs1 => fit_all b redo post kwargs1) w.
Proof.
  induction pre as [|fname pre IH]; intros kwargs w; [reflexivity|].
  simpl. unfold bind in *. unfold file_exists.
  destruct (_ && negb redo); [apply IH|].
  destruct (fit_spectrum _ _ _ _ _) as [w' [kwargs'|e]]; [apply IH|].
  reflexivity.
Qed.


(** Otherwise it is processed, and so it always is when [redo] is on. *)
Lemma fit_all_process (b : batch) (redo : bool) (fname : string)
  (rest : list string) (kwargs : gmap string pyval) (w : world) :
  lookup_file w (b_logdir b) (replace fname ".fits" "" ++ ".pkl") = None
  \/ redo = true ->
  fit_all b redo (fname :: rest) kwargs w
  = bind (fit_spectrum b fname (replace fname ".fits" "") kwargs)
         (fun kwargs1 => fit_all b redo rest kwargs1) w.
Proof.
  intros Hgo. simpl. unfold bind at 1. unfold file_exists.
  destruct Hgo as [Hnone | ->].
  - rewrite bool_decide_eq_false_2; [reflexivity|].
    rewrite Hnone. now intros [? ?].
  - now rewrite andb_false_r.
Qed.

(** C1 (as amended): when processing a spectrum raises an exception of any
    kind, the loop of [run_ppxf] stops there and [run_ppxf] raises the same
    exception to its caller: the spectra after it are not processed, and the
    file system is exactly as the spectra before it left it. *)
Theorem failure_aborts_batch (galaxy_dir : string) (w1 w2 targetSN : Z)
  (tempfile : string * string) (velscale : option Z) (redo : bool)
  (ncomp : Z) (test : bool) (kwargs kwargs0 kwargs1 : gmap string pyval)
  (cwd0 : string) (b : batch) (pre rest : list string) (fname : string)
  (w wa wb wc : world) (e : exn) :
  batch_setup galaxy_dir w1 w2 targetSN tempfile velscale ncomp test kwargs w
  = (wa, Ok (cwd0, b, (pre ++ fname :: rest)%list, kwargs0)) ->
  fit_all b redo pre kwargs0 wa = (wb, Ok kwargs1) ->
  lookup_file wb (b_logdir b) (replace fname ".fits" "" ++ ".pkl") = None
  \/ redo = true ->
  fit_spectrum b fname (replace fname ".fits" "") kwargs1 wb
  = (wc, Raise e) ->
  run_ppxf galaxy_dir w1 w2 targetSN tempfile velscale redo ncomp test
           kwargs w = (wc, Raise e)
  /\ fit_all b redo (pre ++ fname :: rest)%list kwargs0 wa = (wc, Raise e)
  /\ fs wc = fs wb.
Proof.
  intros Hsetup Hpre Hgo Hfail.
  assert (Hloop : fit_all b redo (pre ++ fname :: rest)%list kwargs0 wa
                  = (wc, Raise e)).
  { rewrite fit_all_app, (bind_ok _ _ _ _ _ Hpre).
    rewrite (fit_all_process _ _ _ _ _ _ Hgo).
    now apply bind_raise. }
  split; [|split; [exact Hloop|]].
  - unfold run_ppxf. rewrite (bind_ok _ _ _ _ _ Hsetup).
    now apply bind_raise.
  - destruct (fit_spectrum_effect b fname (replace fname ".fits" "")
                kwargs1 wb) as (w' & r & Hrun & _ & _ & Hfs).
    rewrite Hfail in Hrun. now injection Hrun as <- <-.
Qed.

End OrchestratorFacts.

(** C1 (counterexample): in the batch [a.fits], [b.fits], the first spectrum
    has no non-zero flux and raises a [ValueError], a data error.  The loop
    does not go on to [b.fits]: [run_ppxf] raises the error to its caller,
    the fitter is never invoked and [b.pkl] is not written, although
    [b.fits] alone is fitted and saved. *)
Lemma data_error_stops_the_batch :
  let failed := Scenario.run false Scenario.dark_then_good in
  let alone := Scenario.run false Scenario.good_alone in
  failed.2 = Raise ValueError
  /\ kind_of ValueError = DataError
  /\ fitlog failed.1 = []
  /\ lookup_file failed.1 Scenario.logdir "b.pkl" = None
  /\ alone.2 = Ok tt
  /\ is_Some (lookup_file alone.1 Scenario.logdir "b.pkl").
Proof.
  vm_compute. repeat split; try reflexivity. eexists. reflexivity.
Qed.

Lemma failure_aborts_batch_witness :
  let wa := Scenario.entered Scenario.dark_then_good in
  Scenario.run false Scenario.dark_then_good = (wa, Raise ValueError)
  /\ @fit_all Reference.external Scenario.batch_data false
       ([] ++ "a.fits" :: ["b.fits"])%list Scenario.kwargs0 wa
     = (wa, Raise ValueError)
  /\ fs wa = fs wa.
Proof.
  intros wa.
  apply (@failure_aborts_batch Reference.external "/data" 8500 13500 40
           Scenario.tempfile (Some 20%Z) false 1 false ∅ Scenario.kwargs0
           Scenario.kwargs0 "/" Scenario.batch_data [] ["b.fits"] "a.fits"
           Scenario.dark_then_good wa wa wa ValueError).
  - vm_compute. reflexivity.
  - reflexivity.
  - left. vm_compute. reflexivity.
  - vm_compute. reflexivity.
Defined.

(** ** The velocity offset *)

Section VelocityOffset.
Context `{External}.



End VelocityOffset.


(** ** Which templates reach the fitter *)

Section FitterCalls.
Context `{External}.

Lemma fit_kwargs_component (p : prepared) (kwargs : gmap string pyval) :
  fit_kwargs p kwargs !! "component" = kwargs !! "component".
Proof.
  unfold fit_kwargs. now rewrite !lookup_insert_ne by discriminate.
Qed.

(** Every invocation made by the loop hands over the template matrix of the
    batch and the [component] entry the loop started with. *)
Lemma fit_all_calls (b : batch) (redo : bool) (filenames : list string) :
  forall kwargs w,
    exists calls,
      fitlog (fit_all b redo filenames kwargs w).1
      = (fitlog w ++ calls)%list
      /\ forall c, c ∈ calls ->
                   b_templates b = Some (fc_templates c)
                   /\ fc_kwargs c !! "component" = kwargs !! "component".
Proof.
  induction filenames as [|fname rest IH]; intros kwargs w.
  - exists []. simpl. rewrite app_nil_r. split; [reflexivity|].
    intros c Hc. inversion Hc.
  - simpl. unfold bind at 1. unfold file_exists.
    destruct (_ && negb redo); [apply IH|].
    destruct (fit_spectrum_effect b fname (replace fname ".fits" "")
                kwargs w) as (w' & r & Hrun & _ & Hlog & Hres).
    unfold bind. rewrite Hrun.
    assert (Hone : forall c, c ∈ fitter_calls b fname kwargs w ->
                     b_templates b = Some (fc_templates c)
                     /\ fc_kwargs c !! "component" = kwargs !! "component").
    { unfold fitter_calls. intros c.
      destruct (lookup_file w (cwd w) fname) as [[data| | | | | | |]|];
        try (intros Hc; inversion Hc; fail).
      destruct (prepare _ _ _ data) as [p|]; [|intros Hc; inversion Hc].
      destruct (b_templates b) as [t|]; [|intros Hc; inversion Hc].
      intros Hc. apply list_elem_of_singleton in Hc as ->. simpl.
      split; [reflexivity | apply fit_kwargs_component]. }
    destruct r as [kwargs'|e].
    + destruct Hres as (files & p & title & saved & _ & _ & _ & ->).
      destruct (IH (fit_kwargs p kwargs) w') as (calls & Hcalls & Hall).
      exists (fitter_calls b fname kwargs w ++ calls)%list.
      rewrite Hcalls, Hlog, app_assoc. split; [reflexivity|].
      intros c Hc. apply elem_of_app in Hc as [Hc|Hc]; [now apply Hone|].
      destruct (Hall c Hc) as [Ht Hk]. split; [exact Ht|].
      now rewrite Hk, fit_kwargs_component.
    + exists (fitter_calls b fname kwargs w). simpl. split; [exact Hlog|].
      exact Hone.
Qed.

End FitterCalls.

(** ** Before the loop *)

Section Setup.
Context `{External}.

(** What [batch_setup] hands over when it succeeds, and what it leaves
    behind: the working directory is the data directory, the output
    directory exists, nothing else has changed. *)
Lemma batch_setup_inv (galaxy_dir : string) (w1 w2 targetSN : Z)
  (tempfile : string * string) (velscale : option Z) (ncomp : Z)
  (test : bool) (kwargs : gmap string pyval) (w w' : world)
  (cwd0 : string) (b : batch) (filenames : list string)
  (kwargs0 : gmap string pyval) :
  batch_setup galaxy_dir w1 w2 targetSN tempfile velscale ncomp test kwargs w
  = (w', Ok (cwd0, b, filenames, kwargs0)) ->
  exists bank vs files,
    let data_dir := data_dir_of galaxy_dir targetSN in
    let logdir := logdir_of data_dir vs w1 w2 targetSN in
    let stars := if test then take 5 (tb_stars bank) else tb_stars bank in
    lookup_file w tempfile.1 tempfile.2 = Some (Templates bank)
    /\ velscale = Some vs
    /\ cwd0 = cwd w
    /\ (b_templates b, kwargs0)
       = set_components ncomp stars (tb_emission bank) kwargs
    /\ b = Batch (tb_loglam bank) (map np_exp (tb_loglam bank))
                 (b_templates b) (length stars) (length (tb_emission bank))
                 vs logdir
    /\ is_Some (fs w !! data_dir)
    /\ fs w' !! data_dir = Some files
    /\ filenames = filter (fun n => Is_true (endswith n ".fits"))
                          (sorted ((map_to_list files).*1))
    /\ w' = World (match fs w !! logdir with
                   | Some _ => fs w
                   | None => <[logdir := ∅]> (fs w)
                   end) data_dir (fitlog w).
Proof.
  unfold batch_setup, read_templates, bind, getcwd, read_file, lift.
  destruct (lookup_file w tempfile.1 tempfile.2) as [f|] eqn:Hbank;
    [|discriminate]. simpl.
  destruct f as [|bank| | | | | |]; try discriminate. simpl.
  destruct (set_components ncomp _ (tb_emission bank) kwargs)
    as [templates kwargs1] eqn:Hcomp.
  unfold chdir at 1.
  destruct (fs w !! data_dir_of galaxy_dir targetSN) as [dfiles|] eqn:Hdata;
    [|discriminate].
  destruct velscale as [vs|]; [|discriminate]. simpl.
  unfold dir_exists. simpl.
  destruct (fs w !! logdir_of (data_dir_of galaxy_dir targetSN) vs w1 w2 targetSN)
    as [lfiles|] eqn:Hlog.
  - rewrite bool_decide_eq_true_2 by eauto. unfold ret at 1. simpl.
    unfold listdir. simpl. rewrite Hdata. unfold ret.
    intros [= <- <- <- <- <-]. exists bank, vs, dfiles. simpl.
    rewrite Hlog. repeat split; eauto.
  - rewrite bool_decide_eq_false_2 by (intros [? ?]; discriminate).
    unfold mkdir. simpl. rewrite Hlog. unfold listdir. simpl.
    destruct (<[_ := ∅]> (fs w) !! data_dir_of galaxy_dir targetSN)
      as [dfiles'|] eqn:Hdata'; [|discriminate].
    unfold ret. intros [= <- <- <- <- <-]. exists bank, vs, dfiles'. simpl.
    rewrite Hlog. repeat split; eauto.
Qed.

Lemma batch_setup_fitlog (galaxy_dir : string) (w1 w2 targetSN : Z)
  (tempfile : string * string) (velscale : option Z) (ncomp : Z)
  (test : bool) (kwargs : gmap string pyval) (w : world) :
  fitlog (batch_setup galaxy_dir w1 w2 targetSN tempfile velscale ncomp test
                      kwargs w).1 = fitlog w.
Proof.
  unfold batch_setup, read_templates, bind, getcwd, read_file, lift.
  destruct (lookup_file w tempfile.1 tempfile.2) as [f|]; [|reflexivity].
  simpl. destruct f as [|bank| | | | | |]; try reflexivity. simpl.
  destruct (set_components ncomp _ (tb_emission bank) kwargs)
    as [templates kwargs1].
  unfold chdir at 1.
  destruct (fs w !! data_dir_of galaxy_dir targetSN); [|reflexivity].
  destruct velscale as [vs|]; [|reflexivity]. simpl.
  unfold dir_exists. simpl.
  destruct (bool_decide _); unfold ret at 1; simpl.
  - unfold listdir. simpl. now destruct (fs w !! _).
  - unfold mkdir. simpl. destruct (fs w !! logdir_of _ _ _ _ _); [reflexivity|].
    unfold listdir. simpl. now destruct (_ !! _).
Qed.

End Setup.

(** ** The aggregator and the entry point *)

Section EntryPoint.
Context `{External}.

Lemma load_rows_world (pkls : list string) :
  forall w, (load_rows pkls w).1 = w.
Proof.
  induction pkls as [|fname rest IH]; intros w; [reflexivity|].
  simpl. unfold bind, getcwd, read_file, lift.
  destruct (lookup_file w (cwd w) fname) as [f|]; [|reflexivity]. simpl.
  destruct f as [| | | |p| | |]; try reflexivity. simpl.
  destruct (summary_row_of p); [|reflexivity].
  specialize (IH w). destruct (load_rows rest w) as [w' [rows|e]];
    simpl in IH; now subst.
Qed.

Lemma make_table_fitlog (galaxy_dir : string) (w1 w2 targetSN : Z)
  (velscale : option Z) (redo : bool) (w : world) :
  fitlog (make_table galaxy_dir w1 w2 targetSN velscale redo w).1 = fitlog w.
Proof.
  unfold make_table, bind, getcwd, file_exists.
  destruct (_ && negb redo); [reflexivity|].
  unfold chdir at 1. destruct (fs w !! logdir_of _ _ _ _ _); [|reflexivity].
  unfold listdir. simpl. destruct (fs w !! _) as [files|]; [|reflexivity].
  match goal with |- context [load_rows ?l ?w0] =>
    pose proof (load_rows_world l w0) as Hrows;
    destruct (load_rows l w0) as [w' [rows|e]] end;
    simpl in Hrows; subst w'; [|reflexivity].
  unfold lift. destruct rows; [reflexivity|].
  unfold write_file. simpl. destruct (fs w !! galaxy_dir); [|reflexivity].
  unfold chdir. simpl. now destruct (_ !! cwd w).
Qed.

Lemma stellar_kwargs_velscale (ncomp velscale : Z)
  (kwargs : gmap string pyval) :
  stellar_kwargs ncomp velscale = Some kwargs ->
  kw_velscale kwargs = Some velscale.
Proof.
  unfold stellar_kwargs, kw_velscale.
  destruct (ncomp =? 1)%Z; [|destruct (ncomp =? 2)%Z; [|discriminate]];
    intros [= <-]; rewrite !lookup_insert_ne by discriminate;
    now rewrite lookup_insert_eq.
Qed.

Lemma run_stellar_populations_unfold (targetSN w1 w2 : Z)
  (sampling : string) (vs : Z) (redo : bool) (ncomp : Z) (w : world) :
  run_stellar_populations targetSN w1 w2 sampling (Some vs) redo ncomp w
  = match stellar_kwargs ncomp vs with
    | Some kwargs =>
        bind (run_ppxf context_data_dir w1 w2 targetSN
                       (templates_path vs w1 w2 sampling) (Some vs) redo 1
                       false (delete "velscale" kwargs))
             (fun _ => make_table context_data_dir w1 w2 targetSN (Some vs)
                                  true) w
    | None => (w, Raise UnboundLocalError)
    end.
Proof.
  unfold run_stellar_populations. unfold bind at 1. unfold lift at 1. simpl.
  unfold bind at 1. unfold lift at 1.
  destruct (stellar_kwargs ncomp vs) as [kwargs|] eqn:Hkw; [|reflexivity].
  simpl. now rewrite (stellar_kwargs_velscale _ _ _ Hkw).
Qed.

(** C10 (as amended): with a numeric [velscale], [run_stellar_populations]
    called with [ncomp] 1 or 2 is [run_ppxf] with [ncomp] 1 on the keywords
    of that branch, followed by [make_table]; with any other [ncomp] it
    raises before [run_ppxf] is invoked.  In every case, each invocation of
    the fitter receives exactly the stellar templates of the template file
    and an all-zero component vector with one entry for each of them. *)
Theorem stellar_populations_fit_stars_only (targetSN w1 w2 : Z)
  (sampling : string) (vs : Z) (redo : bool) (ncomp : Z) (w : world) :
  let tempfile := templates_path vs w1 w2 sampling in
  let run := run_stellar_populations targetSN w1 w2 sampling (Some vs) redo
                                     ncomp w in
  (ncomp = 1 \/ ncomp = 2 ->
   exists kwargs,
     stellar_kwargs ncomp vs = Some kwargs
     /\ run = bind (run_ppxf context_data_dir w1 w2 targetSN tempfile
                             (Some vs) redo 1 false
                             (delete "velscale" kwargs))
                   (fun _ => make_table context_data_dir w1 w2 targetSN
                                        (Some vs) true) w)
  /\ (ncomp <> 1 -> ncomp <> 2 -> run = (w, Raise UnboundLocalError))
  /\ exists calls,
       fitlog run.1 = (fitlog w ++ calls)%list
       /\ forall c, c ∈ calls ->
            exists bank,
              lookup_file w tempfile.1 tempfile.2 = Some (Templates bank)
              /\ fc_templates c = tb_stars bank
              /\ fc_kwargs c !! "component"
                 = Some (VInts (replicate (length (tb_stars bank)) 0)).
Proof.
  intros tempfile run. subst run. rewrite run_stellar_populations_unfold.
  fold tempfile.
  destruct (stellar_kwargs ncomp vs) as [kwargs|] eqn:Hkw.
  - split; [intros _; now exists kwargs|]. split.
    { intros H1 H2. exfalso. revert Hkw. unfold stellar_kwargs.
      destruct (Z.eqb_spec ncomp 1); [contradiction|].
      now destruct (Z.eqb_spec ncomp 2). }
    unfold run_ppxf, bind.
    pose proof (batch_setup_fitlog context_data_dir w1 w2 targetSN tempfile
                  (Some vs) 1 false (delete "velscale" kwargs) w) as Hlog0.
    destruct (batch_setup _ _ _ _ _ _ _ _ _ w)
      as [wa [[[[cwd0 b] filenames] kwargs0]|e]] eqn:Hsetup; simpl in Hlog0.
    + destruct (batch_setup_inv _ _ _ _ _ _ _ _ _ _ _ _ _ _ _ Hsetup)
        as (bank & vs' & files & Hbank & _ & _ & Hcomp & _).
      simpl in Hcomp. injection Hcomp as Htempl Hkw0.
      destruct (fit_all_calls b redo filenames kwargs0 wa)
        as (calls & Hcalls & Hall).
      exists calls. split.
      *         destruct (fit_all b redo filenames kwargs0 wa) as [wb [k|e]];
          simpl in Hcalls; simpl; [|now rewrite Hcalls, Hlog0].
        unfold chdir at 1. destruct (fs wb !! cwd0); simpl.
        -- rewrite make_table_fitlog. simpl. now rewrite Hcalls, Hlog0.
        -- now rewrite Hcalls, Hlog0.
      * intros c Hc. destruct (Hall c Hc) as [Ht Hk]. exists bank.
        split; [exact Hbank|]. rewrite Htempl in Ht. injection Ht as <-.
        split; [reflexivity|]. rewrite Hk, Hkw0. apply lookup_insert_eq.
    + exists []. simpl. rewrite app_nil_r. split; [exact Hlog0|].
      intros c Hc. inversion Hc.
  - split.
    { intros [-> | ->]; discriminate. }
    split; [reflexivity|]. exists []. simpl. rewrite app_nil_r.
    split; [reflexivity|]. intros c Hc. inversion Hc.
Qed.

End EntryPoint.

Lemma stellar_populations_fit_stars_only_witness :
  exists calls,
    fitlog (Scenario.populations 2 Scenario.survey).1 = ([] ++ calls)%list
    /\ forall c, c ∈ calls ->
         exists bank,
           lookup_file Scenario.survey "/home/templates"
             "emiles_wifis_vel20_w8500_13500_kinematics.fits"
           = Some (Templates bank)
           /\ fc_templates c = tb_stars bank
           /\ fc_kwargs c !! "component"
              = Some (VInts (replicate (length (tb_stars bank)) 0)).
Proof.
  exact (proj2 (proj2 (@stellar_populations_fit_stars_only Reference.external
                         40 8500 13500 "kinematics" 20 false 2
                         Scenario.survey))).
Defined.

(** C10 (counterexample): with [ncomp] 3 no keyword dictionary is bound and
    the call raises [UnboundLocalError] before [run_ppxf] is invoked: the
    world is untouched.  With [ncomp] 2 on the same world the spectrum is
    fitted once, on the two stellar templates alone. *)
Lemma unsupported_ncomp_never_reaches_run_ppxf :
  Scenario.populations 3 Scenario.survey
  = (Scenario.survey, Raise UnboundLocalError)
  /\ (Scenario.populations 2 Scenario.survey).2 = Ok tt
  /\ map (fun c => length (fc_templates c))
         (fitlog (Scenario.populations 2 Scenario.survey).1) = [2%nat].
Proof. vm_compute. repeat split. Qed.

(** ** Skipping what is already done *)

Lemma string_length_app (a b : string) :
  String.length (a ++ b) = (String.length a + String.length b)%nat.
Proof. induction a as [|c a IH]; simpl; [reflexivity | now rewrite IH]. Qed.

Lemma join_neq (a b : string) : join a b <> a.
Proof.
  intros Heq. apply (f_equal String.length) in Heq.
  unfold join in Heq. rewrite !string_length_app in Heq. simpl in Heq. lia.
Qed.

Lemma logdir_neq_data_dir (data_dir : string) (vs w1 w2 targetSN : Z) :
  logdir_of data_dir vs w1 w2 targetSN <> data_dir.
Proof. apply join_neq. Qed.

Section Idempotence.
Context `{External}.



(** What one processed spectrum leaves behind. *)
Lemma fit_spectrum_frame (b : batch) (fname name : string)
  (kwargs : gmap string pyval) (w w' : world)
  (r : result (gmap string pyval)) :
  fit_spectrum b fname name kwargs w = (w', r) ->
  cwd w' = cwd w
  /\ (forall d, d <> b_logdir b -> fs w' !! d = fs w !! d)
  /\ (forall n, is_Some (lookup_file w (b_logdir b) n) ->
                is_Some (lookup_file w' (b_logdir b) n))
  /\ (forall kwargs', r = Ok kwargs' ->
        is_Some (lookup_file w' (b_logdir b) (name ++ ".pkl")))
  /\ (is_Some (fs w !! b_logdir b) -> is_Some (fs w' !! b_logdir b)).
Proof.
  intros Hrun.
  destruct (fit_spectrum_effect b fname name kwargs w)
    as (w0 & r0 & Hrun0 & Hcwd & _ & Hres).
  rewrite Hrun in Hrun0. injection Hrun0 as <- <-.
  split; [exact Hcwd|]. destruct r as [kwargs'|e].
  - destruct Hres as (files & p & title & saved & Hfiles & Hfs & _ & _).
    unfold lookup_file. rewrite Hfs, Hfiles. split; [|split; [|split]].
    + intros d Hd. now rewrite lookup_insert_ne.
    + intros n Hn. rewrite lookup_insert_eq. simpl in *.
      destruct (decide (n = name ++ ".pkl")) as [->|Hpkl];
        [rewrite lookup_insert_eq; eauto|].
      rewrite lookup_insert_ne by congruence.
      destruct (decide (n = name ++ ".png")) as [->|Hpng];
        [rewrite lookup_insert_eq; eauto|].
      now rewrite lookup_insert_ne by congruence.
    + intros k _. rewrite lookup_insert_eq. simpl.
      rewrite lookup_insert_eq. eauto.
    + intros _. rewrite lookup_insert_eq. eauto.
  - unfold lookup_file. rewrite Hres. repeat split; auto. discriminate.
Qed.

(** What the loop leaves behind: the working directory, every directory but
    the output directory, and every file that existed; after a loop that
    returns, the pickle of every spectrum of the batch exists. *)
Lemma fit_all_frame (b : batch) (redo : bool) (filenames : list string) :
  forall kwargs w w' r,
    fit_all b redo filenames kwargs w = (w', r) ->
    cwd w' = cwd w
    /\ (forall d, d <> b_logdir b -> fs w' !! d = fs w !! d)
    /\ (forall n, is_Some (lookup_file w (b_logdir b) n) ->
                  is_Some (lookup_file w' (b_logdir b) n))
    /\ (forall kwargs', r = Ok kwargs' ->
          forall fname, fname ∈ filenames ->
            is_Some (lookup_file w' (b_logdir b)
                                 (replace fname ".fits" "" ++ ".pkl")))
    /\ (is_Some (fs w !! b_logdir b) -> is_Some (fs w' !! b_logdir b)).
Proof.
  induction filenames as [|fname rest IH]; intros kwargs w w' r.
  - simpl. unfold ret. intros [= <- <-]. repeat split; auto.
    intros k _ f Hf. inversion Hf.
  - simpl. unfold bind at 1. unfold file_exists.
    destruct (bool_decide _ && negb redo) eqn:Hskip.
    + intros Hrest.
      destruct (IH _ _ _ _ Hrest) as (Hc & Hd & Hn & Hall & Hdir).
      repeat split; auto. intros k Hk f Hf.
      apply elem_of_cons in Hf as [->|Hf]; [|now apply (Hall k)].
      apply Hn. apply andb_true_iff in Hskip as [Hdone _].
      now apply bool_decide_eq_true_1 in Hdone.
    + unfold bind.
      destruct (fit_spectrum b fname (replace fname ".fits" "") kwargs w)
        as [w1 [kwargs1|e]] eqn:Hone;
        destruct (fit_spectrum_frame _ _ _ _ _ _ _ Hone)
        as (Hc1 & Hd1 & Hn1 & Hok1 & Hdir1).
      * intros Hrest.
        destruct (IH _ _ _ _ Hrest) as (Hc & Hd & Hn & Hall & Hdir).
        split; [congruence|]. split; [|split; [|split]].
        -- intros d Hne. now rewrite Hd, Hd1.
        -- intros n Hsome. now apply Hn, Hn1.
        -- intros k Hk f Hf.
           apply elem_of_cons in Hf as [->|Hf]; [|now apply (Hall k)].
           apply Hn. now apply (Hok1 kwargs1).
        -- intros Hsome. now apply Hdir, Hdir1.
      * intros [= <- <-]. repeat split; auto. discriminate.
Qed.


End Idempotence.

Section RedoGate.
Context `{External}.



End RedoGate.

Section RedoClaim.
Context `{External}.


End RedoClaim.


(** ** Template subsampling *)

Lemma take_idx_lookup {A} (a : list A) (idx : list nat) (l : list A) :
  take_idx a idx = Ok l ->
  length l = length idx
  /\ forall k i, idx !! k = Some i -> l !! k = a !! i /\ is_Some (a !! i).
Proof.
  revert l. induction idx as [|i idx IH]; simpl; intros l.
  - intros [= <-]. split; [reflexivity|]. intros k i Hk. discriminate.
  - destruct (a !! i) as [x|] eqn:Hx; [|discriminate].
    destruct (take_idx a idx) as [xs|]; [|discriminate]. intros [= <-].
    destruct (IH xs eq_refl) as [Hlen Hall]. split; [simpl; lia|].
    intros [|k] j; simpl.
    + intros [= <-]. rewrite Hx. eauto.
    + apply Hall.
Qed.

Lemma read_indices_world (ppdir : string) (wfiles : list string) :
  forall w, (read_indices ppdir wfiles w).1 = w.
Proof.
  induction wfiles as [|fname rest IH]; intros w; [reflexivity|].
  simpl. unfold bind, read_file, lift.
  destruct (lookup_file w ppdir fname) as [f|]; [|reflexivity]. simpl.
  destruct f as [| | |idx| | | |]; try reflexivity. simpl.
  specialize (IH w). destruct (read_indices ppdir rest w) as [w' [more|e]];
    simpl in IH; now subst.
Qed.

(** C7 (as amended): when the reduced bank is built (it does not exist yet, or [redo] is
    on) from a directory with at least one weights table whose recorded
    indices lie within the bank, it is written with exactly the rows whose
    index some fit recorded, each once, in ascending index order; at every
    position the flux row and the parameter row are those of the same row of
    the original bank; the wavelength table is kept and [NAXIS2] is the
    number of rows. *)
Theorem select_templates_keeps_used_rows (templates_file : string * string)
  (ppdir : string) (redo : bool) (w : world) (files : gmap string file)
  (recorded : list (list nat)) (bank : ssp_bank) :
  let outfile := subsample_path templates_file in
  let wfiles := filter (fun n => Is_true (endswith n "weights.fits"))
                       ((map_to_list files).*1) in
  lookup_file w outfile.1 outfile.2 = None \/ redo = true ->
  is_Some (fs w !! outfile.1) ->
  fs w !! ppdir = Some files ->
  (read_indices ppdir wfiles w).2 = Ok recorded ->
  recorded <> [] ->
  lookup_file w templates_file.1 templates_file.2 = Some (SspTemplates bank) ->
  (forall i, i ∈ concat recorded ->
             (i < length (sb_ssps bank))%nat
             /\ (i < length (sb_params bank))%nat) ->
  exists idx rows params w',
    select_templates templates_file ppdir redo w = (w', Ok outfile)
    /\ lookup_file w' outfile.1 outfile.2
       = Some (SspTemplates (SspBank rows params (sb_logwave bank)
                                     (length idx)))
    /\ StronglySorted lt idx
    /\ (forall i, i ∈ idx <-> exists l, l ∈ recorded /\ i ∈ l)
    /\ length rows = length idx /\ length params = length idx
    /\ (forall k i, idx !! k = Some i ->
                    rows !! k = sb_ssps bank !! i
                    /\ params !! k = sb_params bank !! i
                    /\ is_Some (sb_ssps bank !! i)).
Proof.
  intros outfile wfiles Hbuild [ofiles Hofiles] Hdir Hread Hne Hbank Hrange.
  set (idx := np_unique (concat recorded)).
  assert (Hidx : forall i, i ∈ idx <-> exists l, l ∈ recorded /\ i ∈ l).
  { intros i. unfold idx. rewrite elem_of_np_unique.
    rewrite list_elem_of_In, in_concat. split.
    - intros (l & Hl & Hi). exists l. now rewrite !list_elem_of_In.
    - intros (l & Hl & Hi). exists l. now rewrite <- !list_elem_of_In. }
  destruct (take_idx_in_range (sb_ssps bank) idx) as (rows & Hrows & _).
  { apply Forall_forall. intros i Hi. unfold idx in Hi.
    rewrite elem_of_np_unique in Hi. exact (proj1 (Hrange i Hi)). }
  destruct (take_idx_in_range (sb_params bank) idx) as (params & Hparams & _).
  { apply Forall_forall. intros i Hi. unfold idx in Hi.
    rewrite elem_of_np_unique in Hi. exact (proj2 (Hrange i Hi)). }
  destruct (take_idx_lookup _ _ _ Hrows) as [Hlen_r Hrow].
  destruct (take_idx_lookup _ _ _ Hparams) as [Hlen_p Hparam].
  exists idx, rows, params.
  assert (Hrun : exists w',
             select_templates templates_file ppdir redo w = (w', Ok outfile)
             /\ lookup_file w' outfile.1 outfile.2
                = Some (SspTemplates (SspBank rows params (sb_logwave bank)
                                              (length idx)))).
  { unfold select_templates, bind, file_exists. fold outfile.
    replace (bool_decide _ && negb redo) with false.
    2:{ destruct Hbuild as [Hnone | ->]; [|now rewrite andb_false_r].
        rewrite Hnone. rewrite bool_decide_eq_false_2; [reflexivity|].
        now intros [? ?]. }
    unfold listdir. rewrite Hdir. fold wfiles.
    pose proof (read_indices_world ppdir wfiles w) as Hw.
    destruct (read_indices ppdir wfiles w) as [w0 r0]. simpl in Hw, Hread.
    subst w0 r0.
    assert (Hstack : hstack recorded = Ok (concat recorded))
      by (destruct recorded; [contradiction | reflexivity]).
    unfold lift, read_file. rewrite Hstack, Hbank.
    cbv beta iota delta [of_option]. fold idx. rewrite Hrows, Hparams.
    unfold write_file, ret. rewrite Hofiles.
    eexists. split; [reflexivity|]. unfold lookup_file.
    cbn [fs]. rewrite lookup_insert_eq. cbn [mbind option_bind].
    apply lookup_insert_eq. }
  destruct Hrun as (w' & Hrun & Hfile). exists w'.
  split; [exact Hrun|]. split; [exact Hfile|].
  split; [apply np_unique_sorted|]. split; [exact Hidx|].
  split; [exact Hlen_r|]. split; [exact Hlen_p|].
  intros k i Hk. destruct (Hrow k i Hk) as [Hr Hsome].
  destruct (Hparam k i Hk) as [Hp _]. auto.
Qed.

Lemma select_templates_keeps_used_rows_witness :
  exists idx rows params w',
    select_templates ("/out", "emiles.fits") "/out/ppxf_sn40" false Subsample.start
      = (w', Ok (subsample_path ("/out", "emiles.fits")))
    /\ lookup_file w' (subsample_path ("/out", "emiles.fits")).1
                      (subsample_path ("/out", "emiles.fits")).2
       = Some (SspTemplates (SspBank rows params (sb_logwave Subsample.bank) (length idx)))
    /\ StronglySorted lt idx
    /\ (forall i, i ∈ idx <-> exists l, l ∈ [[7; 3]; [12; 3]]%nat /\ i ∈ l)
    /\ length rows = length idx /\ length params = length idx
    /\ (forall k i, idx !! k = Some i ->
          rows !! k = sb_ssps Subsample.bank !! i
          /\ params !! k = sb_params Subsample.bank !! i
          /\ is_Some (sb_ssps Subsample.bank !! i)).
Proof.
  apply (select_templates_keeps_used_rows ("/out", "emiles.fits") "/out/ppxf_sn40"
           false Subsample.start Subsample.fits [[7; 3]; [12; 3]]%nat Subsample.bank).
  - left. vm_compute. reflexivity.
  - vm_compute. eexists. reflexivity.
  - vm_compute. reflexivity.
  - vm_compute. reflexivity.
  - discriminate.
  - vm_compute. reflexivity.
  - intros i Hi.
    assert (Hi' : (i < 13)%nat).
    { cbn [concat app] in Hi.
      repeat (apply elem_of_cons in Hi as [-> | Hi]); try lia.
      inversion Hi. }
    assert (H1 : length (sb_ssps Subsample.bank) = 50%nat) by (vm_compute; reflexivity).
    assert (H2 : length (sb_params Subsample.bank) = 50%nat) by (vm_compute; reflexivity).
    rewrite H1, H2. lia.
Defined.

(** With [redo] off, a reduced bank left by an earlier run is returned as it
    is: the fits of the directory used the templates 3, 7 and 12, the file
    still holds the single row of the earlier run. *)
Lemma stale_subsample_is_returned :
  ~ exists idx rows params w',
      Subsample.select Subsample.rerun
        = (w', Ok (subsample_path ("/out", "emiles.fits")))
      /\ lookup_file w' (subsample_path ("/out", "emiles.fits")).1
                        (subsample_path ("/out", "emiles.fits")).2
         = Some (SspTemplates (SspBank rows params (sb_logwave Subsample.bank)
                                       (length idx)))
      /\ (forall i, i ∈ idx <-> exists l, l ∈ [[7; 3]; [12; 3]]%nat /\ i ∈ l)
      /\ length rows = length idx.
Proof.
  intros (idx & rows & params & w' & Hsel & Hfile & Hidx & Hlen).
  assert (Hrun : Subsample.select Subsample.rerun
                 = (Subsample.rerun, Ok ("/out", "emiles_subsample.fits")))
    by (vm_compute; reflexivity).
  rewrite Hrun in Hsel. injection Hsel as <-.
  assert (Hold : lookup_file Subsample.rerun
                   (subsample_path ("/out", "emiles.fits")).1
                   (subsample_path ("/out", "emiles.fits")).2
                 = Some (SspTemplates Subsample.earlier))
    by (vm_compute; reflexivity).
  rewrite Hold in Hfile. injection Hfile as Hrows _ Hn.
  assert (H3 : (3 ∈ idx)%nat).
  { apply Hidx. exists [7; 3]%nat. split; [left | right; left]. }
  assert (H7 : (7 ∈ idx)%nat).
  { apply Hidx. exists [7; 3]%nat. split; left. }
  destruct idx as [|a [|b idx]]; try discriminate Hn.
  apply list_elem_of_singleton in H3, H7. congruence.
Qed.

(** A directory without any weights table has nothing to stack: line 48
    raises. *)
Lemma select_templates_without_fits :
  Subsample.select Subsample.unfitted = (Subsample.unfitted, Raise ValueError).
Proof. vm_compute. reflexivity. Qed.

(** The gate of lines 41-42. *)
Lemma select_templates_skip (templates_file : string * string) (ppdir : string)
  (w : world) :
  is_Some (lookup_file w (subsample_path templates_file).1
                         (subsample_path templates_file).2) ->
  select_templates templates_file ppdir false w
  = (w, Ok (subsample_path templates_file)).
Proof.
  intros Hex. unfold select_templates, bind, file_exists.
  rewrite bool_decide_eq_true_2 by exact Hex. reflexivity.
Qed.

(* ===================================================================== *)
(** * Further properties of the loader *)
(* ===================================================================== *)

Lemma np_where_from_all_false (mask : list bool) :
  Forall (fun b => b = false) mask -> forall i, np_where_from i mask = [].
Proof.
  induction 1 as [|b mask Hb _ IH]; intros i; simpl; [reflexivity|].
  rewrite Hb. apply IH.
Qed.

Lemma np_where_all_false {A} (f : A -> bool) (a : list A) :
  Forall (fun x => f x = false) a -> np_where (map f a) = [].
Proof.
  intros Hall. apply np_where_from_all_false.
  induction Hall; simpl; constructor; auto.
Qed.

Section LoaderEdges.
Context `{External}.

(** A spectrum whose flux is zero at every sample (an empty spectrum
    included) cannot be prepared: lines 212-215 leave no sample, and
    [fluxerr.max()] of line 216 raises [ValueError] on the empty array. *)
Theorem all_zero_flux_raises (logwave_temp wave_temp : list float)
  (velscale : Z) (data : spectrum) :
  Forall (fun x => F64.eq0 x = true) (FLUX data) ->
  prepare logwave_temp wave_temp velscale data = Raise ValueError.
Proof.
  intros Hall. unfold prepare, load_spectrum, remove_zeros. cbn [FLUX WAVE FLUX_ERR].
  rewrite np_where_all_false; [reflexivity|].
  eapply Forall_impl; [exact Hall|]. intros x Hx. unfold F64.ne0.
  unfold F64.eq0 in Hx. now rewrite Hx.
Qed.

(** A spectrum that has no sample strictly inside the wavelength range of
    the templates cannot be prepared: the trimming of lines 219-224 leaves
    empty arrays and [wave[0]] of line 226 raises [IndexError]. *)
Theorem spectrum_outside_templates_raises (logwave_temp wave_temp : list float)
  (velscale : Z) (data s1 : spectrum) (lo hi : float) :
  load_spectrum (Spectrum (map to_angstrom (WAVE data)) (FLUX data)
                          (FLUX_ERR data)) = Ok s1 ->
  head wave_temp = Some lo -> last wave_temp = Some hi ->
  Forall (fun w => F64.gtb w lo && F64.ltb w hi = false) (WAVE s1) ->
  prepare logwave_temp wave_temp velscale data = Raise IndexError.
Proof.
  intros Hload Hlo Hhi Hout. unfold prepare. rewrite Hload.
  cbn [mbind result_bind rbind]. unfold trim_to_templates, first, last_elem.
  rewrite Hlo, Hhi. cbn [of_option mbind result_bind rbind].
  rewrite (np_where_all_false (fun w => F64.gtb w lo && F64.ltb w hi)) by exact Hout.
  reflexivity.
Qed.

End LoaderEdges.

Lemma all_zero_flux_raises_witness :
  @prepare Reference.external [] [] 20
    (Spectrum [F64.of_Z 1; F64.of_Z 2] [F64.zero; F64.zero]
              [F64.one; F64.one])
  = Raise ValueError.
Proof.
  apply (@all_zero_flux_raises Reference.external).
  repeat constructor.
Defined.

Lemma spectrum_outside_templates_raises_witness :
  @prepare Reference.external [F64.of_Z 5; F64.of_Z 9] [F64.of_Z 5; F64.of_Z 9]
    20 (Spectrum [F64.of_Z 1; F64.of_Z 2] [F64.one; F64.one]
                 [F64.one; F64.one])
  = Raise IndexError.
Proof.
  eapply (@spectrum_outside_templates_raises Reference.external).
  - vm_compute. reflexivity.
  - reflexivity.
  - reflexivity.
  - cbn [WAVE].
    repeat (apply List.Forall_cons; [vm_compute; reflexivity|]).
    apply List.Forall_nil.
Defined.

Lemma keep_zip {A B} (mask : list bool) :
  forall (a : list A) (b : list B),
    keep mask (zip a b) = zip (keep mask a) (keep mask b).
Proof.
  induction mask as [|m mask IH]; intros a b.
  - now destruct a, b.
  - destruct a as [|x a], b as [|y b]; simpl; try reflexivity.
    + now destruct (if m then _ else _).
    + destruct m; simpl; now rewrite IH.
Qed.

Lemma keep_length_le {A} (mask : list bool) :
  forall a : list A, (length (keep mask a) <= length a)%nat.
Proof.
  induction mask as [|m mask IH]; intros [|x a]; simpl; try lia.
  specialize (IH a). destruct m; simpl; lia.
Qed.

Lemma keep_length {A B} (mask : list bool) :
  forall (a : list A) (b : list B),
    length a = length b -> length (keep mask a) = length (keep mask b).
Proof.
  induction mask as [|m mask IH]; intros [|x a] [|y b]; simpl; try lia.
  intros Hlen. specialize (IH a b ltac:(lia)). destruct m; simpl; lia.
Qed.

(** Lines 219-224 keep the samples whose wavelength lies strictly between
    the first and the last wavelength of the templates, in their order and
    with the three columns still aligned; a sample at either end of the
    template range is dropped. *)
Theorem trim_keeps_strict_interior (wave_temp : list float) (s : spectrum)
  (lo hi : float) :
  length (FLUX s) = length (WAVE s) ->
  length (FLUX_ERR s) = length (WAVE s) ->
  head wave_temp = Some lo -> last wave_temp = Some hi ->
  let rows s := zip (WAVE s) (zip (FLUX s) (FLUX_ERR s)) in
  exists s2,
    trim_to_templates wave_temp s = Ok s2
    /\ rows s2 = List.filter (fun r => F64.ltb lo r.1 && F64.ltb r.1 hi) (rows s)
    /\ length (FLUX s2) = length (WAVE s2)
    /\ length (FLUX_ERR s2) = length (WAVE s2)
    /\ Forall (fun w => F64.ltb lo w = true /\ F64.ltb w hi = true) (WAVE s2).
Proof.
  intros Hf He Hlo Hhi rows.
  set (inside := fun w => F64.gtb w lo && F64.ltb w hi).
  exists (Spectrum (keep (map inside (WAVE s)) (WAVE s))
                   (keep (map inside (WAVE s)) (FLUX s))
                   (keep (map inside (WAVE s)) (FLUX_ERR s))).
  split; [|split; [|split; [|split]]].
  - unfold trim_to_templates, first, last_elem. rewrite Hlo, Hhi.
    cbn [of_option mbind result_bind rbind]. fold inside.
    rewrite !take_idx_where by (rewrite length_map; lia). reflexivity.
  - unfold rows. cbn [WAVE FLUX FLUX_ERR]. rewrite <- !keep_zip.
    replace (map inside (WAVE s))
      with (map (fun r : float * (float * float) => inside r.1)
                (zip (WAVE s) (zip (FLUX s) (FLUX_ERR s)))).
    + apply (keep_map_filter (fun r : float * (float * float) => inside r.1)).
    + rewrite <- (List.map_map fst inside). f_equal.
      apply (fst_zip (WAVE s)). rewrite length_zip_with. lia.
  - cbn [WAVE FLUX]. symmetry. now apply keep_length.
  - cbn [WAVE FLUX_ERR]. symmetry. now apply keep_length.
  - cbn [WAVE]. rewrite keep_map_filter. apply List.Forall_forall.
    intros w Hw. apply List.filter_In in Hw as [_ Hw].
    unfold inside, F64.gtb in Hw. apply andb_true_iff in Hw. exact Hw.
Qed.

Lemma trim_keeps_strict_interior_witness :
  let z := F64.of_Z in
  let s := Spectrum [z 1; z 2; z 3; z 4] [z 5; z 6; z 7; z 8]
                    [z 1; z 1; z 1; z 1] in
  exists s2,
    trim_to_templates [z 1; z 2; z 4] s = Ok s2
    /\ zip (WAVE s2) (zip (FLUX s2) (FLUX_ERR s2))
       = List.filter (fun r => F64.ltb (z 1) r.1 && F64.ltb r.1 (z 4))
                     (zip (WAVE s) (zip (FLUX s) (FLUX_ERR s)))
    /\ length (FLUX s2) = length (WAVE s2)
    /\ length (FLUX_ERR s2) = length (WAVE s2)
    /\ Forall (fun w => F64.ltb (z 1) w = true /\ F64.ltb w (z 4) = true)
              (WAVE s2).
Proof.
  intros z s.
  apply (trim_keeps_strict_interior [z 1; z 2; z 4] s (z 1) (z 4));
    reflexivity.
Defined.

Lemma fold_max2_zeros (a : list float) :
  forall x, F64.eq0 x = true -> Forall (fun y => F64.eq0 y = true) a ->
            F64.eq0 (fold_left F64.max2 a x) = true.
Proof.
  induction a as [|y a IH]; intros x Hx Ha; simpl; [exact Hx|].
  apply Forall_cons in Ha as [Hy Ha]. apply IH; [|exact Ha].
  apply eq0_zero in Hx as [sx ->]. apply eq0_zero in Hy as [sy ->].
  apply eq0_zero. unfold F64.max2. simpl.
  destruct (F64.ltb (S754_zero sx) (S754_zero sy)); eauto.
Qed.

(** When every uncertainty of the kept samples is zero, line 216 replaces
    zeros by the largest value, which is zero again: the spectrum is loaded
    and all its uncertainties are still zero. *)
Theorem all_zero_errors_stay_zero (s s1 : spectrum) :
  remove_zeros s = Ok s1 ->
  FLUX_ERR s1 <> [] ->
  Forall (fun x => F64.eq0 x = true) (FLUX_ERR s1) ->
  exists s',
    load_spectrum s = Ok s'
    /\ WAVE s' = WAVE s1 /\ FLUX s' = FLUX s1
    /\ length (FLUX_ERR s') = length (FLUX_ERR s1)
    /\ Forall (fun x => F64.eq0 x = true) (FLUX_ERR s').
Proof.
  intros Hrz Hne Hall. unfold load_spectrum. rewrite Hrz.
  cbn [mbind result_bind rbind]. unfold fix_zero_errors.
  assert (Hnan : Forall (fun y => F64.is_nan y = false) (FLUX_ERR s1)).
  { eapply Forall_impl; [exact Hall|]. intros y Hy.
    apply eq0_zero in Hy as [sy ->]. reflexivity. }
  rewrite (column_max_no_nan _ Hnan).
  destruct (FLUX_ERR s1) as [|x e] eqn:He; [contradiction|].
  cbn [np_max mbind result_bind rbind].
  eexists. split; [reflexivity|]. cbn [WAVE FLUX FLUX_ERR].
  split; [reflexivity|]. split; [reflexivity|]. unfold set_where_zero.
  split; [now rewrite length_map|].
  pose proof Hall as Hzero. rewrite List.Forall_forall in Hzero.
  apply Forall_cons in Hall as [Hx Hall].
  pose proof (fold_max2_zeros e x Hx Hall) as Hm.
  apply List.Forall_forall. intros y Hy.
  apply List.in_map_iff in Hy as (t & <- & Hin).
  now rewrite (Hzero t Hin).
Qed.

Lemma all_zero_errors_stay_zero_witness :
  let z := F64.of_Z in
  let s := Spectrum [z 1; z 2; z 3] [z 0; z 5; z 6] [z 1; z 0; z 0] in
  exists s',
    load_spectrum s = Ok s'
    /\ WAVE s' = [z 2; z 3] /\ FLUX s' = [z 5; z 6]
    /\ length (FLUX_ERR s') = 2%nat
    /\ Forall (fun x => F64.eq0 x = true) (FLUX_ERR s').
Proof.
  intros z s.
  apply (all_zero_errors_stay_zero s (Spectrum [z 2; z 3] [z 5; z 6] [z 0; z 0])).
  - vm_compute. reflexivity.
  - discriminate.
  - repeat constructor.
Defined.


(* ===================================================================== *)
(** * Further properties of [run_ppxf] *)
(* ===================================================================== *)

Section RunFacts.
Context `{External}.

(** [batch_setup] creates at most the (empty) output directory: no file is
    added, removed or changed. *)
Lemma batch_setup_files (galaxy_dir : string) (w1 w2 targetSN : Z)
  (tempfile : string * string) (velscale : option Z) (ncomp : Z)
  (test : bool) (kwargs : gmap string pyval) (w : world) (d n : string) :
  lookup_file (batch_setup galaxy_dir w1 w2 targetSN tempfile velscale ncomp
                           test kwargs w).1 d n = lookup_file w d n.
Proof.
  unfold batch_setup, read_templates, bind, getcwd, read_file, lift.
  destruct (lookup_file w tempfile.1 tempfile.2) as [f|]; [|reflexivity].
  simpl. destruct f as [|bank| | | | | |]; try reflexivity. simpl.
  destruct (set_components ncomp _ (tb_emission bank) kwargs)
    as [templates kwargs1].
  unfold chdir at 1.
  destruct (fs w !! data_dir_of galaxy_dir targetSN) as [dfiles|] eqn:Hdata;
    [|reflexivity].
  destruct velscale as [vs|]; [|reflexivity]. simpl.
  unfold dir_exists. simpl.
  destruct (fs w !! logdir_of (data_dir_of galaxy_dir targetSN) vs w1 w2 targetSN)
    as [lfiles|] eqn:Hlog.
  - rewrite bool_decide_eq_true_2 by eauto. unfold ret at 1. simpl.
    unfold listdir. simpl. now rewrite Hdata.
  - rewrite bool_decide_eq_false_2 by (intros [? ?]; discriminate).
    unfold mkdir. simpl. rewrite Hlog.
    assert (Hsame : forall fitlog0 cwd1,
              lookup_file (World (<[logdir_of (data_dir_of galaxy_dir targetSN)
                                              vs w1 w2 targetSN := ∅]> (fs w))
                                 cwd1 fitlog0) d n
              = lookup_file w d n).
    { intros. unfold lookup_file. simpl.
      destruct (decide (d = logdir_of (data_dir_of galaxy_dir targetSN)
                                      vs w1 w2 targetSN)) as [->|Hd].
      - now rewrite lookup_insert_eq, Hlog.
      - now rewrite lookup_insert_ne. }
    unfold listdir. simpl.
    rewrite lookup_insert_ne by apply logdir_neq_data_dir.
    rewrite Hdata. simpl. apply Hsame.
Qed.

Lemma fit_spectrum_unbound (b : batch) (fname name : string)
  (kwargs : gmap string pyval) (w : world) :
  b_templates b = None ->
  exists e, fit_spectrum b fname name kwargs w = (w, Raise e).
Proof.
  intros Hb. unfold fit_spectrum, bind, getcwd, read_file, lift.
  destruct (lookup_file w (cwd w) fname) as [f|]; simpl; [|eauto].
  destruct f as [data| | | | | | |]; simpl; eauto.
  destruct (prepare _ _ _ data) as [p|e]; simpl; [|eauto].
  rewrite Hb. simpl. eauto.
Qed.

Lemma fit_all_unbound (b : batch) (redo : bool) (filenames : list string) :
  b_templates b = None ->
  forall kwargs w, exists r, fit_all b redo filenames kwargs w = (w, r).
Proof.
  intros Hb. induction filenames as [|fname rest IH]; intros kwargs w.
  - simpl. unfold ret. eauto.
  - simpl. unfold bind at 1. unfold file_exists.
    destruct (_ && negb redo); [apply IH|].
    destruct (fit_spectrum_unbound b fname (replace fname ".fits" "")
                kwargs w Hb) as [e He].
    unfold bind. rewrite He. eauto.
Qed.

(** When [ncomp] is neither 1 nor 2, lines 180-187 bind no template matrix:
    whatever the batch, the fitter is never invoked and no file is written
    or changed. *)
Theorem unsupported_ncomp_fits_nothing (galaxy_dir : string)
  (w1 w2 targetSN : Z) (tempfile : string * string) (velscale : option Z)
  (redo : bool) (ncomp : Z) (test : bool) (kwargs : gmap string pyval)
  (w : world) :
  ncomp <> 1 -> ncomp <> 2 ->
  let w' := (run_ppxf galaxy_dir w1 w2 targetSN tempfile velscale redo ncomp
                      test kwargs w).1 in
  fitlog w' = fitlog w
  /\ forall d n, lookup_file w' d n = lookup_file w d n.
Proof.
  intros H1 H2. cbv zeta. unfold run_ppxf, bind.
  pose proof (batch_setup_fitlog galaxy_dir w1 w2 targetSN tempfile velscale
                ncomp test kwargs w) as Hlog.
  pose proof (batch_setup_files galaxy_dir w1 w2 targetSN tempfile velscale
                ncomp test kwargs w) as Hfiles.
  destruct (batch_setup _ _ _ _ _ _ _ _ _ w)
    as [wa [[[[cwd0 b] filenames] kwargs0]|e]] eqn:Hsetup;
    [|split; [exact Hlog | exact Hfiles]].
  simpl in Hlog, Hfiles.
  destruct (batch_setup_inv _ _ _ _ _ _ _ _ _ _ _ _ _ _ _ Hsetup)
    as (bank & vs & files & _ & _ & _ & Hcomp & _).
  assert (Hb : b_templates b = None).
  { unfold set_components in Hcomp.
    destruct (Z.eqb_spec ncomp 1); [contradiction|].
    destruct (Z.eqb_spec ncomp 2); [contradiction|]. congruence. }
  destruct (fit_all_unbound b redo filenames Hb kwargs0 wa) as [r ->].
  destruct r as [k|e]; [|split; [exact Hlog | exact Hfiles]].
  unfold chdir. destruct (fs wa !! cwd0); simpl; split; auto.
Qed.

End RunFacts.

Lemma unsupported_ncomp_fits_nothing_witness :
  let w' := (@run_ppxf Reference.external "/data" 8500 13500 40
               Scenario.tempfile (Some 20) true 3 false ∅
               Scenario.good_alone).1 in
  fitlog w' = fitlog Scenario.good_alone
  /\ forall d n, lookup_file w' d n = lookup_file Scenario.good_alone d n.
Proof.
  apply (@unsupported_ncomp_fits_nothing Reference.external); discriminate.
Defined.

Lemma elem_of_insert_sorted (x y : string) (l : list string) :
  x ∈ insert_sorted y l <-> x = y \/ x ∈ l.
Proof.
  induction l as [|z l IH]; simpl.
  - rewrite list_elem_of_singleton. split; [now left|].
    intros [?|Hx]; [assumption | inversion Hx].
  - destruct (String.leb y z).
    + now rewrite elem_of_cons.
    + rewrite !elem_of_cons, IH. tauto.
Qed.

Lemma elem_of_sorted (x : string) (l : list string) : x ∈ sorted l <-> x ∈ l.
Proof.
  induction l as [|y l IH]; simpl; [reflexivity|].
  now rewrite elem_of_insert_sorted, elem_of_cons, IH.
Qed.

Section RunOutcome.
Context `{External}.

(** A run that returns has left the pickle of every spectrum of the data
    directory in the output directory, has changed no other directory, and
    is back in the working directory it started from. *)
Theorem completed_run_has_every_pickle (galaxy_dir : string)
  (w1 w2 targetSN : Z) (tempfile : string * string) (vs : Z) (redo : bool)
  (ncomp : Z) (test : bool) (kwargs : gmap string pyval) (w wf : world)
  (files : gmap string file) :
  let data_dir := data_dir_of galaxy_dir targetSN in
  let logdir := logdir_of data_dir vs w1 w2 targetSN in
  run_ppxf galaxy_dir w1 w2 targetSN tempfile (Some vs) redo ncomp test
           kwargs w = (wf, Ok tt) ->
  fs w !! data_dir = Some files ->
  cwd wf = cwd w
  /\ (forall d, d <> logdir -> fs wf !! d = fs w !! d)
  /\ (forall fname, fname ∈ (map_to_list files).*1 ->
        endswith fname ".fits" = true ->
        is_Some (lookup_file wf logdir (replace fname ".fits" "" ++ ".pkl"))).
Proof.
  intros data_dir logdir Hrun Hdata. unfold run_ppxf, bind in Hrun.
  destruct (batch_setup _ _ _ _ _ _ _ _ _ w)
    as [wa [[[[cwd0 b] filenames] kwargs0]|e]] eqn:Hsetup; [|discriminate].
  destruct (fit_all b redo filenames kwargs0 wa) as [wb [kf|e]] eqn:Hloop;
    [|discriminate].
  unfold chdir in Hrun.
  destruct (fs wb !! cwd0) as [cfiles|]; [|discriminate].
  injection Hrun as <-.
  destruct (batch_setup_inv _ _ _ _ _ _ _ _ _ _ _ _ _ _ _ Hsetup)
    as (bank & vs' & files' & _ & Hvs & Hcwd & _ & Hb & _ & Hfiles'
        & Hnames & Hwa).
  injection Hvs as <-. fold data_dir in Hfiles', Hwa, Hb.
  fold logdir in Hwa, Hb.
  assert (Hlogdir : b_logdir b = logdir) by (rewrite Hb; reflexivity).
  destruct (fit_all_frame _ _ _ _ _ _ _ Hloop) as (_ & Hother & _ & Hall & _).
  rewrite Hlogdir in Hother, Hall.
  assert (Hsetup_fs : forall d, d <> logdir -> fs wa !! d = fs w !! d).
  { intros d Hd. rewrite Hwa. simpl.
    destruct (fs w !! logdir); [reflexivity|]. now rewrite lookup_insert_ne. }
  simpl. split; [exact Hcwd|]. split.
  - intros d Hd. now rewrite Hother, Hsetup_fs.
  - intros fname Hin Hfits. unfold lookup_file. simpl.
    apply (Hall kf eq_refl). rewrite Hnames.
    apply list_elem_of_filter. split; [now rewrite Hfits|].
    apply elem_of_sorted.
    rewrite Hsetup_fs in Hfiles' by (symmetry; apply logdir_neq_data_dir).
    rewrite Hdata in Hfiles'. now injection Hfiles' as <-.
Qed.



End RunOutcome.

Lemma completed_run_has_every_pickle_witness :
  let wf := (Scenario.run false Scenario.good_alone).1 in
  cwd wf = cwd Scenario.good_alone
  /\ (forall d, d <> logdir_of (data_dir_of "/data" 40) 20 8500 13500 40 ->
                fs wf !! d = fs Scenario.good_alone !! d)
  /\ (forall fname,
        fname ∈ (map_to_list ({["b.fits" := FitsTable Scenario.good]}
                              : gmap string file)).*1 ->
        endswith fname ".fits" = true ->
        is_Some (lookup_file wf
                   (logdir_of (data_dir_of "/data" 40) 20 8500 13500 40)
                   (replace fname ".fits" "" ++ ".pkl"))).
Proof.
  intros wf.
  apply (@completed_run_has_every_pickle Reference.external "/data" 8500
           13500 40 Scenario.tempfile 20 false 1 false ∅
           Scenario.good_alone wf).
  - vm_compute. reflexivity.
  - vm_compute. reflexivity.
Defined.


(* ===================================================================== *)
(** * Further properties of the class [pPXF] *)
(* ===================================================================== *)

Lemma indicator_decodes (gp : list nat) (n i : nat) :
  i ∈ np_where (map (Z.eqb 1)
                    (map (fun i => if bool_decide (i ∈ gp) then 1%Z else 0%Z)
                         (arange n)))
  <-> i ∈ gp /\ (i < n)%nat.
Proof.
  rewrite elem_of_np_where. unfold arange.
  change (map (Z.eqb 1)) with (fmap (M := list) (Z.eqb 1)).
  change (map (fun i => if bool_decide (i ∈ gp) then 1%Z else 0%Z))
    with (fmap (M := list) (fun i => if bool_decide (i ∈ gp) then 1%Z else 0%Z)).
  rewrite !list_lookup_fmap.
  destruct (decide (i < n)%nat) as [Hlt|Hge].
  - rewrite lookup_seq_lt by exact Hlt. simpl.
    destruct (bool_decide_reflect (i ∈ gp)); simpl.
    + split; [auto | reflexivity].
    + split; [discriminate | tauto].
  - rewrite lookup_seq_ge by lia. simpl. split; [discriminate | tauto].
Qed.

(** [save] writes the pickle [name.pkl] in the log directory; its table has
    the eleven columns in the fixed order, and the [goodpixels] column is an
    indicator as long as the wavelength array from which the pixel indices
    are read back: exactly the indices of [goodpixels] that lie within the
    array, and [goodpixels] itself when it is ascending and within it. *)
Theorem saved_goodpixels_round_trip (pp : ppxf_obj) (a : arrays)
  (s : sn_info) (lam : list float) (name title : string) (dv : float)
  (velscale : Z) (ngas ntemplates : nat) (logdir : string) (w0 w1 : world) :
  save pp a s lam name title dv velscale ngas ntemplates logdir w0
  = (w1, Ok tt) ->
  exists p col,
    lookup_file w1 logdir (name ++ ".pkl") = Some (Pickle p)
    /\ (sf_table p).*1
       = ["wave"; "flux"; "bestfit"; "ssps"; "emission"; "apoly"; "mpoly";
          "goodpixels"; "reddening"; "sky"; "noise"]
    /\ sf_table p !! 7%nat = Some ("goodpixels", VInts col)
    /\ length col = length lam
    /\ (forall i, i ∈ np_where (map (Z.eqb 1) col)
                  <-> i ∈ pp_goodpixels pp /\ (i < length lam)%nat)
    /\ (StronglySorted lt (pp_goodpixels pp) ->
        Forall (fun i => (i < length lam)%nat) (pp_goodpixels pp) ->
        np_where (map (Z.eqb 1) col) = pp_goodpixels pp).
Proof.
  unfold save, write_file.
  destruct (fs w0 !! logdir) as [files|] eqn:Hdir; [|discriminate].
  intros [= <-]. eexists _, _. split; [|split; [|split; [|split; [|split]]]].
  - unfold lookup_file. cbn [fs]. rewrite lookup_insert_eq.
    cbn [mbind option_bind]. apply lookup_insert_eq.
  - reflexivity.
  - reflexivity.
  - unfold arange. now rewrite length_map, length_seq.
  - intros i. apply indicator_decodes.
  - intros Hsorted Hrange. apply sorted_ext.
    + apply np_where_from_sorted.
    + exact Hsorted.
    + intros i. rewrite indicator_decodes. split; [tauto|].
      intros Hi. split; [exact Hi|].
      rewrite Forall_forall in Hrange. now apply Hrange.
Qed.

Lemma saved_goodpixels_round_trip_witness :
  let z := F64.of_Z in
  let pp := PpxfObj [[z 1]; [z 1]; [z 1]] (-1) 0 [z 1] None None None
                    [z 1; z 2; z 3] [z 4; z 5; z 6] [z 1; z 2; z 3]
                    [z 1; z 1; z 1] [0; 2]%nat 1 [[z 0; z 1; z 0; z 0]]
                    [[z 0; z 1; z 0; z 0]] (z 1) in
  let a := Arrays [z 0; z 0; z 0] [z 1; z 1; z 1] [z 1; z 1; z 1] [z 1] [] []
                  [z 1; z 1; z 1] [z 0; z 0; z 0] [z 0; z 0; z 0] in
  let s := SnInfo (z 2) (z 1) (z 2) in
  let w0 := World {["/log" := ∅]} "/" [] in
  exists p col,
    lookup_file (save pp a s [z 4; z 5; z 6] "spec" "SPEC" (z 0) 20 0 1
                      "/log" w0).1 "/log" ("spec" ++ ".pkl")
    = Some (Pickle p)
    /\ (sf_table p).*1
       = ["wave"; "flux"; "bestfit"; "ssps"; "emission"; "apoly"; "mpoly";
          "goodpixels"; "reddening"; "sky"; "noise"]
    /\ sf_table p !! 7%nat = Some ("goodpixels", VInts col)
    /\ length col = 3%nat
    /\ (forall i, i ∈ np_where (map (Z.eqb 1) col)
                  <-> i ∈ [0; 2]%nat /\ (i < 3)%nat)
    /\ (StronglySorted lt [0; 2]%nat ->
        Forall (fun i => (i < 3)%nat) [0; 2]%nat ->
        np_where (map (Z.eqb 1) col) = [0; 2]%nat).
Proof.
  intros z pp a s w0.
  apply (saved_goodpixels_round_trip pp a s [z 4; z 5; z 6] "spec" "SPEC"
           (z 0) 20 0 1 "/log" w0).
  vm_compute. reflexivity.
Defined.

(* ===================================================================== *)
(** * Further properties of [make_table] *)
(* ===================================================================== *)

Lemma filter_none (P : string -> Prop) `{!forall x, Decision (P x)}
  (l : list string) :
  Forall (fun x => ~ P x) l -> filter P l = [].
Proof.
  induction 1 as [|x l Hx _ IH]; [reflexivity|].
  now rewrite filter_cons_False.
Qed.

Lemma load_rows_ok (pkls : list string) :
  forall w w' rows,
    load_rows pkls w = (w', Ok rows) ->
    Forall2 (fun fname row =>
               exists p, lookup_file w (cwd w) fname = Some (Pickle p)
                         /\ summary_row_of p = Ok row) pkls rows.
Proof.
  induction pkls as [|fname rest IH]; intros w w' rows.
  - simpl. unfold ret. intros [= <- <-]. constructor.
  - simpl. unfold bind, getcwd, read_file, lift.
    destruct (lookup_file w (cwd w) fname) as [f|] eqn:Hf; [|discriminate].
    simpl. destruct f as [| | | |p| | |]; try discriminate. simpl.
    destruct (summary_row_of p) as [row|] eqn:Hrow; [|discriminate].
    destruct (load_rows rest w) as [w1 [more|e]] eqn:Hrest; [|discriminate].
    unfold ret. intros [= <- <-]. constructor; [eauto|].
    now apply (IH w w1).
Qed.

(** [make_table] on a log directory without any pickle: the gate passed, the
    directory is entered and [sols[0]] of the empty array raises
    [IndexError]; no table is written and the working directory is left at
    the log directory. *)
Theorem make_table_without_fits (galaxy_dir : string) (w1 w2 targetSN : Z)
  (velscale : option Z) (redo : bool) (w : world) (files : gmap string file) :
  let vs := default 20 velscale in
  let logdir := logdir_of (data_dir_of galaxy_dir targetSN) vs w1 w2 targetSN in
  lookup_file w galaxy_dir (summary_name vs w1 w2 targetSN) = None
  \/ redo = true ->
  fs w !! logdir = Some files ->
  Forall (fun n => endswith n "pkl" = false) (map_to_list files).*1 ->
  make_table galaxy_dir w1 w2 targetSN velscale redo w
  = (World (fs w) logdir (fitlog w), Raise IndexError).
Proof.
  intros vs logdir Hgo Hdir Hnone.
  unfold make_table, bind, getcwd, file_exists. fold vs. fold logdir.
  assert (Hgate : bool_decide (is_Some (lookup_file w galaxy_dir
                                          (summary_name vs w1 w2 targetSN)))
                  && negb redo = false).
  { destruct Hgo as [Hno | ->]; [|apply andb_false_r].
    rewrite bool_decide_eq_false_2; [reflexivity|].
    rewrite Hno. now intros [? ?]. }
  rewrite Hgate. unfold chdir at 1. rewrite Hdir.
  unfold listdir. cbn [cwd fs]. rewrite Hdir.
  rewrite filter_none; [reflexivity|].
  eapply Forall_impl; [exact Hnone|]. intros n Hn. now rewrite Hn.
Qed.

(** A summary that [make_table] has written holds one row for each pickle
    of the log directory, in the order of the sorted file names, made of what
    that pickle stores; the working directory is the one of the caller
    again. *)
Theorem make_table_summarises_every_fit (galaxy_dir : string)
  (w1 w2 targetSN : Z) (velscale : option Z) (redo : bool) (w wf : world) :
  let vs := default 20 velscale in
  let logdir := logdir_of (data_dir_of galaxy_dir targetSN) vs w1 w2 targetSN in
  let output := summary_name vs w1 w2 targetSN in
  lookup_file w galaxy_dir output = None \/ redo = true ->
  make_table galaxy_dir w1 w2 targetSN velscale redo w = (wf, Ok tt) ->
  exists files rows,
    fs w !! logdir = Some files
    /\ lookup_file wf galaxy_dir output = Some (Summary rows)
    /\ rows <> []
    /\ Forall2 (fun fname row =>
                  exists p, files !! fname = Some (Pickle p)
                            /\ summary_row_of p = Ok row)
               (sorted (filter (fun n => Is_true (endswith n "pkl"))
                               (map_to_list files).*1)) rows
    /\ cwd wf = cwd w
    /\ (forall d, d <> galaxy_dir -> fs wf !! d = fs w !! d).
Proof.
  intros vs logdir output Hgo.
  unfold make_table, bind, getcwd, file_exists. fold vs. fold logdir.
  fold output.
  assert (Hgate : bool_decide (is_Some (lookup_file w galaxy_dir output))
                  && negb redo = false).
  { destruct Hgo as [Hno | ->]; [|apply andb_false_r].
    rewrite bool_decide_eq_false_2; [reflexivity|].
    rewrite Hno. now intros [? ?]. }
  rewrite Hgate. unfold chdir at 1.
  destruct (fs w !! logdir) as [files|] eqn:Hdir; [|discriminate].
  unfold listdir. cbn [cwd fs]. rewrite Hdir.
  match goal with |- context [load_rows ?l ?w0] =>
    pose proof (load_rows_world l w0) as Hworld;
    pose proof (load_rows_ok l w0) as Hrows;
    destruct (load_rows l w0) as [w' [rows|e]] end; [|discriminate].
  simpl in Hworld. subst w'. specialize (Hrows _ _ eq_refl).
  unfold lift. destruct rows as [|row rows]; [discriminate|].
  unfold write_file. cbn [cwd fs fitlog].
  destruct (fs w !! galaxy_dir) as [gfiles|] eqn:Hgal; [|discriminate].
  unfold chdir. cbn [cwd fs fitlog].
  destruct (_ !! cwd w); [|discriminate].
  intros [= <-]. exists files, (row :: rows).
  split; [reflexivity|]. split.
  { unfold lookup_file. cbn [fs]. rewrite lookup_insert_eq.
    cbn [mbind option_bind]. apply lookup_insert_eq. }
  split; [discriminate|]. split.
  { eapply Forall2_impl; [exact Hrows|]. cbn [cwd]. unfold lookup_file.
    cbn [fs]. rewrite Hdir. cbn [mbind option_bind]. auto. }
  split; [reflexivity|].
  intros d Hd. cbn [fs]. now rewrite lookup_insert_ne.
Qed.

Lemma make_table_without_fits_witness :
  let w := Scenario.entered Scenario.good_alone in
  make_table "/data" 8500 13500 40 None true w
  = (World (fs w) (logdir_of (data_dir_of "/data" 40) 20 8500 13500 40)
           (fitlog w), Raise IndexError).
Proof.
  intros w.
  apply (make_table_without_fits "/data" 8500 13500 40 None true w ∅).
  - now right.
  - vm_compute. reflexivity.
  - vm_compute. constructor.
Defined.

Lemma make_table_summarises_every_fit_witness :
  let w := (Scenario.run false Scenario.good_alone).1 in
  let wf := (make_table "/data" 8500 13500 40 (Some 20) true w).1 in
  exists files rows,
    fs w !! logdir_of (data_dir_of "/data" 40) 20 8500 13500 40 = Some files
    /\ lookup_file wf "/data" (summary_name 20 8500 13500 40)
       = Some (Summary rows)
    /\ rows <> []
    /\ Forall2 (fun fname row =>
                  exists p, files !! fname = Some (Pickle p)
                            /\ summary_row_of p = Ok row)
               (sorted (filter (fun n => Is_true (endswith n "pkl"))
                               (map_to_list files).*1)) rows
    /\ cwd wf = cwd w
    /\ (forall d, d <> "/data" -> fs wf !! d = fs w !! d).
Proof.
  intros w wf.
  apply (make_table_summarises_every_fit "/data" 8500 13500 40 (Some 20)
           true w wf).
  - now right.
  - vm_compute. reflexivity.
Defined.

(* ===================================================================== *)
(** * Further properties of [select_templates] *)
(* ===================================================================== *)

(** Whatever path led to it, a reduced bank that [select_templates] has
    handed over is there: asking again with [redo] off returns the same
    path and leaves the world as it is. *)
Theorem select_templates_again (templates_file : string * string)
  (ppdir : string) (redo : bool) (w w' : world) (out : string * string) :
  select_templates templates_file ppdir redo w = (w', Ok out) ->
  out = subsample_path templates_file
  /\ is_Some (lookup_file w' out.1 out.2)
  /\ select_templates templates_file ppdir false w' = (w', Ok out).
Proof.
  intros Hrun.
  assert (Hout : out = subsample_path templates_file
                 /\ is_Some (lookup_file w' out.1 out.2)).
  { revert Hrun. unfold select_templates, bind, file_exists.
    destruct (bool_decide (is_Some (lookup_file w _ _))) eqn:Hthere;
      destruct redo; cbn [negb andb].
    2: { unfold ret. intros [= <- <-]. split; [reflexivity|].
         now apply bool_decide_eq_true_1 in Hthere. }
    all: unfold listdir;
      destruct (fs w !! ppdir) as [files|]; [|discriminate];
      match goal with |- context [read_indices ?d ?l ?w0] =>
        pose proof (read_indices_world d l w0) as Hworld;
        destruct (read_indices d l w0) as [w1 [recorded|e]] end;
      [|discriminate]; simpl in Hworld; subst w1;
      unfold lift; destruct (hstack recorded) as [idx|]; [|discriminate];
      unfold read_file;
      destruct (lookup_file w templates_file.1 templates_file.2) as [f|];
      [|discriminate]; cbn [of_option];
      destruct f as [| |bank| | | | |]; try discriminate;
      destruct (take_idx (sb_ssps bank) _) as [rows|]; [|discriminate];
      destruct (take_idx (sb_params bank) _) as [params|]; [|discriminate];
      unfold write_file;
      destruct (fs w !! (subsample_path templates_file).1) as [ofiles|];
      [|discriminate]; unfold ret; intros [= <- <-];
      (split; [reflexivity|]); unfold lookup_file; cbn [fs];
      rewrite lookup_insert_eq; cbn [mbind option_bind];
      rewrite lookup_insert_eq; eauto. }
  destruct Hout as [-> Hthere]. split; [reflexivity|]. split; [exact Hthere|].
  now apply select_templates_skip.
Qed.

Lemma select_templates_again_witness :
  let w' := (Subsample.select Subsample.start).1 in
  let out := ("/out", "emiles_subsample.fits") in
  out = subsample_path ("/out", "emiles.fits")
  /\ is_Some (lookup_file w' out.1 out.2)
  /\ select_templates ("/out", "emiles.fits") "/out/ppxf_sn40" false w'
     = (w', Ok out).
Proof.
  intros w' out.
  apply (select_templates_again ("/out", "emiles.fits") "/out/ppxf_sn40"
           false Subsample.start w' out).
  vm_compute. reflexivity.
Defined.

(** When the reduced bank has to be built and no file of the directory of
    fits is a weights table, [np.hstack] of line 48 has nothing to stack:
    [ValueError] is raised, nothing is read from the bank and nothing is
    written. *)
Theorem select_templates_needs_a_fit (templates_file : string * string)
  (ppdir : string) (redo : bool) (w : world) (files : gmap string file) :
  lookup_file w (subsample_path templates_file).1
                (subsample_path templates_file).2 = None
  \/ redo = true ->
  fs w !! ppdir = Some files ->
  Forall (fun n => endswith n "weights.fits" = false) (map_to_list files).*1 ->
  select_templates templates_file ppdir redo w = (w, Raise ValueError).
Proof.
  intros Hgo Hdir Hnone. unfold select_templates, bind, file_exists.
  assert (Hgate : bool_decide (is_Some (lookup_file w
                                          (subsample_path templates_file).1
                                          (subsample_path templates_file).2))
                  && negb redo = false).
  { destruct Hgo as [Hno | ->]; [|apply andb_false_r].
    rewrite bool_decide_eq_false_2; [reflexivity|].
    rewrite Hno. now intros [? ?]. }
  rewrite Hgate. unfold listdir. rewrite Hdir.
  rewrite filter_none; [reflexivity|].
  eapply Forall_impl; [exact Hnone|]. intros n Hn. now rewrite Hn.
Qed.

Lemma select_templates_needs_a_fit_witness :
  Subsample.select Subsample.unfitted = (Subsample.unfitted, Raise ValueError).
Proof.
  apply (select_templates_needs_a_fit ("/out", "emiles.fits") "/out/ppxf_sn40"
           false Subsample.unfitted {["spec_0001.png" := Image "SPEC 0001"]}).
  - left. vm_compute. reflexivity.
  - vm_compute. reflexivity.
  - match goal with |- Forall _ ?l =>
      replace l with ["spec_0001.png"] by (vm_compute; reflexivity) end.
    apply List.Forall_cons; [vm_compute; reflexivity|]. apply List.Forall_nil.
Defined.

(** ** The noise handed to the fitter *)

Section Noise.
Context `{External}.



End Noise.



(** A fit without any good pixel cannot be plotted: the selections by
    [goodpixels] are empty and [self.w[self.goodpixels][0]] of line 111
    raises [IndexError]; no figure is written. *)
Theorem plot_needs_a_good_pixel (pp : ppxf_obj) (a : arrays)
  (lam : list float) (title dir name : string) (w : world) :
  pp_goodpixels pp = [] ->
  plot pp a lam title dir name w = (w, Raise IndexError).
Proof.
  intros Hgp.
  assert (Hchecks : plot_checks pp a lam = Raise IndexError).
  { unfold plot_checks. rewrite Hgp.
    destruct (1 <? pp_ncomp pp)%Z;
      [destruct (pp_sol pp !! 0%nat), (pp_error pp !! 0%nat),
                (pp_sol pp !! 1%nat), (pp_error pp !! 1%nat)|];
      simpl; try reflexivity;
      destruct (pp_ncomp pp =? 2)%Z; reflexivity. }
  unfold plot, bind, lift. now rewrite Hchecks.
Qed.

Lemma plot_needs_a_good_pixel_witness :
  let z := F64.of_Z in
  let pp := PpxfObj [[z 1]; [z 1]; [z 1]] (-1) 0 [z 1] None None None
                    [z 1; z 2; z 3] [z 4; z 5; z 6] [z 1; z 2; z 3]
                    [z 1; z 1; z 1] [] 1 [[z 0; z 1; z 0; z 0]]
                    [[z 0; z 1; z 0; z 0]] (z 1) in
  let a := Arrays [z 0; z 0; z 0] [z 1; z 1; z 1] [z 1; z 1; z 1] [z 1] [] []
                  [z 1; z 1; z 1] [z 0; z 0; z 0] [z 0; z 0; z 0] in
  let w := World {["/log" := ∅]} "/" [] in
  plot pp a [z 4; z 5; z 6] "SPEC" "/log" "spec.png" w = (w, Raise IndexError).
Proof.
  intros z pp a w.
  apply (plot_needs_a_good_pixel pp a [z 4; z 5; z 6] "SPEC" "/log" "spec.png" w).
  reflexivity.
Defined.

Lemma substring_skip (c : Ascii.ascii) (s : string) (n k : nat) :
  String.substring (S n) k (String c s) = String.substring n k s.
Proof. reflexivity. Qed.

Lemma substring_all (b : string) :
  String.substring 0 (String.length b) b = b.
Proof. induction b as [|d b IH]; simpl; [reflexivity | now rewrite IH]. Qed.

Lemma substring_app_r (a b : string) :
  String.substring (String.length a) (String.length b) (a ++ b) = b.
Proof.
  induction a as [|c a IH]; [apply substring_all | exact IH].
Qed.

Lemma endswith_app (a b : string) : endswith (a ++ b) b = true.
Proof.
  unfold endswith. rewrite string_length_app.
  replace (String.length a + String.length b - String.length b)%nat
    with (String.length a) by lia.
  rewrite substring_app_r, String.eqb_refl.
  apply andb_true_iff. split; [|reflexivity]. apply Nat.leb_le. lia.
Qed.

Lemma string_app_empty (s : string) : s ++ "" = s.
Proof.
  induction s as [|c s IH]; [reflexivity|].
  change (String c (s ++ "") = String c s). now rewrite IH.
Qed.

Lemma replace_from_no_dot (stem rest : string) :
  has_char dot stem = false ->
  replace_from ".fits" "" 0 (stem ++ rest)
  = stem ++ replace_from ".fits" "" 0 rest.
Proof.
  induction stem as [|c stem IH]; intros Hdot; [reflexivity|].
  cbn [has_char] in Hdot. apply orb_false_iff in Hdot as [Hc Hstem].
  change (String c stem ++ rest) with (String c (stem ++ rest)).
  cbn [replace_from String.prefix]. unfold dot in Hc.
  destruct (Ascii.ascii_dec _ c) as [Heq|Hne].
  - subst c. rewrite Ascii.eqb_refl in Hc. discriminate.
  - change (String c stem ++ replace_from ".fits" "" 0 rest)
      with (String c (stem ++ replace_from ".fits" "" 0 rest)).
    f_equal. now apply IH.
Qed.

(** Lines 196-199 on a file [stem.fits] whose stem has no dot: the file is
    taken as a spectrum of the batch and its name, from which the pickle and
    the figure are named, is the stem. *)
Theorem spectrum_name_is_the_stem (stem : string) :
  has_char dot stem = false ->
  endswith (stem ++ ".fits") ".fits" = true
  /\ replace (stem ++ ".fits") ".fits" "" = stem.
Proof.
  intros Hdot. split; [apply endswith_app|].
  unfold replace. rewrite replace_from_no_dot by exact Hdot.
  change (replace_from ".fits" "" 0 ".fits") with "".
  apply string_app_empty.
Qed.

Lemma spectrum_name_is_the_stem_witness :
  endswith ("spec_0001" ++ ".fits") ".fits" = true
  /\ replace ("spec_0001" ++ ".fits") ".fits" "" = "spec_0001".
Proof. apply (spectrum_name_is_the_stem "spec_0001"). reflexivity. Defined.

(* ===================================================================== *)
(** * The parameter caller *)
(* ===================================================================== *)

Lemma fromkeys_from (names : list string) :
  forall acc,
    NoDup acc ->
    let keys := fold_left (fun keys n => if bool_decide (n ∈ keys) then keys
                                         else (keys ++ [n])%list) names acc in
    NoDup keys
    /\ (forall x, x ∈ keys <-> x ∈ acc \/ x ∈ names)
    /\ (NoDup (acc ++ names) -> keys = (acc ++ names)%list).
Proof.
  induction names as [|n names IH]; intros acc Hacc; simpl.
  - split; [exact Hacc|]. split; [|now rewrite app_nil_r].
    intros x. split; [now left|]. intros [?|Hx]; [assumption | inversion Hx].
  - destruct (bool_decide_reflect (n ∈ acc)) as [Hin|Hnin].
    + destruct (IH acc Hacc) as (Hnd & Hel & Heq). split; [exact Hnd|]. split.
      * intros x. rewrite Hel, elem_of_cons. split; [tauto|].
        intros [?|[->|?]]; auto.
      * intros Hall. exfalso. apply NoDup_app in Hall as (_ & Hdisj & _).
        apply (Hdisj n Hin). now left.
    + assert (Hacc' : NoDup (acc ++ [n])).
      { apply NoDup_app. split; [exact Hacc|]. split; [|apply NoDup_singleton].
        intros x Hx Hx'. apply list_elem_of_singleton in Hx'. now subst. }
      destruct (IH (acc ++ [n])%list Hacc') as (Hnd & Hel & Heq).
      split; [exact Hnd|]. split.
      * intros x. rewrite Hel, elem_of_app, list_elem_of_singleton, elem_of_cons.
        tauto.
      * intros Hall. rewrite <- app_assoc in Heq. apply Heq. exact Hall.
Qed.

Lemma fold_insert_lookup (v : float) (idx : list nat) :
  forall (t : list float) (j : nat),
    fold_left (fun t i => <[i := v]> t) idx t !! j
    = if bool_decide (j ∈ idx /\ (j < length t)%nat) then Some v else t !! j.
Proof.
  induction idx as [|i idx IH]; intros t j; cbn [fold_left].
  - rewrite bool_decide_eq_false_2; [reflexivity|].
    intros [Hj _]. inversion Hj.
  - rewrite IH, length_insert.
    destruct (decide (j < length t)%nat) as [Hlt|Hge].
    + destruct (decide (j ∈ idx)) as [Hin|Hnin].
      * rewrite !bool_decide_eq_true_2; [reflexivity| |]; split; auto.
        now right.
      * rewrite (bool_decide_eq_false_2 (j ∈ idx /\ _)) by tauto.
        destruct (decide (j = i)) as [->|Hne].
        -- rewrite list_lookup_insert_eq by exact Hlt.
           rewrite bool_decide_eq_true_2; [reflexivity|]. split; [now left|auto].
        -- rewrite list_lookup_insert_ne by congruence.
           rewrite bool_decide_eq_false_2; [reflexivity|].
           intros [Hj _]. apply elem_of_cons in Hj as [?|?]; auto.
    + rewrite !bool_decide_eq_false_2 by tauto.
      rewrite !lookup_ge_None_2; [reflexivity| |]; rewrite ?length_insert; lia.
Qed.

Lemma elem_of_where_name (names : list string) (param : string) (j : nat) :
  j ∈ Paintbox.where_name names param <-> names !! j = Some param.
Proof.
  unfold Paintbox.where_name. rewrite elem_of_np_where.
  change (map (fun n => String.eqb n param) names)
    with ((fun n => String.eqb n param) <$> names).
  rewrite list_lookup_fmap.
  destruct (names !! j) as [n|]; simpl; [|split; discriminate].
  destruct (String.eqb_spec n param) as [->|Hne]; split; try congruence.
Qed.

(** The assignment of one value: the positions of [param] receive it, the
    others are kept. *)
Lemma set_at_spec (names : list string) (param : string) (v : float)
  (t : list float) :
  length t = length names ->
  exists t1,
    Paintbox.set_at (Paintbox.where_name names param) v t = Ok t1
    /\ length t1 = length names
    /\ forall j, t1 !! j = if bool_decide (names !! j = Some param)
                           then Some v else t !! j.
Proof.
  intros Hlen. unfold Paintbox.set_at.
  assert (Hall : forallb (fun i => (i <? length t)%nat)
                         (Paintbox.where_name names param) = true).
  { apply forallb_forall. intros i Hi. apply list_elem_of_In in Hi.
    apply elem_of_where_name, lookup_lt_Some in Hi.
    apply Nat.ltb_lt. lia. }
  rewrite Hall. eexists. split; [reflexivity|]. split.
  - rewrite <- Hlen. clear. generalize t.
    induction (Paintbox.where_name names param) as [|i idx IH]; intros t0;
      cbn [fold_left]; [reflexivity|]. now rewrite IH, length_insert.
  - intros j. rewrite fold_insert_lookup.
    destruct (bool_decide_reflect (names !! j = Some param)) as [Hj|Hj].
    + rewrite bool_decide_eq_true_2; [reflexivity|].
      split; [now apply elem_of_where_name|].
      apply lookup_lt_Some in Hj. lia.
    + rewrite bool_decide_eq_false_2; [reflexivity|].
      intros [Hin _]. now apply elem_of_where_name in Hin.
Qed.

Lemma idxs_lookup (names : list string) (keys : list string) :
  forall (acc : gmap string (list nat)) (p : string),
    fold_left (fun idxs param =>
                 <[param := Paintbox.where_name names param]> idxs) keys acc
    !! p
    = if bool_decide (p ∈ keys) then Some (Paintbox.where_name names p)
      else acc !! p.
Proof.
  induction keys as [|k keys IH]; intros acc p; cbn [fold_left].
  - rewrite bool_decide_eq_false_2; [reflexivity|]. intros Hp. inversion Hp.
  - rewrite IH. destruct (decide (p ∈ keys)) as [Hin|Hnin].
    + rewrite !bool_decide_eq_true_2; [reflexivity| |]; [now right|exact Hin].
    + rewrite (bool_decide_eq_false_2 (p ∈ keys)) by exact Hnin.
      destruct (decide (p = k)) as [->|Hne].
      * rewrite lookup_insert_eq, bool_decide_eq_true_2; [reflexivity|now left].
      * rewrite lookup_insert_ne by congruence.
        rewrite bool_decide_eq_false_2; [reflexivity|].
        intros Hp. apply elem_of_cons in Hp as [?|?]; auto.
Qed.

(** The loop of [__call__] over pairs with distinct names, each known to the
    caller. *)
Lemma fill_spec (names : list string) (c : Paintbox.caller)
  (pairs : list (string * float)) :
  forall t,
    (forall p, p ∈ pairs.*1 ->
               Paintbox.idxs c !! p = Some (Paintbox.where_name names p)) ->
    NoDup pairs.*1 ->
    length t = length names ->
    exists t',
      Paintbox.fill c pairs t = Ok t'
      /\ length t' = length names
      /\ forall j name,
           names !! j = Some name ->
           (forall v, (name, v) ∈ pairs -> t' !! j = Some v)
           /\ (name ∉ pairs.*1 -> t' !! j = t !! j).
Proof.
  induction pairs as [|[param val] rest IH]; intros t Hknown Hnd Hlen.
  - exists t. split; [reflexivity|]. split; [exact Hlen|].
    intros j name _. split; [|reflexivity]. intros v Hv. inversion Hv.
  - cbn [fmap list_fmap fst] in Hknown, Hnd. apply NoDup_cons in Hnd as [Hfresh Hnd].
    cbn [Paintbox.fill]. rewrite (Hknown param) by now left.
    cbn [of_option mbind result_bind rbind].
    destruct (set_at_spec names param val t Hlen) as (t1 & -> & Hlen1 & Ht1).
    cbn [mbind result_bind rbind].
    destruct (IH t1) as (t' & Hfill & Hlen' & Ht'); [|exact Hnd|exact Hlen1|].
    { intros p Hp. apply Hknown. now right. }
    exists t'. split; [exact Hfill|]. split; [exact Hlen'|].
    intros j name Hj. destruct (Ht' j name Hj) as [Hin Hout]. split.
    + intros v Hv. apply elem_of_cons in Hv as [[= -> ->]|Hv]; [|now apply Hin].
      rewrite Hout by exact Hfresh. rewrite Ht1.
      now rewrite bool_decide_eq_true_2.
    + intros Hnot. cbn [fmap list_fmap fst] in Hnot.
      apply not_elem_of_cons in Hnot as [Hne Hnot].
      rewrite Hout by exact Hnot. rewrite Ht1.
      rewrite bool_decide_eq_false_2; [reflexivity|]. congruence.
Qed.

Lemma fromkeys_spec (names : list string) :
  NoDup (Paintbox.fromkeys names)
  /\ (forall x, x ∈ Paintbox.fromkeys names <-> x ∈ names)
  /\ (NoDup names -> Paintbox.fromkeys names = names).
Proof.
  destruct (fromkeys_from names [] (NoDup_nil_2)) as (Hnd & Hel & Heq).
  split; [exact Hnd|]. split; [|exact Heq].
  intros x. unfold Paintbox.fromkeys. rewrite Hel. split; [|now right].
  intros [Hx|Hx]; [inversion Hx | exact Hx].
Qed.

Lemma elem_of_zip_fst (l : list string) (k : list float) (p : string) :
  p ∈ (zip l k).*1 <-> exists i v, l !! i = Some p /\ k !! i = Some v.
Proof.
  rewrite list_elem_of_fmap. split.
  - intros ([p' v] & -> & Hin).
    apply elem_of_lookup_zip_with in Hin as (i & x & y & [= <- <-] & Hx & Hy).
    eauto.
  - intros (i & v & Hp & Hv). exists (p, v). split; [reflexivity|].
    apply elem_of_lookup_zip_with. eauto 10.
Qed.

Lemma zip_fst_NoDup (l : list string) :
  NoDup l -> forall k : list float, NoDup (zip l k).*1.
Proof.
  induction 1 as [|x l Hx _ IH]; intros [|y k]; try apply NoDup_nil_2.
  cbn [zip zip_with fmap list_fmap fst]. apply NoDup_cons. split; [|apply IH].
  intros Hin. apply elem_of_zip_fst in Hin as (i & v & Hp & _).
  apply Hx. eapply list_elem_of_lookup_2. exact Hp.
Qed.

(** What [__call__] hands to the wrapped model. *)
Lemma expand_spec (names : list string) (theta : list float) :
  exists t,
    Paintbox.expand (Paintbox.init names) theta = Ok t
    /\ length t = length names
    /\ forall j name,
         names !! j = Some name ->
         exists k, Paintbox.parnames (Paintbox.init names) !! k = Some name
                   /\ t !! j = Some (default F64.zero (theta !! k)).
Proof.
  destruct (fromkeys_spec names) as (Hnd & Hel & _).
  unfold Paintbox.expand. cbn [Paintbox.init Paintbox.parnames Paintbox.shape].
  destruct (fill_spec names (Paintbox.init names)
              (zip (Paintbox.fromkeys names) theta)
              (replicate (length names) F64.zero))
    as (t & Hfill & Hlen & Ht).
  - intros p Hp. apply elem_of_zip_fst in Hp as (i & v & Hp & _).
    cbn [Paintbox.init Paintbox.idxs]. rewrite idxs_lookup.
    rewrite bool_decide_eq_true_2; [reflexivity|].
    eapply list_elem_of_lookup_2. exact Hp.
  - now apply zip_fst_NoDup.
  - apply length_replicate.
  - exists t. split; [exact Hfill|]. split; [exact Hlen|].
    intros j name Hj. destruct (Ht j name Hj) as [Hin Hout].
    assert (Hname : name ∈ Paintbox.fromkeys names).
    { apply Hel. eapply list_elem_of_lookup_2. exact Hj. }
    apply list_elem_of_lookup_1 in Hname as [k Hk]. exists k.
    split; [exact Hk|]. destruct (theta !! k) as [v|] eqn:Hv; simpl.
    + apply Hin. apply elem_of_lookup_zip_with. eauto 10.
    + rewrite Hout.
      * apply lookup_replicate_2. now apply lookup_lt_Some in Hj.
      * intros Hp. apply elem_of_zip_fst in Hp as (i & v & Hp & Hi).
        rewrite (NoDup_lookup _ _ _ _ Hnd Hp Hk) in Hi. congruence.
Qed.



(** [CvDCaller.__call__]: whatever the length of [theta], the call returns
    the wrapped model on a vector as long as the model's list of names, in
    which the entry of a name holds the value that [theta] has at the
    position of that name among the parameters of the caller, or zero when
    [theta] is too short for it: entries with the same name are tied to one
    value, and values of [theta] beyond the parameters are ignored. *)
Theorem caller_ties_parameters (names : list string) (theta : list float)
  (A : Type) (sed : list float -> A) :
  exists t,
    Paintbox.call sed (Paintbox.init names) theta = Ok (sed t)
    /\ Paintbox.expand (Paintbox.init names) theta = Ok t
    /\ length t = length names
    /\ forall j name,
         names !! j = Some name ->
         exists k, Paintbox.parnames (Paintbox.init names) !! k = Some name
                   /\ t !! j = Some (default F64.zero (theta !! k)).
Proof.
  destruct (expand_spec names theta) as (t & Hexp & Hlen & Ht).
  exists t. unfold Paintbox.call. rewrite Hexp. auto.
Qed.

Lemma caller_ties_parameters_witness :
  let names := ["Z"; "Age"; "Z"] in
  let theta := [F64.of_Z 1; F64.of_Z 2] in
  exists t,
    Paintbox.call (fun t => t) (Paintbox.init names) theta = Ok t
    /\ Paintbox.expand (Paintbox.init names) theta = Ok t
    /\ length t = length names
    /\ forall j name,
         names !! j = Some name ->
         exists k, Paintbox.parnames (Paintbox.init names) !! k = Some name
                   /\ t !! j = Some (default F64.zero (theta !! k)).
Proof.
  intros names theta.
  apply (caller_ties_parameters names theta _ (fun t => t)).
Defined.

(** A model whose names are distinct is called as it is: the vector handed
    to it is [theta] itself. *)
Theorem caller_is_transparent (names : list string) (theta : list float)
  (A : Type) (sed : list float -> A) :
  NoDup names ->
  length theta = length names ->
  Paintbox.call sed (Paintbox.init names) theta = Ok (sed theta).
Proof.
  intros Hnd Hlen.
  destruct (expand_spec names theta) as (t & Hexp & Hlent & Ht).
  destruct (fromkeys_spec names) as (_ & _ & Heq).
  unfold Paintbox.call. rewrite Hexp. cbn [mbind result_bind rbind].
  do 2 f_equal. apply list_eq. intros j.
  destruct (names !! j) as [name|] eqn:Hj.
  - destruct (Ht j name Hj) as (k & Hk & ->).
    cbn [Paintbox.init Paintbox.parnames] in Hk. rewrite (Heq Hnd) in Hk.
    rewrite (NoDup_lookup _ _ _ _ Hnd Hk Hj).
    destruct (theta !! j) as [v|] eqn:Hv; [reflexivity|].
    apply lookup_lt_Some in Hj. apply lookup_ge_None in Hv. lia.
  - apply lookup_ge_None in Hj.
    rewrite !lookup_ge_None_2; [reflexivity| |]; lia.
Qed.

Lemma caller_is_transparent_witness :
  Paintbox.call (fun t => t) (Paintbox.init ["Z"; "Age"; "V"])
                [F64.of_Z 1; F64.of_Z 2; F64.of_Z 3]
  = Ok [F64.of_Z 1; F64.of_Z 2; F64.of_Z 3].
Proof.
  apply (caller_is_transparent ["Z"; "Age"; "V"]
           [F64.of_Z 1; F64.of_Z 2; F64.of_Z 3] _ (fun t => t)).
  - repeat (apply NoDup_cons; split;
            [intros Hin; repeat (apply elem_of_cons in Hin as [Hin|Hin];
                                 [discriminate|]); inversion Hin|]).
    apply NoDup_nil_2.
  - reflexivity.
Defined.

(* ===================================================================== *)
(** * Padding in [rebinstd] *)
(* ===================================================================== *)

Section Rebinstd.
Import Stdphot.

Lemma length_arange1 (n : Z) : length (arange1 n) = Z.to_nat (n - 1)%Z.
Proof. unfold arange1. now rewrite length_map, length_seq. Qed.

Lemma np_zeros_inv (n : Z) (z : list float) :
  np_zeros n = Done z -> (0 <= n)%Z /\ z = replicate (Z.to_nat n) F64.zero.
Proof.
  unfold np_zeros. destruct (Z.ltb_spec n 0); [discriminate|].
  intros [= <-]. auto.
Qed.

Lemma nan_free_zeros (n : nat) (l : list float) :
  Forall (fun x => F64.is_nan x = false) l ->
  Forall (fun x => F64.is_nan x = false) (replicate n F64.zero ++ l)
  /\ Forall (fun x => F64.is_nan x = false) (l ++ replicate n F64.zero).
Proof.
  intros Hl.
  assert (Hz : Forall (fun x => F64.is_nan x = false) (replicate n F64.zero)).
  { apply Forall_forall. intros x Hx. apply elem_of_replicate in Hx as [-> _].
    reflexivity. }
  split; apply Forall_app; auto.
Qed.

(** One padding step: the two data arrays stay as long as each other, stay
    free of NaN, and gain over the wavelengths one sample when the step
    pads, none when it does not. *)
Lemma pad_before_spec (refwave : list float) (dw : float) (a a' : arrays3) :
  pad_before refwave dw a = Done a' ->
  length a.2 = length a.1.2 -> nan_free a ->
  length a'.2 = length a'.1.2 /\ nan_free a'
  /\ exists w0 r0, first a.1.1 = Ok w0 /\ first refwave = Ok r0
     /\ if F64.leb r0 w0
        then exists k, int (F64.div (F64.sub w0 r0) dw) = Done k
                       /\ (-5 <= k)%Z
                       /\ excess a' = (excess a + (if k =? -5 then 0 else 1))%Z
        else a' = a.
Proof.
  destruct a as [[wave flux] fluxerr]. unfold pad_before, nan_free, excess.
  cbn [fst snd]. intros Hrun Hlen Hnan.
  destruct (first wave) as [w0|] eqn:Hw0; [|discriminate].
  destruct (first refwave) as [r0|] eqn:Hr0; [|discriminate].
  cbn [of_result mbind res_bind] in Hrun.
  destruct (F64.leb r0 w0) eqn:Hle.
  - destruct (int _) as [k|] eqn:Hk; [|discriminate].
    cbn [mbind res_bind] in Hrun.
    destruct (np_zeros (k + 5)%Z) as [z|] eqn:Hz; [|discriminate].
    cbn [mbind res_bind] in Hrun. injection Hrun as <-.
    apply np_zeros_inv in Hz as [Hpos ->]. cbn [fst snd].
    rewrite !length_app, !length_replicate, length_map, length_rev,
      length_arange1.
    split; [now rewrite Hlen|]. split; [now apply nan_free_zeros|].
    exists w0, r0. rewrite Hle. split; [reflexivity|]. split; [reflexivity|].
    exists k. split; [exact Hk|]. split; [lia|].
    destruct (Z.eqb_spec k (-5)%Z); lia.
  - injection Hrun as <-. cbn [fst snd]. split; [exact Hlen|].
    split; [exact Hnan|]. exists w0, r0. rewrite Hle. auto.
Qed.

Lemma pad_after_spec (refwave : list float) (dw : float) (a a' : arrays3) :
  pad_after refwave dw a = Done a' ->
  length a.2 = length a.1.2 -> nan_free a ->
  length a'.2 = length a'.1.2 /\ nan_free a'
  /\ exists w0 r0, first a.1.1 = Ok w0 /\ first refwave = Ok r0
     /\ if F64.leb w0 r0
        then exists rl wl k,
               last_elem refwave = Ok rl /\ last_elem a.1.1 = Ok wl
               /\ int (F64.div (F64.sub rl wl) dw) = Done k
               /\ (-5 <= k)%Z
               /\ excess a' = (excess a + (if k =? -5 then 0 else 1))%Z
        else a' = a.
Proof.
  destruct a as [[wave flux] fluxerr]. unfold pad_after, nan_free, excess.
  cbn [fst snd]. intros Hrun Hlen Hnan.
  destruct (first wave) as [w0|] eqn:Hw0; [|discriminate].
  destruct (first refwave) as [r0|] eqn:Hr0; [|discriminate].
  cbn [of_result mbind res_bind] in Hrun.
  destruct (F64.leb w0 r0) eqn:Hle.
  - destruct (last_elem refwave) as [rl|] eqn:Hrl; [|discriminate].
    destruct (last_elem wave) as [wl|] eqn:Hwl; [|discriminate].
    cbn [of_result mbind res_bind] in Hrun.
    destruct (int _) as [k|] eqn:Hk; [|discriminate].
    cbn [mbind res_bind] in Hrun.
    destruct (np_zeros (k + 5)%Z) as [z|] eqn:Hz; [|discriminate].
    cbn [mbind res_bind] in Hrun. injection Hrun as <-.
    apply np_zeros_inv in Hz as [Hpos ->]. cbn [fst snd].
    rewrite !length_app, !length_replicate, length_map, length_arange1.
    split; [now rewrite Hlen|]. split; [now apply nan_free_zeros|].
    exists w0, r0. rewrite Hle. split; [reflexivity|]. split; [reflexivity|].
    exists rl, wl, k. split; [reflexivity|]. split; [reflexivity|].
    split; [exact Hk|]. split; [lia|].
    destruct (Z.eqb_spec k (-5)%Z); lia.
  - injection Hrun as <-. cbn [fst snd]. split; [exact Hlen|].
    split; [exact Hnan|]. exists w0, r0. rewrite Hle. auto.
Qed.

Lemma start_spec (wave flux fluxerr : list float) :
  length flux = length wave -> length fluxerr = length wave ->
  let a := (wave, map (fun x => if F64.is_nan x then F64.zero else x) flux,
            fluxerr) in
  length a.2 = length a.1.2 /\ nan_free a /\ excess a = 0%Z.
Proof.
  intros Hf He. unfold nan_free, excess. cbn [fst snd].
  rewrite length_map. split; [congruence|]. split; [|lia].
  apply Forall_forall. intros x Hx. apply list_elem_of_In in Hx.
  apply in_map_iff in Hx as (y & <- & _).
  destruct (F64.is_nan y) eqn:Hy; [reflexivity|exact Hy].
Qed.

(** [rebinstd], lines 71-90: the arrays handed to the resampling. The flux
    and its uncertainty are as long as each other and the flux holds no NaN,
    but they are not as long as the wavelengths: each of the two padding steps
    that runs with a positive number of bins adds one sample more to them
    than to the wavelengths, so that they are longer by up to two samples. *)
Theorem rebinstd_arrays_lengths (refwave wave flux fluxerr : list float)
  (a' : arrays3) :
  length flux = length wave -> length fluxerr = length wave ->
  rebin_arrays refwave wave flux fluxerr = Done a' ->
  length a'.2 = length a'.1.2
  /\ nan_free a'
  /\ (length a'.1.1 <= length a'.1.2 <= length a'.1.1 + 2)%nat.
Proof.
  intros Hf He. unfold rebin_arrays.
  destruct (np_diff_first wave) as [dw|]; [|discriminate].
  cbn [mbind res_bind].
  destruct (pad_before refwave dw _) as [a1|] eqn:Hbefore; [|discriminate].
  cbn [mbind res_bind]. intros Hafter.
  destruct (start_spec wave flux fluxerr Hf He) as (Hlen0 & Hnan0 & Hex0).
  destruct (pad_before_spec _ _ _ _ Hbefore Hlen0 Hnan0)
    as (Hlen1 & Hnan1 & w0 & r0 & _ & _ & Hex1).
  destruct (pad_after_spec _ _ _ _ Hafter Hlen1 Hnan1)
    as (Hlen2 & Hnan2 & w1 & r1 & _ & _ & Hex2).
  split; [exact Hlen2|]. split; [exact Hnan2|].
  assert (Hstep1 : (excess a1 = 0 \/ excess a1 = 1)%Z).
  { destruct (F64.leb r0 w0).
    - destruct Hex1 as (k & _ & _ & ->). rewrite Hex0.
      destruct (k =? -5)%Z; auto.
    - subst a1. auto. }
  assert (Hstep2 : (excess a' = excess a1 \/ excess a' = excess a1 + 1)%Z).
  { destruct (F64.leb w1 r1).
    - destruct Hex2 as (rl & wl & k & _ & _ & _ & _ & ->).
      destruct (k =? -5)%Z; auto. left. lia.
    - subst a'. auto. }
  unfold excess in Hstep1, Hstep2. lia.
Qed.

Lemma rebinstd_arrays_lengths_witness :
  let z := F64.of_Z in
  exists a',
    rebin_arrays [z 1; z 2; z 3] [z 2; z 3] [z 1; F64.nan] [z 0; z 0] = Done a'
    /\ length a'.2 = length a'.1.2
    /\ nan_free a'
    /\ (length a'.1.1 <= length a'.1.2 <= length a'.1.1 + 2)%nat.
Proof.
  intros z. eexists. split; [vm_compute; reflexivity|].
  eapply (rebinstd_arrays_lengths [z 1; z 2; z 3] [z 2; z 3] [z 1; F64.nan]
            [z 0; z 0]).
  - reflexivity.
  - reflexivity.
  - vm_compute. reflexivity.
Defined.

(** [rebinstd], lines 79-84: when the wavelengths start at or after the
    reference and the number of bins is positive, the flux is padded with
    [nbins] zeros and the wavelengths with [nbins - 1] values: the arrays
    handed to the resampling do not have one length, although the columns of
    the table did. *)
Theorem rebinstd_left_padding_breaks_lengths
  (refwave wave flux fluxerr : list float) (a' : arrays3)
  (w0 r0 dw : float) (k : Z) :
  length flux = length wave -> length fluxerr = length wave ->
  rebin_arrays refwave wave flux fluxerr = Done a' ->
  first wave = Ok w0 -> first refwave = Ok r0 ->
  np_diff_first wave = Done dw ->
  F64.leb r0 w0 = true ->
  int (F64.div (F64.sub w0 r0) dw) = Done k -> k <> (-5)%Z ->
  (length a'.1.1 < length a'.1.2)%nat /\ (length a'.1.1 < length a'.2)%nat.
Proof.
  intros Hf He Hrun Hw0 Hr0 Hdw Hle Hk Hne. revert Hrun. unfold rebin_arrays.
  rewrite Hdw. cbn [mbind res_bind].
  destruct (pad_before refwave dw _) as [a1|] eqn:Hbefore; [|discriminate].
  cbn [mbind res_bind]. intros Hafter.
  destruct (start_spec wave flux fluxerr Hf He) as (Hlen0 & Hnan0 & Hex0).
  destruct (pad_before_spec _ _ _ _ Hbefore Hlen0 Hnan0)
    as (Hlen1 & Hnan1 & w0' & r0' & Hw0' & Hr0' & Hex1).
  cbn [fst snd] in Hw0'. rewrite Hw0 in Hw0'. rewrite Hr0 in Hr0'.
  injection Hw0' as <-. injection Hr0' as <-. rewrite Hle in Hex1.
  destruct Hex1 as (k' & Hk' & _ & Hex1). rewrite Hk in Hk'.
  injection Hk' as <-. rewrite Hex0 in Hex1.
  destruct (Z.eqb_spec k (-5)%Z) as [|_]; [contradiction|].
  destruct (pad_after_spec _ _ _ _ Hafter Hlen1 Hnan1)
    as (Hlen2 & Hnan2 & w1 & r1 & _ & _ & Hex2).
  assert (Hstep2 : (excess a' = excess a1 \/ excess a' = excess a1 + 1)%Z).
  { destruct (F64.leb w1 r1).
    - destruct Hex2 as (rl & wl & k2 & _ & _ & _ & _ & ->).
      destruct (k2 =? -5)%Z; auto. left. lia.
    - subst a'. auto. }
  unfold excess in Hex1, Hstep2. lia.
Qed.

Lemma rebinstd_left_padding_breaks_lengths_witness :
  let z := F64.of_Z in
  exists a',
    rebin_arrays [z 1; z 2; z 3] [z 2; z 3] [z 1; F64.nan] [z 0; z 0] = Done a'
    /\ (length a'.1.1 < length a'.1.2)%nat /\ (length a'.1.1 < length a'.2)%nat.
Proof.
  intros z. eexists. split; [vm_compute; reflexivity|].
  eapply (rebinstd_left_padding_breaks_lengths [z 1; z 2; z 3] [z 2; z 3]
            [z 1; F64.nan] [z 0; z 0]).
  - reflexivity.
  - reflexivity.
  - vm_compute. reflexivity.
  - reflexivity.
  - reflexivity.
  - reflexivity.
  - vm_compute. reflexivity.
  - vm_compute. reflexivity.
  - discriminate.
Defined.

End Rebinstd.
